(* ===== verification/_CoqProject ===== *)
-Q . S2P
Prelude.v
Slab.v
ResourceSlab.v
Memory.v
Utf8.v
Store.v
GuestExports.v
GuestTable.v
Teardown.v
HostImports.v
Linking.v
Instantiate.v
GuestBindings.v
Cascade.v
