(* ===== verification/Prelude.v ===== *)
(** * A verification development of the waPC call bridge (wit-example)

    The program is the pair of bindings that wit-bindgen generated for
    the waPC interface: src/host/bindings.rs, linked into a wasmtime
    host, and src/guest/bindings.rs, compiled into the wasm guest.  Each
    side owns resources ("wapc" handles) that the other side holds by
    number; requests cross the boundary as i32 handles, pointers and
    lengths into the guest's linear memory.

    ** The parts and how they interact

    - The host keeps, per guest instance, a [WapcGuestData]: an
      [IndexSlab] of guest handles to guest resources, a [ResourceSlab]
      of refcounted guest resources, and the guest's destructor export.
      The guest reaches them through four intrinsics
      (canonical_abi resource_new/clone/get/drop_wapc).  The host's
      own resources live in a [Table] ([WapcHostTables]); the guest holds
      handles to them and calls the waPC host imports with them.
    - Host to guest: [WapcGuest::wapc_init_guest_request],
      [wapc_on_host_response] and [wapc_on_host_error] clone the resource,
      give the guest a new handle, copy the strings and bytes into guest
      memory through [canonical_abi_realloc] and [store_many], and call
      the guest exports, which read the buffers back
      ([Vec::from_raw_parts], [String::from_utf8(..).unwrap()]) and run
      the user's trait implementation.
    - Guest to host: the guest's [Wapc::init_host_request] and friends
      pass pointers and lengths to the linker closures of
      [wapc_host::add_to_linker], which look the handle up, read and
      validate the memory ([BorrowChecker::slice]/[slice_str]) and call
      the [WapcHost] trait.

    ** Files

    - Prelude.v (this file): traps ([trap]), results, the state-and-error
      monad [St] with notations [let*] and [;;;] in [bridge_scope], u32
      and i32 casts ([as_u32], [as_i32]: Rust's [as] between the two
      widths), the hint databases [bridge] and [bridge_rw].
    - Slab.v, [Module Slab]: the runtime's free-list slab behind
      [IndexSlab] and [Table<T>] (runtime crate, not under src/, modelled
      from the spec): [insert], [get], [remove]; invariant [wf] (the free
      list is a chain through the empty entries), a gmap view [to_map]
      and the [HandleTable]/[HandleTableLaws] classes it instantiates;
      [Module SlabContract] proves the slab refines a finite map.
    - ResourceSlab.v, [Module ResourceSlab]: refcounted slots
      ([insert], [clone], [get], [drop]), runs of clone/drop operations,
      a step relation [rstep] with reachability, and the lemma that a
      resource is finalized exactly once.
    - Memory.v, [Module Memory]: guest linear memory as a list of bytes;
      [store_many] ([RawMem::store_many]), [slice] and [slice_str]
      ([BorrowChecker]), and a UTF-8 validator after Unicode Table 3-7.
    - Utf8.v, [Module Utf8]: the reference UTF-8 encoder (Unicode
      Table 3-6) and the proof that the validator accepts exactly the
      encodings of sequences of scalar values ([valid_utf8_iff]).
    - Store.v: the wasmtime store as one record [store] (guest data,
      host state, host tables, memory, guest state), the operations of
      the two slabs on it, and the invariant [guest_inv].
    - GuestExports.v: [Class WapcGuestExports] (the guest exports the
      host calls, abstract), and [Module WapcGuest]: the four intrinsics,
      [new], [lower_self], [lower_bytes] and the three calls into the
      guest, line by line from src/host/bindings.rs lines 13-281.
    - GuestTable.v, [Module GuestTable]: the contract of the guest's
      resource table (spec sections 3-4) as a step relation [astep] on
      two finite maps, its invariant [ainv], the abstraction [abs] of
      [WapcGuestData], and the refinement of the four intrinsics.
    - Teardown.v, [Module Teardown]: runs of the contract with their
      outputs ([aruns]), exact counts ([counts_exact]: every reference
      is a guest handle, as the host can never hold a guest [Wapc]), and
      the guest dropping all its handles through the intrinsic.
    - HostImports.v, [Module WapcHostImports]: [Class WapcHost] (the host
      trait) and the five linker closures of lines 289-453.
    - Linking.v, [Module Linking]: the [wasmtime::Linker] as a finite
      map from (module, name) to the closure registered there, with its
      [allow_shadowing] flag; the registration sequences of both
      [add_to_linker] functions; the guest's owned host handle
      [wapc_host::Wapc] ([from_raw], [as_raw], [into_raw], and
      [drop_owned] for its end of scope); and the guest's handle impls
      ([Drop]/[Clone] of its host handle, [HandleType], [LocalHandle]),
      which call their [canonical_abi] imports through the linker.
    - Instantiate.v, [Module Instantiate]: [WapcGuest::instantiate]
      (lines 98-107) on the caller's linker as state ([add_all]: the
      [func_wrap(..)?] calls on a [&mut Linker]) and [WapcGuest::new]
      (lines 117-154): the six typed export lookups, in order, on an
      instance's exports as a map from names to wasm extern types.
    - GuestBindings.v, [Module GuestBindings]: src/guest/bindings.rs:
      the guest's calls to the host, the four exports, [Class WapcImpl]
      (the user's trait impl), and [guest_module], the exports as an
      instance of [WapcGuestExports], given the guest's allocator and
      its resolved get and drop imports: each export passes
      [&Handle::from_raw(arg0)] as [&self], whose [Deref] calls the get
      import and hands the user's method the resource's value, and
      drops that temporary [Handle] once the method returns; the
      end-to-end theorems compose the two sides.
    - Cascade.v, [Module Cascade]: destructors that drop the handles
      their values own re-enter the host intrinsic; [host_drop n] is
      the intrinsic with the guest's drop import resolved to itself,
      [n] calls deep at most.

    ** The theorems

    - Handle lifecycle (GuestExports): dropping every handle finalizes
      a resource exactly once; dead handles are rejected without effect;
      but handles carry no generation, so a dropped handle number is
      reissued and reaches another resource.  The four intrinsics keep
      [guest_inv], failures included.
    - Marshalling (GuestExports, GuestBindings): the buffers the host
      writes read back as the bytes it meant; requests and responses
      reach the other side's trait with exactly the caller's bytes, ids
      and codes; a host-to-guest call is a balanced round trip (the
      handle issued for it is dropped again); the id the host returns
      is the guest's answer.  This holds for buffers up to the 4 GiB of
      a wasm32 memory, whose pointers and lengths of [2^31] or more
      cross as negative [i32]s; a host buffer of [2^32] bytes or more has
      its length wrapped by [len() as i32] and fails with [OutOfBounds]
      at the copy, before the guest runs.
    - Errors (GuestExports, HostImports, GuestBindings): a trapping
      allocator leaves a leaked reference and handle behind; host
      imports fail without touching state; the guest panics on an
      ill-formed operation name on a live handle, and the check it
      makes accepts exactly the UTF-8 encodings of scalar values
      (GuestBindings, with Utf8).
    - Refinement (GuestTable): under [guest_inv] and room for one more
      handle, each intrinsic takes a step of the abstract contract, the
      destructor runs exactly when the contract finalizes, and at that
      point no guest handle names the freed resource; for a destructor
      that leaves the host's bookkeeping alone (values that own no
      handles; the re-entrant case is Cascade's), any sequence of
      intrinsic calls is matched by a run of the contract ([asteps]),
      by induction on the sequence.
    - Linking (Linking): both halves register
      ("canonical_abi", "resource_drop_wapc"), so without shadowing they
      cannot be linked together; with shadowing, one kind of handle is
      dropped in the other's table, and a host handle is always cloned
      by the guest-resource intrinsic.
    - Liveness (Teardown): from any table with exact counts, dropping
      every live handle once, in any order, always completes; the
      destructor runs once on each live value, in drop order, and the
      table ends empty.  On the contract: such a run exists, and every
      run of those drops ends in the empty table.
    - Termination (Cascade): the re-entrant drop terminates, its
      nesting bounded by the number of live resources (an example
      shows a chain of three resources nesting three calls).
    - Instantiation (Instantiate): [new] accepts exactly the instances
      whose exports have the ABI's names and wasm types; [instantiate]
      spends its linker (a retry, or a call after [add_to_linker],
      fails with "defined twice"); the host's [drop_wapc] panics before
      [new] has recorded the destructor and calls it afterwards.
    - The slab and resource-slab lemmas (invariants preserved,
      refinement of a map, exactly-once finalization) are the library
      the claims rest on.

    ** Bounds

    Handles, counts and pointers are u32 in the runtime and cross the
    boundary as i32.  The model keeps them in Z with the casts written
    out.  The slab refuses to grow past [2^32] entries, and a clone
    refuses a count past [2^32 - 1] ([Overflow]).  The run refinement
    asks that the index table stay below [2^32] entries over the run
    (each intrinsic adds at most one entry).  The marshalling
    theorems assume the memory plus the copied bytes stay below [2^32]
    (a wasm32 memory holds at most [2^32] bytes): the guest's allocator
    ([WapcGuest.fresh_alloc]) reads its size [as u32] and returns its
    pointer [as i32], and the guest reads the pointers and lengths it
    receives [as u32] again, so that no cast loses a bit.  The only
    fuel is the call-stack depth of [Cascade.host_drop]: more than the
    number of live resources is enough ([cascade_terminates]), and the
    result is then the same for any such depth.  Every other definition
    is structural.

    ** Not modelled

    Library code the sources only call is modelled from its contract
    and kept out of the map of src/: the runtime's slabs (Slab.v,
    ResourceSlab.v), [RawMem] and [BorrowChecker] (Memory.v),
    [from_utf8] (Memory.v, Utf8.v), and wasmtime's [Linker] and
    [Instance] lookups (Linking.v, Instantiate.v).
    [Linker::instantiate] is the check that every import is defined, by
    name: the types of imports are not checked, and a module's start
    function is not run.  Rust's ownership is modelled where it shows:
    [into_raw] forgets its owner, and an owner going out of scope runs
    [drop_owned]; which owners a guest program holds is the caller's
    sequence of operations, not a borrow checker.
    The guest allocator ([canonical_abi_realloc]) and the user's trait
    implementations ([WapcHost], [WapcImpl]) are parameters.  The
    invocation correlator of the spec has no code in src/: ids are
    produced and matched by user code behind the traits, and the
    development does not model it.  The guest module takes its drop import as
    a parameter; the round-trip theorems resolve it (and the get
    import) to the host intrinsic of a module whose own drop import is
    fixed, and
    Cascade.v resolves it to the intrinsic itself, as deep as the fuel
    [n] (the wasm call stack) allows.  The owned handles of a finalized
    value are dropped after the user's [drop_wapc] has run; a user body
    that drops fields earlier is not covered.  Freeing of the
    guest's buffers ([Vec] drops in the guest allocator) is not
    modelled: memory only grows. *)

From stdpp Require Export base list gmap.
From stdpp Require Import strings.
From Stdlib Require Export ZArith Lia.

Open Scope Z_scope.

(** ** Traps

    Every failure the bindings can report.  wasmtime reports all of them
    as a [wasmtime::Trap] carrying a message; the constructors name the
    messages of the runtime and the classes of the spec (section 7).
    [Panic] stands for a Rust panic inside a host function
    ([expect], [unwrap], an index out of range). *)
Inductive trap :=
  | InvalidHandle      (** "invalid handle index", [RemoveError] *)
  | InvalidSlot        (** a resource index that names no slot *)
  | OutOfBounds        (** "out of bounds", "out of bounds write" *)
  | InvalidUtf8        (** "invalid utf-8" *)
  | AllocationFailed   (** the guest allocator returned an unusable address *)
  | TransportFault     (** the sandboxed callee itself trapped *)
  | Overflow           (** "resource index count overflow" *)
  | Panic              (** a Rust panic in host or guest glue *)
  | DefinedTwice       (** [Linker::func_wrap]: "import of `m::n` defined twice" *)
  | UnknownImport      (** instantiation: an import the linker does not define *)
  | MissingExport (name : string)
      (** [Instance::get_typed_func]: "failed to find function export" *)
  | ExportTypeMismatch (name : string)
      (** [TypedFunc] creation: the export's type is not the one asked for *)
  | NotAMemory         (** [WapcGuest::new]: "`memory` export not a memory" *)
  | StackExhausted.    (** wasmtime: "call stack exhausted" *)

#[export] Instance trap_eq_dec : EqDecision trap.
Proof. solve_decision. Defined.

(** [Result<A, Trap>]. *)
Inductive result (A : Type) :=
  | Ok (a : A)
  | Err (e : trap).
Arguments Ok {A} a.
Arguments Err {A} e.

Definition result_bind {A B} (r : result A) (k : A -> result B) : result B :=
  match r with Ok a => k a | Err e => Err e end.

Definition ok_or {A} (o : option A) (e : trap) : result A :=
  match o with Some a => Ok a | None => Err e end.

(** ** The host-call monad

    A host function runs against a wasmtime [Store] and may trap half
    way.  A trap does not roll the store back: what the function changed
    before the trap stays changed.  So a computation returns the final
    store together with its result, also on failure. *)
Definition St (S A : Type) : Type := S -> S * result A.

Section Monad.
Context {S : Type}.

Definition ret {A} (a : A) : St S A := fun s => (s, Ok a).
Definition throw {A} (e : trap) : St S A := fun s => (s, Err e).
Definition bind {A B} (m : St S A) (k : A -> St S B) : St S B :=
    fun s => match m s with
             | (s', Ok a) => k a s'
             | (s', Err e) => (s', Err e)
             end.
Definition gets {A} (f : S -> A) : St S A := fun s => (s, Ok (f s)).
Definition modify (f : S -> S) : St S unit := fun s => (f s, Ok tt).
  (** [r?] for a pure [Result]. *)
Definition lift {A} (r : result A) : St S A := fun s => (s, r).
End Monad.

Declare Scope bridge_scope.
Delimit Scope bridge_scope with bridge.
Notation "'let*' x ':=' c 'in' k" := (bind c (fun x => k))
  (at level 10, x ident, c at level 100, k at level 200) : bridge_scope.
Notation "'let*' ' p ':=' c 'in' k" := (bind c (fun x => match x with p => k end))
  (at level 10, p pattern, c at level 100, k at level 200) : bridge_scope.
Notation "c ';;;' k" := (bind c (fun _ => k))
  (at level 100, right associativity) : bridge_scope.
Open Scope bridge_scope.

Lemma bind_ok {S A B} (m : St S A) (k : A -> St S B) s s' a :
  m s = (s', Ok a) -> bind m k s = k a s'.
Proof. intros H. unfold bind. by rewrite H. Qed.

Lemma bind_err {S A B} (m : St S A) (k : A -> St S B) s s' e :
  m s = (s', Err e) -> bind m k s = (s', Err e).
Proof. intros H. unfold bind. by rewrite H. Qed.

(** ** Machine integers

    wasm values are [i32]; the bindings convert with [as u32] and
    [wit_bindgen::rt::as_i32], which are two's-complement reinterpretations. *)
Definition is_u32 (z : Z) : Prop := 0 <= z < 2 ^ 32.
Definition is_i32 (z : Z) : Prop := - 2 ^ 31 <= z < 2 ^ 31.

(** [x as u32] on an [i32] (or any integer, keeping the low 32 bits). *)
Definition as_u32 (z : Z) : Z := z mod 2 ^ 32.
(** [x as i32] on a [u32] or [usize]: keep the low 32 bits, read them signed. *)
Definition as_i32 (z : Z) : Z := (z + 2 ^ 31) mod 2 ^ 32 - 2 ^ 31.

Lemma as_u32_range z : is_u32 (as_u32 z).
Proof. unfold is_u32, as_u32. apply Z.mod_pos_bound. lia. Qed.

Lemma as_i32_range z : is_i32 (as_i32 z).
Proof.
  unfold is_i32, as_i32. pose proof (Z.mod_pos_bound (z + 2 ^ 31) (2 ^ 32)). lia.
Qed.

Lemma as_u32_id z : is_u32 z -> as_u32 z = z.
Proof. unfold is_u32, as_u32. intros. by apply Z.mod_small. Qed.

Lemma as_i32_id z : is_i32 z -> as_i32 z = z.
Proof.
  unfold is_i32, as_i32. intros. rewrite Z.mod_small by lia. lia.
Qed.

(** The round trip [(x as i32) as u32 = x] that every [u32] argument
    passed through a wasm [i32] relies on. *)
Lemma as_u32_as_i32 z : is_u32 z -> as_u32 (as_i32 z) = z.
Proof.
  unfold is_u32, as_u32, as_i32. intros Hz.
  destruct (Z.lt_ge_cases z (2 ^ 31)).
  - rewrite (Z.mod_small (z + 2 ^ 31)) by lia.
    replace (z + 2 ^ 31 - 2 ^ 31) with z by lia. by apply Z.mod_small.
  - replace (z + 2 ^ 31) with ((z - 2 ^ 31) + 1 * 2 ^ 32) by lia.
    rewrite Z.mod_add, (Z.mod_small (z - 2 ^ 31)) by lia.
    replace (z - 2 ^ 31 - 2 ^ 31) with (z + (-1) * 2 ^ 32) by lia.
    rewrite Z.mod_add by lia. by apply Z.mod_small.
Qed.

(** Reading an [i32] as [u32] keeps the low 32 bits of any integer:
    both ends of the boundary see the same bit pattern. *)
Lemma as_u32_as_i32_bits z : as_u32 (as_i32 z) = as_u32 z.
Proof. unfold as_u32, as_i32. rewrite Zminus_mod_idemp_l. f_equal. lia. Qed.

Lemma as_i32_as_u32 z : is_i32 z -> as_i32 (as_u32 z) = z.
Proof.
  unfold is_i32, as_u32, as_i32. intros Hz.
  rewrite Zplus_mod_idemp_l.
  destruct (Z.lt_ge_cases z 0).
  - replace (z + 2 ^ 31) with ((z + 2 ^ 31) + 0 * 2 ^ 32) by lia.
    rewrite Z.mod_add, Z.mod_small by lia. lia.
  - rewrite Z.mod_small by lia. lia.
Qed.

(** ** Counting the keys of a finite map that hold a value

    The abstract view of a handle table is a [gmap] from handles to
    resources; the number of handles to a resource is [count_val]. *)
Section CountVal.
Context {K V : Type} `{Countable K} `{EqDecision V}.
Implicit Types (m : gmap K V).

Definition count_val m (v : V) : nat := size (filter (fun kv : K * V => kv.2 = v) m).

Lemma count_val_insert m k v v' :
  m !! k = None ->
  count_val (<[k := v]> m) v' = (count_val m v' + if decide (v = v') then 1 else 0)%nat.
Proof.
  intros Hk. unfold count_val. case_decide as E.
  - rewrite map_filter_insert_True by done. rewrite map_size_insert_None; [lia|].
    by apply map_lookup_filter_None; left.
  - rewrite map_filter_insert_False by done. rewrite delete_id by done. lia.
Qed.

Lemma count_val_delete m k v v' :
  m !! k = Some v ->
  (count_val (delete k m) v' + if decide (v = v') then 1 else 0)%nat = count_val m v'.
Proof.
  intros Hk. rewrite <- (insert_delete_id m k v Hk) at 2.
  rewrite count_val_insert by apply lookup_delete_eq. done.
Qed.

Lemma count_val_pos m k v : m !! k = Some v -> (1 <= count_val m v)%nat.
Proof. intros Hk. rewrite <- (count_val_delete m k v v Hk), decide_True by done. lia. Qed.
Lemma count_val_pos_inv m v : (0 < count_val m v)%nat -> exists k, m !! k = Some v.
Proof.
  unfold count_val. intros Hs.
  destruct (map_size_ne_0_lookup_1 (filter (fun kv : K * V => kv.2 = v) m)) as (k & x & Hk);
    [lia|].
  apply map_lookup_filter_Some in Hk as [Hk Hx]. simpl in Hx. subst. eauto.
Qed.
End CountVal.

(** ** The hint database of the development. *)
Create HintDb bridge discriminated.
Create Rewrite HintDb bridge_rw.
#[export] Hint Resolve as_u32_range as_i32_range as_u32_as_i32 as_i32_as_u32 : bridge.
#[export] Hint Rewrite as_u32_id as_i32_id using (unfold is_u32, is_i32 in *; lia) : bridge_rw.

(** Discharge [forall x, x ∈ [a; b; ...] -> P x] on a concrete list. *)
Ltac forall_in_list :=
  let x := fresh "x" in let Hin := fresh "Hin" in
  intros x Hin;
  repeat (apply elem_of_cons in Hin as [->|Hin]; [reflexivity|]);
  by apply elem_of_nil in Hin.

(** Run the monad one step: unfold the combinators applied to a store. *)
Ltac st_simpl := unfold bind, ret, throw, gets, modify, lift in *; cbn beta iota zeta in *.
