(* ===== verification/Slab.v ===== *)
(** * Slab: the handle tables

    The free-list slab behind [wit_bindgen_wasmtime::rt::IndexSlab] (the
    table of guest-visible handles to guest-owned resources,
    [WapcGuestData.index_slab0]) and [wit_bindgen_wasmtime::Table<T>]
    (the table of guest-visible handles to host-owned resources,
    [WapcHostTables.wapc_table]).  Both live in the runtime crate, not in
    src/: the model follows the HandleTable contract of the spec
    (section 4.1): a handle is a small integer that is fresh when issued,
    [get]/[remove] fail on an unknown or removed handle, and removed
    handles are reissued (no generation counter).

    The file holds the data ([entry], [slab]), the operations, the
    well-formedness invariant [wf] (the free list threads every empty
    entry), the abstract view [to_map] into a [gmap], and the refinement
    of the abstract table by the slab. *)

From S2P Require Import Prelude.

Module Slab.

(** An entry is free (and links to the next free entry) or holds a value. *)
Inductive entry (A : Type) :=
  | Empty (next : nat)
  | Full (a : A).
Arguments Empty {A} next.
Arguments Full {A} a.

Record slab (A : Type) := mk_slab {
  entries : list (entry A);
  next : nat   (** head of the free list; [length entries] when none is free *)
}.
Arguments mk_slab {A} entries next.
Arguments entries {A} s.
Arguments next {A} s.

Section Ops.
Context {A : Type}.

  (** [Default::default()]. *)
Definition empty : slab A := mk_slab [] 0.

  (** [insert]: take the head of the free list, pushing a fresh empty
      entry first when the free list is exhausted.  Handles are [u32];
      an index that does not fit, or a head that is not free, panics. *)
Definition insert (s : slab A) (a : A) : result (slab A * nat) :=
    let es := if decide (next s = length (entries s))
              then entries s ++ [Empty (S (next s))] else entries s in
    match es !! next s with
    | Some (Empty n) =>
        if Z.of_nat (next s) <? 2 ^ 32
        then Ok (mk_slab (<[next s := Full a]> es) n, next s)
        else Err Panic
    | _ => Err Panic
    end.

  (** [get]: the value behind a handle, if the handle is live. *)
Definition get (s : slab A) (h : nat) : option A :=
    match entries s !! h with
    | Some (Full a) => Some a
    | _ => None
    end.

  (** [remove]: unmap a live handle and push its entry on the free list. *)
Definition remove (s : slab A) (h : nat) : option (slab A * A) :=
    match entries s !! h with
    | Some (Full a) => Some (mk_slab (<[h := Empty (next s)]> (entries s)) h, a)
    | _ => None
    end.

  (** The abstract table: the live handles and their values. *)
Fixpoint entries_map (es : list (entry A)) (off : nat) : gmap nat A :=
    match es with
    | [] => ∅
    | Empty _ :: es' => entries_map es' (S off)
    | Full a :: es' => <[off := a]> (entries_map es' (S off))
    end.

Definition to_map (s : slab A) : gmap nat A := entries_map (entries s) 0.

  (** ** The invariant.  [chain es i fl]: following the free list from
      [i] visits exactly the indices [fl] and ends at [length es]. *)
Inductive chain (es : list (entry A)) : nat -> list nat -> Prop :=
    | chain_end : chain es (length es) []
    | chain_link i j fl :
        es !! i = Some (Empty j) -> chain es j fl -> chain es i (i :: fl).

Definition wf (s : slab A) : Prop :=
    exists fl, chain (entries s) (next s) fl /\ NoDup fl /\
      (forall i j, entries s !! i = Some (Empty j) -> i ∈ fl).
End Ops.

(** ** Lemmas *)
Section Lemmas.
Context {A : Type}.
Implicit Types (s : slab A) (es : list (entry A)).

Lemma entries_map_below es off i :
    (i < off)%nat -> entries_map es off !! i = None.
  Proof.
    revert off. induction es as [|[j|a] es IH]; intros off Hi; simpl; [done| |].
    - apply IH. lia.
    - rewrite lookup_insert_ne by lia. apply IH. lia.
  Qed.

Lemma entries_map_lookup es off k :
    entries_map es off !! (off + k)%nat =
      match es !! k with Some (Full a) => Some a | _ => None end.
  Proof.
    revert off k. induction es as [|[j|a] es IH]; intros off k; simpl; [done| |].
    - destruct k as [|k]; simpl.
      + apply entries_map_below. lia.
      + rewrite <- (IH (S off) k). f_equal. lia.
    - destruct k as [|k]; simpl.
      + rewrite Nat.add_0_r. apply lookup_insert_eq.
      + rewrite lookup_insert_ne by lia. rewrite <- (IH (S off) k). f_equal. lia.
  Qed.

  (** The abstract view agrees with [get] on every handle. *)
Lemma to_map_lookup s h : to_map s !! h = get s h.
  Proof. unfold to_map, get. apply (entries_map_lookup _ 0 h). Qed.

  (** Padding the entries with a free entry changes no lookup. *)
Lemma get_pad es n h :
    match (es ++ [Empty n]) !! h with Some (Full a) => Some a | _ => None end =
    match es !! h with Some (Full a) => Some a | _ => None end.
  Proof.
    destruct (decide (h < length es)%nat).
    - by rewrite lookup_app_l.
    - rewrite lookup_app_r by lia. rewrite (lookup_ge_None_2 es h) by lia.
      by destruct (h - length es)%nat.
  Qed.

  (** The entries [insert] works on: the old ones, padded when full. *)
Definition padded s : list (entry A) :=
    if decide (next s = length (entries s))
    then entries s ++ [Empty (S (next s))] else entries s.

Lemma get_padded s h :
    match padded s !! h with Some (Full a) => Some a | _ => None end = get s h.
  Proof. unfold padded, get. case_decide; [apply get_pad | done]. Qed.

Lemma insert_inv s a s' h :
    insert s a = Ok (s', h) ->
    h = next s /\ entries s' = <[h := Full a]> (padded s) /\
    exists j, padded s !! h = Some (Empty j) /\ next s' = j.
  Proof.
    unfold insert. fold (padded s).
    destruct (padded s !! next s) as [[j|]|] eqn:E; try discriminate.
    destruct (Z.of_nat (next s) <? 2 ^ 32); intros; simplify_eq; eauto.
  Qed.

  (** [insert] maps the new handle and leaves every other one alone. *)
Lemma insert_get s a s' h h' :
    insert s a = Ok (s', h) ->
    get s' h' = if decide (h' = h) then Some a else get s h'.
  Proof.
    intros (-> & He & j & Hj & _)%insert_inv. unfold get at 1. rewrite He.
    case_decide as Hh.
    - subst. rewrite list_lookup_insert_eq; [done|]. by eapply lookup_lt_Some.
    - rewrite list_lookup_insert_ne by done. apply get_padded.
  Qed.

  (** The handle [insert] issues was not live. *)
Lemma insert_fresh s a s' h :
    insert s a = Ok (s', h) -> get s h = None.
  Proof.
    intros (-> & _ & j & Hj & _)%insert_inv. by rewrite <- get_padded, Hj.
  Qed.

  (** An issued handle is a [u32]. *)
Lemma insert_bound s a s' h : insert s a = Ok (s', h) -> Z.of_nat h < 2 ^ 32.
  Proof.
    unfold insert. destruct (_ !! next s) as [[j|]|]; try discriminate.
    destruct (Z.ltb_spec (Z.of_nat (next s)) (2 ^ 32)); intros; simplify_eq; lia.
  Qed.

  (** [insert] adds at most one entry; [remove] none. *)
Lemma insert_length s a s' h : insert s a = Ok (s', h) -> (length (entries s') <= S (length (entries s)))%nat.
  Proof.
    intros (-> & He & _)%insert_inv. rewrite He, length_insert. unfold padded.
    case_decide; [rewrite length_app; simpl; lia|lia].
  Qed.

Lemma remove_inv s h s' a :
    remove s h = Some (s', a) ->
    entries s !! h = Some (Full a) /\
    s' = mk_slab (<[h := Empty (next s)]> (entries s)) h.
  Proof.
    unfold remove. destruct (entries s !! h) as [[|]|] eqn:E; intros; simplify_eq; eauto.
  Qed.

Lemma remove_get s h s' a h' :
    remove s h = Some (s', a) ->
    get s' h' = if decide (h' = h) then None else get s h'.
  Proof.
    intros [Hh ->]%remove_inv. unfold get; simpl. case_decide.
    - subst. rewrite list_lookup_insert_eq; [done|]. by eapply lookup_lt_Some.
    - by rewrite list_lookup_insert_ne.
  Qed.

Lemma remove_length s h s' a : remove s h = Some (s', a) -> length (entries s') = length (entries s).
  Proof. intros [_ ->]%remove_inv. simpl. by rewrite length_insert. Qed.

Lemma remove_Some_get s h s' a : remove s h = Some (s', a) -> get s h = Some a.
  Proof. intros [Hh _]%remove_inv. unfold get. by rewrite Hh. Qed.

Lemma remove_of_get s h a :
    get s h = Some a -> remove s h = Some (mk_slab (<[h := Empty (next s)]> (entries s)) h, a).
  Proof. unfold get, remove. destruct (entries s !! h) as [[|]|]; naive_solver. Qed.

Lemma remove_None s h : remove s h = None <-> get s h = None.
  Proof. unfold remove, get. destruct (entries s !! h) as [[|]|]; naive_solver. Qed.
End Lemmas.

(** ** The free-list invariant *)
Section Invariant.
Context {A : Type}.
Implicit Types (s : slab A) (es : list (entry A)).

Lemma chain_empty es n fl k : chain es n fl -> k ∈ fl -> exists j, es !! k = Some (Empty j).
  Proof.
    induction 1 as [|i j fl Hi _ IH]; [by rewrite elem_of_nil|].
    rewrite elem_of_cons. intros [->|]; eauto.
  Qed.

Lemma chain_at_end es fl : chain es (length es) fl -> fl = [].
  Proof.
    inversion 1 as [|i j fl' Hi]; [done|]. rewrite lookup_ge_None_2 in Hi; [done|lia].
  Qed.

  (** Overwriting an entry the free list does not visit keeps the chain. *)
Lemma chain_insert es n fl i x :
    chain es n fl -> i ∉ fl -> chain (<[i := x]> es) n fl.
  Proof.
    induction 1 as [|k j fl Hk _ IH]; intros Hi.
    - rewrite <- (length_insert es i x). constructor.
    - rewrite not_elem_of_cons in Hi. destruct Hi as [Hik Hi].
      econstructor; [|by apply IH]. by rewrite list_lookup_insert_ne.
  Qed.

Lemma empty_wf : wf (@empty A).
  Proof.
    exists []. split_and!; [constructor|constructor|]. intros i j H. done.
  Qed.

  (** On a well-formed slab with fewer than [2^32] entries, [insert]
      succeeds: the head of the free list is free. *)
Lemma insert_total s a :
    wf s -> Z.of_nat (length (entries s)) < 2 ^ 32 ->
    exists s' h, insert s a = Ok (s', h).
  Proof.
    intros (fl & Hc & _ & _) Hlen. unfold insert. fold (padded s). unfold padded.
    case_decide as Hn.
    - rewrite lookup_app_r, Hn, Nat.sub_diag by lia. simpl.
      destruct (Z.ltb_spec (Z.of_nat (length (entries s))) (2 ^ 32)); [eauto|lia].
    - inversion Hc as [Heq|i j fl' Hi]; [congruence|]. rewrite Hi.
      pose proof (lookup_lt_Some _ _ _ Hi).
      destruct (Z.ltb_spec (Z.of_nat (next s)) (2 ^ 32)); [eauto|lia].
  Qed.

Lemma insert_wf s a s' h : wf s -> insert s a = Ok (s', h) -> wf s'.
  Proof.
    intros (fl & Hc & Hnd & Hall) Hins.
    destruct (insert_inv _ _ _ _ Hins) as (-> & He & j & Hj & Hn).
    unfold wf. rewrite He, Hn. unfold padded in *. case_decide as Hfull.
    - rewrite Hfull in Hc. apply chain_at_end in Hc as ->.
      rewrite lookup_app_r, Hfull, Nat.sub_diag in Hj by lia. simplify_eq/=.
      rewrite Hfull, insert_app_r_alt, Nat.sub_diag by lia. simpl.
      exists []. split_and!; [|constructor|].
      + rewrite <- Hj. replace (S (length (entries s))) with (length (entries s ++ [@Full A a]))
          by (rewrite length_app; simpl; lia). constructor.
      + intros i k Hi. destruct (decide (i < length (entries s))%nat).
        * rewrite lookup_app_l in Hi by done. by apply Hall in Hi.
        * rewrite lookup_app_r in Hi by lia.
          by destruct (i - length (entries s))%nat.
    - inversion Hc as [|i k fl' Hi Hc']; [congruence|]; subst.
      rewrite Hi in Hj. simplify_eq. apply NoDup_cons in Hnd as [Hnin Hnd].
      exists fl'. split_and!; [by apply chain_insert|done|].
      intros i k Hik. destruct (decide (i = next s)) as [->|Hne].
      + rewrite list_lookup_insert_eq in Hik; [done|]. by eapply lookup_lt_Some.
      + rewrite list_lookup_insert_ne in Hik by done.
        destruct (proj1 (elem_of_cons _ _ _) (Hall _ _ Hik)); [done|done].
  Qed.

Lemma remove_wf s h s' a : wf s -> remove s h = Some (s', a) -> wf s'.
  Proof.
    intros (fl & Hc & Hnd & Hall) [Hh ->]%remove_inv.
    assert (Hnin : h ∉ fl).
    { intros Hin. destruct (chain_empty _ _ _ _ Hc Hin) as [j Hj]. congruence. }
    pose proof (lookup_lt_Some _ _ _ Hh) as Hlt.
    exists (h :: fl). simpl. split_and!.
    - econstructor; [by rewrite list_lookup_insert_eq|]. by apply chain_insert.
    - by constructor.
    - intros i k Hik. rewrite elem_of_cons.
      destruct (decide (i = h)) as [|Hne]; [by left|right].
      rewrite list_lookup_insert_ne in Hik by done. by eapply Hall.
  Qed.
End Invariant.

(** ** The abstract table *)
Section View.
Context {A : Type}.
Implicit Types (s : slab A).

Lemma insert_view s a s' h :
    insert s a = Ok (s', h) -> to_map s' = <[h := a]> (to_map s).
  Proof.
    intros Hi. apply map_eq. intros h'. rewrite !to_map_lookup, (insert_get _ _ _ _ _ Hi).
    case_decide as E; [subst; by rewrite lookup_insert_eq|].
    by rewrite lookup_insert_ne, to_map_lookup.
  Qed.

Lemma remove_view s h s' a :
    remove s h = Some (s', a) -> to_map s' = delete h (to_map s).
  Proof.
    intros Hr. apply map_eq. intros h'. rewrite !to_map_lookup, (remove_get _ _ _ _ _ Hr).
    case_decide as E; [subst; by rewrite lookup_delete_eq|].
    by rewrite lookup_delete_ne, to_map_lookup.
  Qed.
End View.

#[export] Hint Resolve empty_wf insert_wf remove_wf : bridge.
#[export] Hint Rewrite @to_map_lookup : bridge_rw.

(** ** Counting the handles to a value *)
Section Count.
Context {A : Type} `{EqDecision A}.
Local Open Scope nat_scope.
Implicit Types (s : slab A) (es : list (entry A)).

Definition is_full (a : A) (e : entry A) : nat :=
  match e with Full b => if decide (a = b) then 1 else 0 | Empty _ => 0 end.

Fixpoint count_full (a : A) (es : list (entry A)) : nat :=
  match es with
  | [] => 0
  | e :: es' => is_full a e + count_full a es'
  end.

Lemma count_full_app a es1 es2 : count_full a (es1 ++ es2) = count_full a es1 + count_full a es2.
Proof. induction es1; simpl; lia. Qed.

Lemma count_full_insert a es i e e0 :
  es !! i = Some e0 -> count_full a (<[i := e]> es) + is_full a e0 = count_full a es + is_full a e.
Proof.
  revert i. induction es as [|x es IH]; intros [|i] Hi; simpl in *; simplify_eq; [lia|].
  specialize (IH i Hi). lia.
Qed.

Lemma count_full_pos a es h : es !! h = Some (Full a) -> 1 <= count_full a es.
Proof.
  revert h. induction es as [|x es IH]; intros [|h] Hh; simpl in Hh; simplify_eq;
    cbn [count_full].
  - unfold is_full. rewrite decide_True by done. lia.
  - specialize (IH h Hh). lia.
Qed.

Lemma insert_count s a s' h b :
  insert s a = Ok (s', h) ->
  count_full b (entries s') = count_full b (entries s) + is_full b (Full a).
Proof.
  intros (-> & He & j & Hj & _)%insert_inv. rewrite He.
  pose proof (count_full_insert b _ _ (Full a) _ Hj) as E. simpl in E |- *.
  assert (Hp : count_full b (padded s) = count_full b (entries s)).
  { unfold padded. destruct (decide (next s = length (entries s))); [|done].
    rewrite count_full_app. simpl. lia. }
  lia.
Qed.

Lemma remove_count s h s' a b :
  remove s h = Some (s', a) ->
  count_full b (entries s') + is_full b (Full a) = count_full b (entries s).
Proof.
  intros [Hh ->]%remove_inv. simpl.
  pose proof (count_full_insert b _ _ (Empty (next s)) _ Hh) as E. simpl in E. lia.
Qed.

Lemma count_full_entries_map a es off : count_full a es = count_val (entries_map es off) a.
Proof.
  revert off. induction es as [|[j|b] es IH]; intros off; simpl.
  - unfold count_val. by rewrite map_filter_empty, map_size_empty.
  - apply IH.
  - rewrite count_val_insert by (apply entries_map_below; lia). rewrite <- IH.
    unfold is_full. destruct (decide (a = b)), (decide (b = a)); subst; try done; lia.
Qed.

  (** The handles to [a], counted on the abstract table. *)
Lemma count_full_view s a : count_full a (entries s) = count_val (to_map s) a.
Proof. apply count_full_entries_map. Qed.

Lemma get_count s h a : get s h = Some a -> 1 <= count_full a (entries s).
Proof.
  unfold get. destruct (entries s !! h) as [[|b]|] eqn:E; intros; simplify_eq.
  by eapply count_full_pos.
Qed.
End Count.

End Slab.


(** ** The HandleTable contract (spec section 4.1)

    What the bindings rely on from a handle table, stated against an
    abstract view of the table as a finite map from handles to values.
    [IndexSlab] and [Table<T>] discharge it through [Slab.slab]. *)
Class HandleTable (T : Type -> Type) := {
  ht_empty {A} : T A;
  ht_insert {A} : T A -> A -> result (T A * nat);
  ht_get {A} : T A -> nat -> option A;
  ht_remove {A} : T A -> nat -> option (T A * A);
  ht_inv {A} : T A -> Prop;
  ht_view {A} : T A -> gmap nat A;
}.

Class HandleTableLaws (T : Type -> Type) `{HandleTable T} := {
  ht_view_get {A} (t : T A) h : ht_view t !! h = ht_get t h;
  ht_empty_inv {A} : ht_inv (@ht_empty _ _ A);
  ht_empty_view {A} : ht_view (@ht_empty _ _ A) = ∅;
  ht_insert_spec {A} (t t' : T A) a h :
    ht_insert t a = Ok (t', h) ->
    ht_view t !! h = None /\ ht_view t' = <[h := a]> (ht_view t) /\ (ht_inv t -> ht_inv t');
  ht_remove_spec {A} (t t' : T A) h a :
    ht_remove t h = Some (t', a) ->
    ht_view t !! h = Some a /\ ht_view t' = delete h (ht_view t) /\ (ht_inv t -> ht_inv t');
  ht_remove_none {A} (t : T A) h : ht_remove t h = None <-> ht_view t !! h = None;
}.

#[export] Instance slab_handle_table : HandleTable Slab.slab := {|
  ht_empty A := Slab.empty;
  ht_insert A := Slab.insert;
  ht_get A := Slab.get;
  ht_remove A := Slab.remove;
  ht_inv A := Slab.wf;
  ht_view A := Slab.to_map;
|}.

#[export] Instance slab_handle_table_laws : HandleTableLaws Slab.slab.
Proof.
  split.
  - intros A t h. apply Slab.to_map_lookup.
  - intros A. apply Slab.empty_wf.
  - done.
  - intros A t t' a h Hi. cbn in *. rewrite Slab.to_map_lookup. split_and!.
    + by eapply Slab.insert_fresh.
    + by eapply Slab.insert_view.
    + intros. by eapply Slab.insert_wf.
  - intros A t t' h a Hr. cbn in *. rewrite Slab.to_map_lookup. split_and!.
    + by eapply Slab.remove_Some_get.
    + by eapply Slab.remove_view.
    + intros. by eapply Slab.remove_wf.
  - intros A t h. cbn. rewrite Slab.to_map_lookup. apply Slab.remove_None.
Qed.

(** ** The contract, packaged *)
Module SlabContract.
Import Slab.

(** [insert] on a well-formed table with fewer than [2^32] entries
    never panics; it issues a handle that was not live, the abstract
    table gains exactly that handle, and the invariant is kept. *)
Lemma insert_refines {A} (s : slab A) (a : A) :
  wf s -> Z.of_nat (length (entries s)) < 2 ^ 32 ->
  exists s' h, insert s a = Ok (s', h) /\ to_map s !! h = None /\
    to_map s' = <[h := a]> (to_map s) /\ wf s'.
Proof.
  intros Hwf Hlen. destruct (insert_total s a Hwf Hlen) as (s' & h & Hi).
  exists s', h. rewrite to_map_lookup. split_and!; eauto using insert_fresh, insert_view with bridge.
Qed.


(** [remove] of a live handle returns its value and deletes exactly
    that handle from the abstract table, keeping the invariant; on a
    handle that is not live it fails. *)
Lemma remove_refines {A} (s : slab A) (h : nat) :
  wf s ->
  match remove s h with
  | Some (s', a) => to_map s !! h = Some a /\ to_map s' = delete h (to_map s) /\ wf s'
  | None => to_map s !! h = None
  end.
Proof.
  intros Hwf. destruct (remove s h) as [[s' a]|] eqn:Hr.
  - rewrite to_map_lookup. split_and!; eauto using remove_Some_get, remove_view with bridge.
  - rewrite to_map_lookup. by apply remove_None.
Qed.


(** Handles are generation-free: after [remove h], the next
    [insert] reissues [h] itself, and [h] then names the new value.  A
    caller that kept the removed handle now reaches another resource
    (spec section 8 asks that it fail with [InvalidHandle]). *)
Lemma removed_handle_reissued {A} (s s1 : slab A) h a b :
  remove s h = Some (s1, a) -> Z.of_nat h < 2 ^ 32 ->
  exists s2, insert s1 b = Ok (s2, h) /\ get s2 h = Some b.
Proof.
  intros Hr Hh. pose proof Hr as [Hl ->]%remove_inv.
  pose proof (lookup_lt_Some _ _ _ Hl) as Hlt.
  unfold insert; simpl. rewrite decide_False by (rewrite length_insert; lia).
  rewrite list_lookup_insert_eq by done.
  destruct (Z.ltb_spec (Z.of_nat h) (2 ^ 32)); [|lia].
  eexists; split; [reflexivity|]. unfold get; simpl.
  rewrite list_lookup_insert_eq; [done|]. by rewrite length_insert.
Qed.


End SlabContract.
