(* ===== verification/ResourceSlab.v ===== *)
(** * ResourceSlab: refcounted storage of guest resources

    [wit_bindgen_wasmtime::rt::ResourceSlab], held by the host in
    [WapcGuestData.resource_slab0] (src/host/bindings.rs, line 16): one
    slot per guest-owned resource, holding the guest's own
    representation of it (an [i32], the [wasm] value handed back to the
    guest destructor [canonical_abi_drop_wapc]) and a [u32] reference
    count.  The runtime crate is not in src/: the operations follow the
    ResourceSlab contract of the spec (section 4.2) and the way the
    bindings use them: [clone] returns a [Result] ([?] at lines 59,
    167, 206, 239), [get] a bare value (line 69) and [drop] an [Option]
    (lines 44, 275); an index naming no slot is a panic in the runtime,
    modelled as [InvalidSlot].

    The main theorem: along any sequence of clones and drops of one
    slot (two call paths interleaved in any order), the value is handed
    to the finalizer exactly once, at the drop that takes the count from
    1 to 0, and never before. *)

From S2P Require Import Prelude.

Module ResourceSlab.

Record slot := mk_slot { wasm : Z; refcnt : Z }.

(** Slots are never moved: a resource index stays valid until its slot
    is freed, and freed slots are not reused. *)
Record rslab := mk_rslab { slots : list (option slot) }.

Definition empty : rslab := mk_rslab [].

(** [insert(value)]: a new slot with count 1, at the next index. *)
Definition insert (r : rslab) (w : Z) : rslab * nat :=
  (mk_rslab (slots r ++ [Some (mk_slot w 1)]), length (slots r)).

(** [clone(idx)]: [refcnt.checked_add(1)], failing on overflow of the
    [u32] count. *)
Definition clone (r : rslab) (idx : nat) : result rslab :=
  match slots r !! idx with
  | Some (Some sl) =>
      if refcnt sl + 1 <? 2 ^ 32
      then Ok (mk_rslab (<[idx := Some (mk_slot (wasm sl) (refcnt sl + 1))]> (slots r)))
      else Err Overflow
  | _ => Err InvalidSlot
  end.

(** [get(idx)]: read the value, leaving the count alone. *)
Definition get (r : rslab) (idx : nat) : result Z :=
  match slots r !! idx with
  | Some (Some sl) => Ok (wasm sl)
  | _ => Err InvalidSlot
  end.

(** [drop(idx)]: decrement; at zero free the slot and return the value
    for the caller to finalize. *)
Definition drop (r : rslab) (idx : nat) : result (rslab * option Z) :=
  match slots r !! idx with
  | Some (Some sl) =>
      if refcnt sl =? 1
      then Ok (mk_rslab (<[idx := None]> (slots r)), Some (wasm sl))
      else Ok (mk_rslab (<[idx := Some (mk_slot (wasm sl) (refcnt sl - 1))]> (slots r)), None)
  | _ => Err InvalidSlot
  end.

(** The invariant: every live slot has a count in [1, 2^32). *)
Definition wf (r : rslab) : Prop :=
  forall idx sl, slots r !! idx = Some (Some sl) -> 1 <= refcnt sl < 2 ^ 32.

(** One call path's operations on one slot, and a run of them that
    collects the values handed to the finalizer. *)
Inductive op := OpClone | OpDrop.

Fixpoint run (r : rslab) (idx : nat) (ops : list op) : result (rslab * list Z) :=
  match ops with
  | [] => Ok (r, [])
  | OpClone :: ops' =>
      match clone r idx with
      | Ok r' => run r' idx ops'
      | Err e => Err e
      end
  | OpDrop :: ops' =>
      match drop r idx with
      | Ok (r', fin) =>
          match run r' idx ops' with
          | Ok (r'', fins) => Ok (r'', option_list fin ++ fins)
          | Err e => Err e
          end
      | Err e => Err e
      end
  end.

(** [alive n ops]: starting from count [n], every operation of [ops]
    keeps the count in [1, 2^32) (no overflow, no drop to zero). *)
Fixpoint alive (n : Z) (ops : list op) : Prop :=
  match ops with
  | [] => True
  | OpClone :: ops' => n + 1 < 2 ^ 32 /\ alive (n + 1) ops'
  | OpDrop :: ops' => 1 < n /\ alive (n - 1) ops'
  end.

(** The count after [ops]. *)
Fixpoint count_after (n : Z) (ops : list op) : Z :=
  match ops with
  | [] => n
  | OpClone :: ops' => count_after (n + 1) ops'
  | OpDrop :: ops' => count_after (n - 1) ops'
  end.

(** ** Lemmas *)
Section Lemmas.
Implicit Types (r : rslab).

Lemma lookup_update r idx sl x :
    slots r !! idx = Some sl -> <[idx := x]> (slots r) !! idx = Some x.
  Proof. intros H. apply list_lookup_insert_eq. by eapply lookup_lt_Some. Qed.

Lemma clone_live r idx w n :
    slots r !! idx = Some (Some (mk_slot w n)) -> n + 1 < 2 ^ 32 ->
    clone r idx = Ok (mk_rslab (<[idx := Some (mk_slot w (n + 1))]> (slots r))).
  Proof.
    intros H Hn. unfold clone. rewrite H. simpl.
    by destruct (Z.ltb_spec (n + 1) (2 ^ 32)); [|lia].
  Qed.

Lemma drop_shared r idx w n :
    slots r !! idx = Some (Some (mk_slot w n)) -> 1 < n ->
    drop r idx = Ok (mk_rslab (<[idx := Some (mk_slot w (n - 1))]> (slots r)), None).
  Proof.
    intros H Hn. unfold drop. rewrite H. simpl.
    by destruct (Z.eqb_spec n 1); [lia|].
  Qed.

Lemma drop_last r idx w :
    slots r !! idx = Some (Some (mk_slot w 1)) ->
    drop r idx = Ok (mk_rslab (<[idx := None]> (slots r)), Some w).
  Proof. intros H. unfold drop. by rewrite H. Qed.

Lemma clone_ok_inv r idx r' :
  clone r idx = Ok r' ->
  exists w n, slots r !! idx = Some (Some (mk_slot w n)) /\
    r' = mk_rslab (<[idx := Some (mk_slot w (n + 1))]> (slots r)).
Proof.
  unfold clone. destruct (slots r !! idx) as [[[w n]|]|] eqn:E; try discriminate.
  simpl. destruct (Z.ltb_spec (n + 1) (2 ^ 32)); intros; simplify_eq; eauto.
Qed.

Lemma run_app r idx a b :
    run r idx (a ++ b) =
      match run r idx a with
      | Ok (r', f) => match run r' idx b with Ok (r'', g) => Ok (r'', f ++ g) | Err e => Err e end
      | Err e => Err e
      end.
  Proof.
    revert r. induction a as [|[] a IH]; intros r; simpl.
    - by destruct (run r idx b) as [[]|].
    - destruct (clone r idx); [apply IH|done].
    - destruct (drop r idx) as [[r' fin]|]; [|done]. rewrite IH.
      destruct (run r' idx a) as [[r'' f]|]; [|done].
      destruct (run r'' idx b) as [[]|]; [by rewrite app_assoc|done].
  Qed.

  (** While the count stays positive no value is finalized, the slot
      holds the running count, and no other slot is touched. *)
Lemma run_alive r idx w n ops :
    slots r !! idx = Some (Some (mk_slot w n)) -> alive n ops ->
    exists r', run r idx ops = Ok (r', []) /\
      slots r' !! idx = Some (Some (mk_slot w (count_after n ops))) /\
      forall j, j <> idx -> slots r' !! j = slots r !! j.
  Proof.
    revert r n. induction ops as [|[] ops IH]; intros r n Hl Hal; simpl in *.
    - by exists r.
    - destruct Hal as [Hn Hal]. rewrite (clone_live _ _ _ _ Hl Hn).
      destruct (IH (mk_rslab (<[idx := Some (mk_slot w (n + 1))]> (slots r))) (n + 1)
        (lookup_update _ _ _ _ Hl) Hal) as (r' & Hr & Hl' & Ho).
      exists r'. split_and!; [done|done|]. intros j Hj. rewrite Ho by done. simpl.
      by rewrite list_lookup_insert_ne.
    - destruct Hal as [Hn Hal]. rewrite (drop_shared _ _ _ _ Hl Hn).
      destruct (IH (mk_rslab (<[idx := Some (mk_slot w (n - 1))]> (slots r))) (n - 1)
        (lookup_update _ _ _ _ Hl) Hal) as (r' & Hr & Hl' & Ho).
      rewrite Hr. exists r'. split_and!; [done|done|]. intros j Hj. rewrite Ho by done. simpl.
      by rewrite list_lookup_insert_ne.
  Qed.

Lemma run_freed r idx ops :
    slots r !! idx = Some None -> ops <> [] -> run r idx ops = Err InvalidSlot.
  Proof.
    intros H. destruct ops as [|[] ops]; [done| |]; intros _; simpl.
    - unfold clone. by rewrite H.
    - unfold drop. by rewrite H.
  Qed.

Lemma insert_keeps_wf r w : wf r -> wf (insert r w).1.
  Proof.
    intros Hwf idx sl. simpl. destruct (decide (idx < length (slots r))%nat).
    - rewrite lookup_app_l by done. apply Hwf.
    - rewrite lookup_app_r by lia. destruct (idx - length (slots r))%nat; simpl.
      + intros. simplify_eq/=. lia.
      + by rewrite lookup_nil.
  Qed.

Lemma update_wf r idx x :
    wf r -> (forall sl, x = Some sl -> 1 <= refcnt sl < 2 ^ 32) ->
    wf (mk_rslab (<[idx := x]> (slots r))).
  Proof.
    intros Hwf Hx j sl. simpl. destruct (decide (j = idx)) as [->|].
    - destruct (decide (idx < length (slots r))%nat).
      + rewrite list_lookup_insert_eq by done. intros [= ->]. by apply Hx.
      + rewrite list_insert_ge by lia. apply Hwf.
    - rewrite list_lookup_insert_ne by done. apply Hwf.
  Qed.

Lemma clone_wf r idx r' : wf r -> clone r idx = Ok r' -> wf r'.
  Proof.
    unfold clone. destruct (slots r !! idx) as [[[w n]|]|] eqn:E; try discriminate.
    simpl. destruct (Z.ltb_spec (n + 1) (2 ^ 32)); intros Hwf ?; simplify_eq.
    apply update_wf; [done|]. intros sl [= <-]. simpl.
    pose proof (Hwf _ _ E). simpl in *. lia.
  Qed.

Lemma drop_wf r idx r' fin : wf r -> drop r idx = Ok (r', fin) -> wf r'.
  Proof.
    unfold drop. destruct (slots r !! idx) as [[[w n]|]|] eqn:E; try discriminate.
    simpl. intros Hwf. pose proof (Hwf _ _ E) as Hn. simpl in Hn.
    destruct (Z.eqb_spec n 1); intros; simplify_eq; apply update_wf; try done.
    intros sl [= <-]. simpl. lia.
  Qed.
End Lemmas.

#[export] Hint Resolve insert_keeps_wf clone_wf drop_wf : bridge.

(** ** Reachable slabs: the operations as a step relation. *)
Inductive rstep : rslab -> rslab -> Prop :=
  | step_insert r w : rstep r (insert r w).1
  | step_clone r idx r' : clone r idx = Ok r' -> rstep r r'
  | step_drop r idx r' fin : drop r idx = Ok (r', fin) -> rstep r r'.

Inductive reachable : rslab -> Prop :=
  | reach_empty : reachable empty
  | reach_step r r' : reachable r -> rstep r r' -> reachable r'.

(** Every slab reachable from [Default::default()] by inserts,
    clones and drops keeps every live count in [1, 2^32): a live slot
    is never observed at count 0. *)
Lemma reachable_wf r : reachable r -> wf r.
Proof.
  induction 1 as [|r r' _ IH Hs].
  - intros idx sl H. simpl in H. by rewrite lookup_nil in H.
  - destruct Hs; eauto with bridge.
Qed.


(** Take a slot holding [w] with count [n], and any sequence [pre]
    of clones and drops (from any number of call paths, interleaved in
    any order) after which one reference is left.  Then no value is
    finalized during [pre]; the final drop hands [w] to the finalizer
    exactly once; and every later clone or drop of the freed slot fails
    with [InvalidSlot]. *)
Lemma finalized_exactly_once r idx w n pre :
  slots r !! idx = Some (Some (mk_slot w n)) ->
  alive n pre -> count_after n pre = 1 ->
  exists r', run r idx (pre ++ [OpDrop]) = Ok (r', [w]) /\
    forall ops, ops <> [] -> run r' idx ops = Err InvalidSlot.
Proof.
  intros Hl Hal Hc.
  destruct (run_alive r idx w n pre Hl Hal) as (r1 & Hr1 & Hl1 & _).
  rewrite Hc in Hl1. rewrite run_app, Hr1. simpl. rewrite (drop_last _ _ _ Hl1).
  eexists; split; [reflexivity|]. intros ops Hops. apply run_freed; [|done].
  simpl. by eapply lookup_update.
Qed.


(** ** The abstract view: each live resource with its value and count *)
Definition slot_view (o : option slot) : option (Z * Z) :=
  match o with Some sl => Some (wasm sl, refcnt sl) | None => None end.

Definition to_map (r : rslab) : gmap nat (Z * Z) := omap slot_view (map_seq 0 (slots r)).

Lemma view_lookup r idx : to_map r !! idx = slots r !! idx ≫= slot_view.
Proof. unfold to_map. by rewrite lookup_omap, lookup_map_seq_0. Qed.

  (** Writing one slot changes the view at that index only. *)
Lemma update_view r idx x :
  (idx < length (slots r))%nat ->
  to_map (mk_rslab (<[idx := x]> (slots r))) = partial_alter (fun _ => slot_view x) idx (to_map r).
Proof.
  intros Hlt. apply map_eq. intros i. rewrite view_lookup. simpl.
  destruct (decide (i = idx)) as [->|Hne].
  - by rewrite list_lookup_insert_eq, lookup_partial_alter_eq.
  - by rewrite list_lookup_insert_ne, lookup_partial_alter_ne, view_lookup.
Qed.

  (** [insert] adds a resource at an index no live resource had. *)
Lemma insert_fresh_view r w :
  to_map (insert r w).1 = <[length (slots r) := (w, 1)]> (to_map r) /\
  to_map r !! length (slots r) = None.
Proof.
  split.
  - apply map_eq. intros i. rewrite !view_lookup. simpl.
    destruct (decide (i = length (slots r))) as [->|Hne].
    + by rewrite lookup_app_r, Nat.sub_diag, lookup_insert_eq by lia.
    + rewrite lookup_insert_ne by done. rewrite view_lookup.
      destruct (decide (i < length (slots r))%nat).
      * by rewrite lookup_app_l.
      * rewrite lookup_app_r, (lookup_ge_None_2 (slots r)) by lia.
        destruct (i - length (slots r))%nat eqn:?; [lia|done].
  - by rewrite view_lookup, lookup_ge_None_2.
Qed.

End ResourceSlab.
