(* ===== verification/Memory.v ===== *)
(** * Memory: the guest's linear memory and the copies across it

    The marshaling primitives the bindings call on the guest's exported
    [memory]: [RawMem::store_many] (host writes, src/host/bindings.rs
    lines 175-177, 181, 215, 248), [BorrowChecker::slice] and
    [BorrowChecker::slice_str] (host reads, lines 359-362, 387, 413,
    434), and [String::from_utf8] (guest reads, src/guest/bindings.rs
    line 216).  They live in [wit_bindgen_wasmtime::rt] and [std], not
    in src/: they follow the MemoryMarshaler contract of the spec
    (section 4.3): every access is bounds checked against the current
    memory size without wrapping, and strings are checked to be
    well-formed UTF-8 (Unicode, Table 3-7) before use.

    Memory is a list of bytes; addresses and lengths arrive as wasm
    [i32] values and are read as [u32]. *)

From S2P Require Import Prelude.

Module Memory.

Abbreviation byte := Byte.byte.

Definition bval (b : byte) : Z := Z.of_N (Byte.to_N b).

(** [RawMem::store_many(offset, vals)]: [get_mut(offset as u32 as usize..)]
    then [get_mut(..len)]; either failing is "out of bounds write". *)
Definition store_many (mem : list byte) (offset : Z) (vals : list byte) : result (list byte) :=
  let off := Z.to_nat (as_u32 offset) in
  if decide (off + length vals <= length mem)%nat
  then Ok (take off mem ++ vals ++ drop (off + length vals) mem)
  else Err OutOfBounds.

(** [BorrowChecker::slice(ptr, len)]: the region [ptr as u32, len as u32];
    its end is a [checked_add] on [u32] and must not pass the memory size. *)
Definition slice (mem : list byte) (ptr len : Z) : result (list byte) :=
  let start := as_u32 ptr in
  let l := as_u32 len in
  if (start + l <? 2 ^ 32) && (start + l <=? Z.of_nat (length mem))
  then Ok (take (Z.to_nat l) (drop (Z.to_nat start) mem))
  else Err OutOfBounds.

(** ** UTF-8 (Unicode Table 3-7, as [core::str::from_utf8] checks it) *)
Definition in_range (x lo hi : Z) : bool := (lo <=? x) && (x <=? hi).

Definition cont (b : byte) : Z := Z.land (bval b) 0x3F.

(** Decode to scalar values; [None] on the first ill-formed sequence. *)
Fixpoint utf8_decode (bs : list byte) : option (list Z) :=
  match bs with
  | [] => Some []
  | b0 :: r0 =>
      let x := bval b0 in
      if x <? 0x80 then cons x <$> utf8_decode r0
      else if in_range x 0xC2 0xDF then
        match r0 with
        | b1 :: r1 =>
            if in_range (bval b1) 0x80 0xBF
            then cons (Z.lor (Z.shiftl (Z.land x 0x1F) 6) (cont b1)) <$> utf8_decode r1
            else None
        | [] => None
        end
      else if in_range x 0xE0 0xEF then
        match r0 with
        | b1 :: b2 :: r2 =>
            let lo := if x =? 0xE0 then 0xA0 else 0x80 in
            let hi := if x =? 0xED then 0x9F else 0xBF in
            if in_range (bval b1) lo hi && in_range (bval b2) 0x80 0xBF
            then cons (Z.lor (Z.shiftl (Z.land x 0x0F) 12)
                        (Z.lor (Z.shiftl (cont b1) 6) (cont b2))) <$> utf8_decode r2
            else None
        | _ => None
        end
      else if in_range x 0xF0 0xF4 then
        match r0 with
        | b1 :: b2 :: b3 :: r3 =>
            let lo := if x =? 0xF0 then 0x90 else 0x80 in
            let hi := if x =? 0xF4 then 0x8F else 0xBF in
            if in_range (bval b1) lo hi && in_range (bval b2) 0x80 0xBF &&
               in_range (bval b3) 0x80 0xBF
            then cons (Z.lor (Z.shiftl (Z.land x 0x07) 18)
                        (Z.lor (Z.shiftl (cont b1) 12)
                          (Z.lor (Z.shiftl (cont b2) 6) (cont b3)))) <$> utf8_decode r3
            else None
        | _ => None
        end
      else None
  end.

Definition valid_utf8 (bs : list byte) : bool :=
  match utf8_decode bs with Some _ => true | None => false end.

(** [std::str::from_utf8]: a [&str] is its bytes, checked. *)
Definition from_utf8 (bs : list byte) : result (list byte) :=
  if valid_utf8 bs then Ok bs else Err InvalidUtf8.

(** [BorrowChecker::slice_str(ptr, len)]. *)
Definition slice_str (mem : list byte) (ptr len : Z) : result (list byte) :=
  result_bind (slice mem ptr len) from_utf8.

(** ** Lemmas *)
Section Lemmas.
Implicit Types (mem vals bs : list byte).

Lemma store_many_ok mem offset vals :
    (Z.to_nat (as_u32 offset) + length vals <= length mem)%nat ->
    store_many mem offset vals =
      Ok (take (Z.to_nat (as_u32 offset)) mem ++ vals ++
          drop (Z.to_nat (as_u32 offset) + length vals) mem).
  Proof. intros H. unfold store_many. by rewrite decide_True. Qed.

Lemma store_many_oob mem offset vals :
    (length mem < Z.to_nat (as_u32 offset) + length vals)%nat ->
    store_many mem offset vals = Err OutOfBounds.
  Proof. intros H. unfold store_many. rewrite decide_False; [done|lia]. Qed.

Lemma store_many_inv mem offset vals mem' :
    store_many mem offset vals = Ok mem' ->
    (Z.to_nat (as_u32 offset) + length vals <= length mem)%nat /\
    mem' = take (Z.to_nat (as_u32 offset)) mem ++ vals ++
           drop (Z.to_nat (as_u32 offset) + length vals) mem.
  Proof. unfold store_many. case_decide; intros; simplify_eq; auto. Qed.

Lemma store_many_length mem offset vals mem' :
    store_many mem offset vals = Ok mem' -> length mem' = length mem.
  Proof.
    intros [Hle ->]%store_many_inv. rewrite !length_app, length_take, length_drop. lia.
  Qed.

Lemma slice_ok mem ptr len :
    as_u32 ptr + as_u32 len <= Z.of_nat (length mem) -> Z.of_nat (length mem) < 2 ^ 32 ->
    slice mem ptr len = Ok (take (Z.to_nat (as_u32 len)) (drop (Z.to_nat (as_u32 ptr)) mem)).
  Proof.
    intros H1 H2. unfold slice.
    destruct (Z.ltb_spec (as_u32 ptr + as_u32 len) (2 ^ 32)); [|lia].
    destruct (Z.leb_spec (as_u32 ptr + as_u32 len) (Z.of_nat (length mem))); [done|lia].
  Qed.

  (** The guest's [i32] pointer and length name the same region. *)
Lemma slice_as_i32 mem ptr len : slice mem (as_i32 ptr) (as_i32 len) = slice mem ptr len.
  Proof. unfold slice. by rewrite !as_u32_as_i32_bits. Qed.

Lemma slice_oob mem ptr len :
    Z.of_nat (length mem) < as_u32 ptr + as_u32 len -> slice mem ptr len = Err OutOfBounds.
  Proof.
    intros H. unfold slice.
    destruct (Z.leb_spec (as_u32 ptr + as_u32 len) (Z.of_nat (length mem))); [lia|].
    by rewrite andb_false_r.
  Qed.

  (** Writing [vals] and reading the same range back gives [vals]. *)
Lemma slice_store_many mem offset vals mem' :
    store_many mem offset vals = Ok mem' -> Z.of_nat (length mem) < 2 ^ 32 ->
    slice mem' offset (Z.of_nat (length vals)) = Ok vals.
  Proof.
    intros Hs Hlen. pose proof (store_many_length _ _ _ _ Hs) as Hl.
    apply store_many_inv in Hs as [Hle ->].
    pose proof (as_u32_range offset) as Hr. unfold is_u32 in Hr.
    assert (Hn : as_u32 (Z.of_nat (length vals)) = Z.of_nat (length vals))
      by (apply as_u32_id; unfold is_u32; lia).
    rewrite slice_ok, Hn, Nat2Z.id; [|rewrite Hn, Hl; lia|rewrite Hl; lia].
    rewrite drop_app_length' by (rewrite length_take_le; lia).
    by rewrite take_app_length.
  Qed.

Lemma slice_str_inv mem ptr len s :
    slice_str mem ptr len = Ok s -> slice mem ptr len = Ok s /\ valid_utf8 s = true.
  Proof.
    unfold slice_str, from_utf8. destruct (slice mem ptr len) as [bs|]; simpl; [|done].
    destruct (valid_utf8 bs) eqn:E; intros; simplify_eq; auto.
  Qed.

Lemma slice_str_of_slice mem ptr len bs :
    slice mem ptr len = Ok bs -> slice_str mem ptr len = from_utf8 bs.
  Proof. unfold slice_str. by intros ->. Qed.
End Lemmas.

End Memory.
