(* ===== verification/Utf8.v ===== *)
(** * Utf8: what the UTF-8 check of [from_utf8] accepts

    [Memory.utf8_decode] is the check of [core::str::from_utf8] as
    Unicode's Table 3-7 states it: byte ranges, first byte by first
    byte.  The reference it must agree with is the encoding itself
    (Unicode, Table 3-6): a scalar value (a code point that is not a
    surrogate) is written in one to four bytes, its bits spread over
    them.  This file writes that encoder ([encode]) and proves that the
    check accepts exactly the encodings of scalar values, returning the
    values encoded: [decode_encode] and [encode_decode], hence
    [valid_utf8_iff].  The bit operations of the decoder ([Z.land],
    [Z.shiftl], [Z.lor]) are turned into arithmetic once, by
    [land_mask] and [lor_shiftl], and [lia] does the rest. *)

From S2P Require Import Prelude Memory.

Module Utf8.
Import Memory.

(** A Unicode scalar value: a code point that is not a surrogate. *)
Definition scalar (c : Z) : Prop := (0 <= c < 0xD800) \/ (0xDFFF < c <= 0x10FFFF).

#[export] Instance scalar_dec c : Decision (scalar c).
Proof. unfold scalar. apply _. Defined.

(** The byte whose value is [z] ([z] in [0, 255]). *)
Definition byte_of (z : Z) : byte :=
  match Byte.of_N (Z.to_N z) with Some b => b | None => Byte.x00 end.

(** Table 3-6: the bytes of one scalar value. *)
Definition encode_char (c : Z) : list byte :=
  if c <? 0x80 then [byte_of c]
  else if c <? 0x800 then [byte_of (0xC0 + c / 64); byte_of (0x80 + c mod 64)]
  else if c <? 0x10000 then
    [byte_of (0xE0 + c / 4096); byte_of (0x80 + c / 64 mod 64); byte_of (0x80 + c mod 64)]
  else [byte_of (0xF0 + c / 262144); byte_of (0x80 + c / 4096 mod 64);
        byte_of (0x80 + c / 64 mod 64); byte_of (0x80 + c mod 64)].

Definition encode (cs : list Z) : list byte := concat (map encode_char cs).

#[local] Arguments byte_of : simpl never.
#[local] Arguments bval : simpl never.

(** ** Bytes as integers *)

Lemma bval_range b : 0 <= bval b < 256.
Proof. unfold bval. pose proof (Byte.to_N_bounded b). lia. Qed.

Lemma bval_byte_of z : 0 <= z < 256 -> bval (byte_of z) = z.
Proof.
  intros Hz. unfold byte_of, bval.
  destruct (Byte.of_N (Z.to_N z)) as [b|] eqn:E.
  - apply Byte.to_of_N in E. rewrite E. lia.
  - apply Byte.of_N_None_iff in E. lia.
Qed.

Lemma byte_of_bval z b : z = bval b -> byte_of z = b.
Proof.
  intros ->. unfold byte_of, bval. rewrite N2Z.id. by rewrite Byte.of_to_N.
Qed.

(** ** The decoder's bit operations as arithmetic *)

(** Powers of two with a literal exponent, as the literals [lia] reads. *)
Ltac pow_consts :=
  repeat match goal with
  | |- context [2 ^ ?n] =>
      let v := eval vm_compute in (2 ^ n) in change (2 ^ n) with v
  end.

(** [x & (2^n - 1)], the low [n] bits. *)
Lemma land_mask x n m : 0 <= n -> m = Z.ones n -> Z.land x m = x mod 2 ^ n.
Proof. intros Hn ->. by rewrite Z.land_ones. Qed.

Lemma lor_shiftl a b n :
  0 <= a -> 0 <= n -> 0 <= b < 2 ^ n -> Z.lor (Z.shiftl a n) b = a * 2 ^ n + b.
Proof.
  intros Ha Hn Hb. rewrite Z.shiftl_mul_pow2 by lia.
  assert (Hd : Z.land (a * 2 ^ n) b = 0).
  { apply Z.bits_inj_0. intros i. rewrite Z.land_spec.
    destruct (Z.lt_ge_cases i 0); [by rewrite Z.testbit_neg_r|].
    destruct (Z.lt_ge_cases i n).
    - by rewrite Z.mul_pow2_bits_low.
    - rewrite <- (Z.mod_small b (2 ^ n)) by lia. rewrite Z.mod_pow2_bits_high by lia.
      apply andb_false_r. }
  rewrite <- Z.lxor_lor, <- Z.add_nocarry_lxor; done.
Qed.

Lemma cont_mod b : cont b = bval b mod 64.
Proof. unfold cont. exact (land_mask (bval b) 6 0x3F ltac:(lia) eq_refl). Qed.

(** Every bit expression of the decoder, as the number it denotes. *)
Lemma decode2 x b1 :
  Z.lor (Z.shiftl (Z.land x 0x1F) 6) (cont b1) = x mod 32 * 64 + bval b1 mod 64.
Proof.
  rewrite cont_mod, (land_mask x 5 0x1F ltac:(lia) eq_refl).
  apply (lor_shiftl _ _ 6); [apply Z.mod_pos_bound; lia|lia|apply Z.mod_pos_bound; lia].
Qed.

Lemma decode3 x b1 b2 :
  Z.lor (Z.shiftl (Z.land x 0x0F) 12) (Z.lor (Z.shiftl (cont b1) 6) (cont b2)) =
    x mod 16 * 4096 + bval b1 mod 64 * 64 + bval b2 mod 64.
Proof.
  rewrite !cont_mod, (land_mask x 4 0x0F ltac:(lia) eq_refl).
  pose proof (Z.mod_pos_bound (bval b1) 64). pose proof (Z.mod_pos_bound (bval b2) 64).
  rewrite (lor_shiftl _ _ 6), (lor_shiftl _ _ 12); pow_consts; try lia.
  apply Z.mod_pos_bound; lia.
Qed.

Lemma decode4 x b1 b2 b3 :
  Z.lor (Z.shiftl (Z.land x 0x07) 18)
    (Z.lor (Z.shiftl (cont b1) 12) (Z.lor (Z.shiftl (cont b2) 6) (cont b3))) =
    x mod 8 * 262144 + bval b1 mod 64 * 4096 + bval b2 mod 64 * 64 + bval b3 mod 64.
Proof.
  rewrite !cont_mod, (land_mask x 3 0x07 ltac:(lia) eq_refl).
  pose proof (Z.mod_pos_bound (bval b1) 64). pose proof (Z.mod_pos_bound (bval b2) 64).
  pose proof (Z.mod_pos_bound (bval b3) 64).
  rewrite (lor_shiftl _ _ 6), (lor_shiftl _ _ 12), (lor_shiftl _ _ 18); pow_consts; try lia.
  apply Z.mod_pos_bound; lia.
Qed.

(** ** Deciding the decoder's byte-range tests

    The decoder's tests compare integers with literals; [zb] takes each
    test, in the goal or a hypothesis, as the fact it states, and drops
    the cases [lia] refutes. *)
(** [lia] with the divisions and remainders by literals spelled out. *)
Ltac zlia := Z.div_mod_to_equations; lia.

Ltac zb :=
  repeat first
    [ progress unfold in_range in *
    | progress cbn [andb] in *
    | match goal with
      | |- context [?a <? ?b] => destruct (Z.ltb_spec a b); try (exfalso; zlia)
      | |- context [?a <=? ?b] => destruct (Z.leb_spec a b); try (exfalso; zlia)
      | |- context [?a =? ?b] => destruct (Z.eqb_spec a b); try (exfalso; zlia)
      | H : context [?a <? ?b] |- _ => destruct (Z.ltb_spec a b); try (exfalso; zlia)
      | H : context [?a <=? ?b] |- _ => destruct (Z.leb_spec a b); try (exfalso; zlia)
      | H : context [?a =? ?b] |- _ => destruct (Z.eqb_spec a b); try (exfalso; zlia)
      end ].

(** The byte of a value in range, as a value. *)
Ltac byte_vals := rewrite ?bval_byte_of by (zb; zlia).

(** ** One step of the decoder, branch by branch

    The tail after the sequence is kept abstract ([remember]), so that
    unfolding [utf8_decode] unfolds its first step only. *)

(** The second byte's range after a three- or four-byte lead
    (Table 3-7: [E0] is followed by [A0..BF], [ED] by [80..9F], [F0] by
    [90..BF], [F4] by [80..8F]). *)
Definition lo3 (x : Z) : Z := if x =? 0xE0 then 0xA0 else 0x80.
Definition hi3 (x : Z) : Z := if x =? 0xED then 0x9F else 0xBF.
Definition lo4 (x : Z) : Z := if x =? 0xF0 then 0x90 else 0x80.
Definition hi4 (x : Z) : Z := if x =? 0xF4 then 0x8F else 0xBF.

Lemma decode_1 b0 r :
  bval b0 < 0x80 -> utf8_decode (b0 :: r) = cons (bval b0) <$> utf8_decode r.
Proof. intros. cbn [utf8_decode]. by zb. Qed.

Lemma decode_2 b0 b1 r :
  0xC2 <= bval b0 <= 0xDF -> 0x80 <= bval b1 <= 0xBF ->
  utf8_decode (b0 :: b1 :: r) = cons (bval b0 mod 32 * 64 + bval b1 mod 64) <$> utf8_decode r.
Proof.
  intros. remember (b1 :: r) as r0 eqn:E. cbn [utf8_decode]. zb. subst r0. zb.
  by rewrite decode2.
Qed.

Lemma decode_3 b0 b1 b2 r :
  0xE0 <= bval b0 <= 0xEF -> lo3 (bval b0) <= bval b1 <= hi3 (bval b0) ->
  0x80 <= bval b2 <= 0xBF ->
  utf8_decode (b0 :: b1 :: b2 :: r) =
    cons (bval b0 mod 16 * 4096 + bval b1 mod 64 * 64 + bval b2 mod 64) <$> utf8_decode r.
Proof.
  unfold lo3, hi3. intros. remember (b1 :: b2 :: r) as r0 eqn:E. cbn [utf8_decode]. zb.
  all: subst r0; zb; by rewrite decode3.
Qed.

Lemma decode_4 b0 b1 b2 b3 r :
  0xF0 <= bval b0 <= 0xF4 -> lo4 (bval b0) <= bval b1 <= hi4 (bval b0) ->
  0x80 <= bval b2 <= 0xBF -> 0x80 <= bval b3 <= 0xBF ->
  utf8_decode (b0 :: b1 :: b2 :: b3 :: r) =
    cons (bval b0 mod 8 * 262144 + bval b1 mod 64 * 4096 + bval b2 mod 64 * 64 +
          bval b3 mod 64) <$> utf8_decode r.
Proof.
  unfold lo4, hi4. intros. remember (b1 :: b2 :: b3 :: r) as r0 eqn:E. cbn [utf8_decode]. zb.
  all: subst r0; zb; by rewrite decode4.
Qed.

(** ** Decoding an encoding *)

Lemma encode_cons c cs : encode (c :: cs) = encode_char c ++ encode cs.
Proof. reflexivity. Qed.

Lemma decode_char c r :
  scalar c -> utf8_decode (encode_char c ++ r) = cons c <$> utf8_decode r.
Proof.
  unfold scalar, encode_char, lo3, hi3, lo4, hi4. intros Hc.
  destruct (Z.ltb_spec c 0x80); [|destruct (Z.ltb_spec c 0x800);
    [|destruct (Z.ltb_spec c 0x10000)]]; cbn [app].
  - rewrite decode_1; byte_vals; [done|lia].
  - rewrite decode_2; byte_vals; [do 2 f_equal|..]; zlia.
  - rewrite decode_3; byte_vals; [do 2 f_equal|..]; unfold lo3, hi3; zb; zlia.
  - rewrite decode_4; byte_vals; [do 2 f_equal|..]; unfold lo4, hi4; zb; zlia.
Qed.

(** The decoder reads back every sequence of scalar values it is given
    the encoding of. *)
Lemma decode_encode cs : Forall scalar cs -> utf8_decode (encode cs) = Some cs.
Proof.
  induction 1 as [|c cs Hc _ IH]; [done|].
  by rewrite encode_cons, decode_char, IH.
Qed.

(** ** Encoding what was decoded

    A sequence the decoder accepts, branch by branch, is the encoding
    of the scalar value it yields. *)

Ltac byte_ranges :=
  repeat match goal with
  | b : byte |- _ =>
      match goal with _ : 0 <= bval b < 256 |- _ => fail 1 | _ => pose proof (bval_range b) end
  end.

Ltac bytes_back := repeat f_equal; apply byte_of_bval; zlia.

Lemma encode_1 b0 : bval b0 < 0x80 -> scalar (bval b0) /\ encode_char (bval b0) = [b0].
Proof.
  unfold scalar, encode_char. intros. byte_ranges. split; [lia|]. zb. bytes_back.
Qed.

Lemma encode_2 b0 b1 :
  0xC2 <= bval b0 <= 0xDF -> 0x80 <= bval b1 <= 0xBF ->
  let c := bval b0 mod 32 * 64 + bval b1 mod 64 in scalar c /\ encode_char c = [b0; b1].
Proof. unfold scalar, encode_char. intros. split; [zlia|]. zb. bytes_back. Qed.

Lemma encode_3 b0 b1 b2 :
  0xE0 <= bval b0 <= 0xEF -> lo3 (bval b0) <= bval b1 <= hi3 (bval b0) ->
  0x80 <= bval b2 <= 0xBF ->
  let c := bval b0 mod 16 * 4096 + bval b1 mod 64 * 64 + bval b2 mod 64 in
  scalar c /\ encode_char c = [b0; b1; b2].
Proof.
  unfold scalar, encode_char, lo3, hi3. intros. zb; (split; [zlia|]); zb; bytes_back.
Qed.

Lemma encode_4 b0 b1 b2 b3 :
  0xF0 <= bval b0 <= 0xF4 -> lo4 (bval b0) <= bval b1 <= hi4 (bval b0) ->
  0x80 <= bval b2 <= 0xBF -> 0x80 <= bval b3 <= 0xBF ->
  let c := bval b0 mod 8 * 262144 + bval b1 mod 64 * 4096 + bval b2 mod 64 * 64 +
           bval b3 mod 64 in
  scalar c /\ encode_char c = [b0; b1; b2; b3].
Proof.
  unfold scalar, encode_char, lo4, hi4. intros. zb; (split; [zlia|]); zb; bytes_back.
Qed.

(** What the decoder accepts at the head of a list: the encoding of one
    scalar value, followed by what it accepts. *)
Lemma decode_inv b0 r0 cs :
  utf8_decode (b0 :: r0) = Some cs ->
  exists c bs1 r l, scalar c /\ encode_char c = b0 :: bs1 /\ r0 = bs1 ++ r /\
    utf8_decode r = Some l /\ cs = c :: l.
Proof.
  intros H. cbn [utf8_decode] in H. zb.
  all: first
    [ discriminate H
    | destruct (encode_1 b0) as [Hs He]; [lia|];
      destruct (utf8_decode r0) as [l|] eqn:E; [|done]; injection H as <-;
      by exists (bval b0), [], r0, l
    | destruct r0 as [|b1 r1]; cbn -[utf8_decode bval] in H; try discriminate; zb;
      try discriminate; rewrite decode2 in H;
      destruct (encode_2 b0 b1) as [Hs He]; [lia..|];
      destruct (utf8_decode r1) as [l|] eqn:E; [|done]; injection H as <-;
      by eexists _, [b1], r1, l
    | destruct r0 as [|b1 [|b2 r2]]; cbn -[utf8_decode bval] in H; try discriminate; zb;
      try discriminate; rewrite decode3 in H;
      destruct (encode_3 b0 b1 b2) as [Hs He]; [lia|unfold lo3, hi3; zb; lia|lia|];
      destruct (utf8_decode r2) as [l|] eqn:E; [|done]; injection H as <-;
      by eexists _, [b1; b2], r2, l
    | destruct r0 as [|b1 [|b2 [|b3 r3]]]; cbn -[utf8_decode bval] in H; try discriminate; zb;
      try discriminate; rewrite decode4 in H;
      destruct (encode_4 b0 b1 b2 b3) as [Hs He]; [lia|unfold lo4, hi4; zb; lia|lia|lia|];
      destruct (utf8_decode r3) as [l|] eqn:E; [|done]; injection H as <-;
      by eexists _, [b1; b2; b3], r3, l ].
Qed.

(** What the decoder accepts is the encoding of the scalar values it
    returns. *)
Lemma encode_decode bs cs : utf8_decode bs = Some cs -> Forall scalar cs /\ encode cs = bs.
Proof.
  remember (length bs) as n eqn:En. revert bs cs En.
  induction n as [n IH] using lt_wf_ind. intros [|b0 r0] cs En H.
  - injection H as <-. done.
  - destruct (decode_inv _ _ _ H) as (c & bs1 & r & l & Hs & He & -> & Hr & ->).
    destruct (IH (length r) ltac:(subst n; cbn [length]; rewrite length_app; lia) r l eq_refl Hr)
      as [Hl Er].
    split; [by constructor|]. by rewrite encode_cons, He, Er.
Qed.

(** [std::str::from_utf8] accepts exactly the encodings of sequences of
    scalar values. *)
Lemma valid_utf8_iff bs :
  valid_utf8 bs = true <-> exists cs, Forall scalar cs /\ encode cs = bs.
Proof.
  unfold valid_utf8. split.
  - destruct (utf8_decode bs) as [cs|] eqn:E; [|done]. intros _.
    exists cs. by apply encode_decode.
  - intros (cs & Hs & <-). by rewrite decode_encode.
Qed.

End Utf8.
