(* ===== verification/Store.v ===== *)
(** * Store: the state one wasmtime store carries for one guest instance

    [WapcGuestData] (src/host/bindings.rs, lines 13-18) is the host's
    bookkeeping for resources the guest owns; [WapcHostTables]
    (lines 311-320) the table of host resources the guest holds handles
    to; the guest's exported linear memory; the embedder's own state [U]
    (the [WapcHost] implementation, lines 289-309); and the guest's
    internal state [G], which only guest code touches.  In the source
    the first three are reached from the store's data [T] through the
    [get_state] and [get] closures; here they are fields of one record.

    The operations of the resource tables are lifted to the store monad
    [St] of the prelude with [on_data]. *)

From S2P Require Import Prelude Slab ResourceSlab Memory.

(** [WapcGuestData]: [index_slab0] maps guest handles to resource
    indices, [resource_slab0] holds the refcounted resources, and
    [dtor0] records whether the destructor export
    [canonical_abi_drop_wapc] has been looked up by [WapcGuest::new]. *)
Record WapcGuestData := mk_guest_data {
  index_slab0 : Slab.slab nat;
  resource_slab0 : ResourceSlab.rslab;
  dtor0 : option unit;
}.

(** [#[derive(Default)]]. *)
Definition WapcGuestData_default : WapcGuestData :=
  mk_guest_data Slab.empty ResourceSlab.empty None.

(** [WapcHostTables<T>] with its [Default]: one [Table<T::Wapc>]. *)
Record WapcHostTables (W : Type) := mk_host_tables { wapc_table : Slab.slab W }.
Arguments mk_host_tables {W} wapc_table.
Arguments wapc_table {W} _.

Definition WapcHostTables_default {W} : WapcHostTables W := mk_host_tables Slab.empty.

Record store (U W G : Type) := mk_store {
  guest_data : WapcGuestData;
  host : U;
  tables : WapcHostTables W;
  memory : list Memory.byte;
  guest : G;
}.
Arguments mk_store {U W G} guest_data host tables memory guest.
Arguments guest_data {U W G} s.
Arguments host {U W G} s.
Arguments tables {U W G} s.
Arguments memory {U W G} s.
Arguments guest {U W G} s.

Section Access.
Context {U W G : Type}.
Implicit Types (s : store U W G).

Definition set_guest_data (d : WapcGuestData) s : store U W G := mk_store d (host s) (tables s) (memory s) (guest s).
Definition set_host (u : U) s : store U W G := mk_store (guest_data s) u (tables s) (memory s) (guest s).
Definition set_tables (t : WapcHostTables W) s : store U W G := mk_store (guest_data s) (host s) t (memory s) (guest s).
Definition set_memory (m : list Memory.byte) s : store U W G := mk_store (guest_data s) (host s) (tables s) m (guest s).
Definition set_guest (g : G) s : store U W G := mk_store (guest_data s) (host s) (tables s) (memory s) g.

  (** Run a pure operation on [WapcGuestData] against the store. *)
Definition on_data {A} (f : WapcGuestData -> WapcGuestData * result A) : St (store U W G) A :=
    fun s => let '(d', r) := f (guest_data s) in (set_guest_data d' s, r).

  (** [memory.data_mut(&mut caller).store_many(ptr, bytes)?]. *)
Definition store_bytes (ptr : Z) (bytes : list Memory.byte) : St (store U W G) unit :=
    fun s => match Memory.store_many (memory s) ptr bytes with
             | Ok m => (set_memory m s, Ok tt)
             | Err e => (s, Err e)
             end.
End Access.

(** ** The table operations on [WapcGuestData] *)
Section DataOps.
Implicit Types (d : WapcGuestData).

Definition with_index d ix := mk_guest_data ix (resource_slab0 d) (dtor0 d).
Definition with_resources d rs := mk_guest_data (index_slab0 d) rs (dtor0 d).

  (** [index_slab0.get(idx)?]: "invalid index specified for handle". *)
Definition index_get (idx : nat) d : WapcGuestData * result nat :=
    (d, ok_or (Slab.get (index_slab0 d) idx) InvalidHandle).

  (** [index_slab0.insert(resource_idx)], a [u32] handle. *)
Definition index_insert (ridx : nat) d : WapcGuestData * result nat :=
    match Slab.insert (index_slab0 d) ridx with
    | Ok (ix, h) => (with_index d ix, Ok h)
    | Err e => (d, Err e)
    end.

  (** [index_slab0.remove(idx)?]. *)
Definition index_remove (idx : nat) d : WapcGuestData * result nat :=
    match Slab.remove (index_slab0 d) idx with
    | Some (ix, ridx) => (with_index d ix, Ok ridx)
    | None => (d, Err InvalidHandle)
    end.

Definition res_insert (val : Z) d : WapcGuestData * result nat :=
    let '(rs, ridx) := ResourceSlab.insert (resource_slab0 d) val in
    (with_resources d rs, Ok ridx).

Definition res_clone (ridx : nat) d : WapcGuestData * result unit :=
    match ResourceSlab.clone (resource_slab0 d) ridx with
    | Ok rs => (with_resources d rs, Ok tt)
    | Err e => (d, Err e)
    end.

Definition res_get (ridx : nat) d : WapcGuestData * result Z :=
    (d, ResourceSlab.get (resource_slab0 d) ridx).

Definition res_drop (ridx : nat) d : WapcGuestData * result (option Z) :=
    match ResourceSlab.drop (resource_slab0 d) ridx with
    | Ok (rs, fin) => (with_resources d rs, Ok fin)
    | Err e => (d, Err e)
    end.
End DataOps.

(** ** The invariant of [WapcGuestData]

    Every resource some live guest handle maps to has a live slot, and
    its count is at least the number of guest handles to it (the host
    may hold the other references).  So a count never reaches 0 while a
    handle still maps to the slot (spec section 3). *)
Definition handle_count (ix : Slab.slab nat) (r : nat) : nat :=
  Slab.count_full r (Slab.entries ix).

Definition counts_ok (ix : Slab.slab nat) (rs : ResourceSlab.rslab) : Prop :=
  forall r, (0 < handle_count ix r)%nat ->
    exists w n, ResourceSlab.slots rs !! r = Some (Some (ResourceSlab.mk_slot w n)) /\
      Z.of_nat (handle_count ix r) <= n.

Definition guest_inv (d : WapcGuestData) : Prop :=
  Slab.wf (index_slab0 d) /\ ResourceSlab.wf (resource_slab0 d) /\
  counts_ok (index_slab0 d) (resource_slab0 d).

Section Invariant.
Implicit Types (ix : Slab.slab nat) (rs : ResourceSlab.rslab).

Lemma is_full_eq (r r' : nat) : Slab.is_full r' (Slab.Full r) = if decide (r' = r) then 1%nat else 0%nat.
Proof. done. Qed.

(** A slot one reference richer, with one more handle to it. *)
Lemma counts_ok_clone ix rs r w n ix' h :
  counts_ok ix rs -> ResourceSlab.wf rs ->
  ResourceSlab.slots rs !! r = Some (Some (ResourceSlab.mk_slot w n)) ->
  Slab.insert ix r = Ok (ix', h) ->
  counts_ok ix' (ResourceSlab.mk_rslab (<[r := Some (ResourceSlab.mk_slot w (n + 1))]>
                                         (ResourceSlab.slots rs))).
Proof.
  intros Hc Hwf Hr Hi r' Hpos. unfold handle_count in *.
  rewrite (Slab.insert_count _ _ _ _ r' Hi), is_full_eq in *. simpl.
  pose proof (Hwf _ _ Hr) as Hn. simpl in Hn.
  case_decide as E; [subst r'|].
  - exists w, (n + 1). rewrite list_lookup_insert_eq by (eapply lookup_lt_Some; exact Hr).
    split; [done|]. destruct (Slab.count_full r (Slab.entries ix)) as [|k] eqn:Ek; [lia|].
    destruct (Hc r ltac:(unfold handle_count; lia)) as (w' & n' & Hr' & Hle).
    rewrite Hr in Hr'. unfold handle_count in Hle. simplify_eq. lia.
  - rewrite Nat.add_0_r in *. rewrite list_lookup_insert_ne by done.
    apply Hc. unfold handle_count. lia.
Qed.

(** The same slot richer, without the new handle (the insert trapped). *)
Lemma counts_ok_clone_only ix rs r w n :
  counts_ok ix rs -> ResourceSlab.slots rs !! r = Some (Some (ResourceSlab.mk_slot w n)) ->
  counts_ok ix (ResourceSlab.mk_rslab (<[r := Some (ResourceSlab.mk_slot w (n + 1))]>
                                        (ResourceSlab.slots rs))).
Proof.
  intros Hc Hr r' Hpos. destruct (Hc r' Hpos) as (w' & n' & Hr' & Hle). simpl.
  destruct (decide (r' = r)) as [->|Hne].
  - rewrite Hr in Hr'. simplify_eq. exists w', (n' + 1).
    rewrite list_lookup_insert_eq by (eapply lookup_lt_Some; exact Hr). split; [done|lia].
  - exists w', n'. by rewrite list_lookup_insert_ne.
Qed.

(** A new resource, before and after its first handle. *)
Lemma counts_ok_new ix rs v :
  counts_ok ix rs -> counts_ok ix (ResourceSlab.insert rs v).1.
Proof.
  intros Hc r Hpos. destruct (Hc r Hpos) as (w & n & Hr & Hle). exists w, n. simpl.
  rewrite lookup_app_l; [done|]. by eapply lookup_lt_Some.
Qed.

Lemma counts_ok_new_handle ix rs v ix' h :
  counts_ok ix rs -> Slab.insert ix (length (ResourceSlab.slots rs)) = Ok (ix', h) ->
  counts_ok ix' (ResourceSlab.insert rs v).1.
Proof.
  intros Hc Hi r Hpos. unfold handle_count in *.
  rewrite (Slab.insert_count _ _ _ _ r Hi), is_full_eq in *. simpl.
  case_decide as E; [subst r|].
  - destruct (Slab.count_full (length (ResourceSlab.slots rs)) (Slab.entries ix)) as [|k] eqn:Ek.
    + exists v, 1. rewrite lookup_app_r, Nat.sub_diag by lia. split; [done|]. simpl. lia.
    + destruct (Hc (length (ResourceSlab.slots rs)) ltac:(unfold handle_count; lia))
        as (w & n & Hr & _).
      by rewrite lookup_ge_None_2 in Hr.
  - destruct (Hc r ltac:(unfold handle_count; lia)) as (w & n & Hr & Hle).
    exists w, n. rewrite lookup_app_l by (eapply lookup_lt_Some; exact Hr).
    split; [done|]. unfold handle_count in Hle. lia.
Qed.

(** One handle fewer, with or without the matching decrement. *)
Lemma counts_ok_remove ix rs h ix' r :
  counts_ok ix rs -> Slab.remove ix h = Some (ix', r) -> counts_ok ix' rs.
Proof.
  intros Hc Hrem r' Hpos. pose proof (Slab.remove_count _ _ _ _ r' Hrem) as E.
  destruct (Hc r' ltac:(unfold handle_count in *; lia)) as (w & n & Hr & Hle).
  exists w, n. split; [done|]. unfold handle_count in *. lia.
Qed.

Lemma counts_ok_drop ix rs h ix' r rs' fin :
  counts_ok ix rs -> Slab.remove ix h = Some (ix', r) ->
  ResourceSlab.drop rs r = Ok (rs', fin) -> counts_ok ix' rs'.
Proof.
  intros Hc Hrem Hd r' Hpos. pose proof (Slab.remove_count _ _ _ _ r' Hrem) as E.
  rewrite is_full_eq in E. unfold handle_count in *.
  pose proof (Slab.remove_Some_get _ _ _ _ Hrem) as Hg.
  pose proof (Slab.get_count _ _ _ Hg) as Hpos_r.
  destruct (Hc r ltac:(unfold handle_count; lia)) as (w & n & Hr & Hle).
  unfold ResourceSlab.drop in Hd. rewrite Hr in Hd. simpl in Hd. unfold handle_count in Hle.
  destruct (decide (r' = r)) as [->|Hne].
  - destruct (Z.eqb_spec n 1); simplify_eq; simpl; [lia|].
    exists w, (n - 1). rewrite list_lookup_insert_eq by (eapply lookup_lt_Some; exact Hr).
    split; [done|]. lia.
  - destruct (Hc r' ltac:(unfold handle_count; lia)) as (w' & n' & Hr' & Hle').
    exists w', n'. unfold handle_count in Hle'.
    destruct (Z.eqb_spec n 1); simplify_eq; simpl; rewrite list_lookup_insert_ne by done;
      split; first [done | lia].
Qed.
End Invariant.
