(* ===== verification/GuestExports.v ===== *)
(** * GuestExports: the host side of guest-owned resources and host-to-guest calls

    The [wapc_guest] module of src/host/bindings.rs (lines 1-284).  The
    guest owns the [wapc] resources; the host keeps their bookkeeping in
    [WapcGuestData] and
    - registers four intrinsics the guest imports from [canonical_abi]
      ([add_to_linker], lines 34-82): [resource_new_wapc],
      [resource_get_wapc], [resource_clone_wapc], [resource_drop_wapc];
    - calls into the guest ([wapc_init_guest_request],
      [wapc_on_host_response], [wapc_on_host_error], lines 155-259),
      each time cloning the resource for the guest, issuing a fresh
      handle, and copying strings and bytes into guest memory through
      the guest's allocator;
    - drops its own references ([drop_wapc], lines 268-281).

    What the guest exports ([WapcGuest<T>]'s typed functions, lines
    19-26) is the class [WapcGuestExports]: functions of the store that
    may themselves call back into the host, or trap. *)

From S2P Require Import Prelude Slab ResourceSlab Memory Store.

(** The guest's exports, looked up by [WapcGuest::new] (lines 117-154). *)
Class WapcGuestExports (U W G : Type) := {
  canonical_abi_realloc : Z -> Z -> Z -> Z -> St (store U W G) Z;
  canonical_abi_drop_wapc : Z -> St (store U W G) unit;
  wapc_init_guest_request_export : Z -> Z -> Z -> Z -> Z -> St (store U W G) Z;
  wapc_on_host_error_export : Z -> Z -> Z -> Z -> St (store U W G) unit;
  wapc_on_host_response_export : Z -> Z -> Z -> Z -> Z -> St (store U W G) unit;
}.

Module WapcGuest.

Section Host.
Context {U W G : Type} `{WapcGuestExports U W G}.
Local Abbreviation S := (store U W G).

  (** [state.dtor0.expect("destructor not set yet")] then [dtor.call]. *)
Definition call_dtor (wasm : Z) : St S unit :=
    let* d := gets (fun s => dtor0 (guest_data s)) in
    match d with
    | Some _ => canonical_abi_drop_wapc wasm
    | None => throw Panic
    end.

  (** ** The intrinsics (lines 38-80); handles arrive as [u32]. *)
Definition resource_drop_wapc (idx : Z) : St S unit :=
    let* resource_idx := on_data (index_remove (Z.to_nat idx)) in
    let* fin := on_data (res_drop resource_idx) in
    match fin with
    | Some wasm => call_dtor wasm
    | None => ret tt
    end.

Definition resource_clone_wapc (idx : Z) : St S Z :=
    let* resource_idx := on_data (index_get (Z.to_nat idx)) in
    on_data (res_clone resource_idx) ;;;
    let* h := on_data (index_insert resource_idx) in
    ret (Z.of_nat h).

Definition resource_get_wapc (idx : Z) : St S Z :=
    let* resource_idx := on_data (index_get (Z.to_nat idx)) in
    on_data (res_get resource_idx).

Definition resource_new_wapc (val : Z) : St S Z :=
    let* resource_idx := on_data (res_insert val) in
    let* h := on_data (index_insert resource_idx) in
    ret (Z.of_nat h).

  (** [WapcGuest::new], line 143: record the destructor export. *)
Definition new : St S unit :=
    on_data (fun d => (mk_guest_data (index_slab0 d) (resource_slab0 d) (Some tt), Ok tt)).

  (** The prologue shared by the three calls (e.g. lines 165-171): clone
      the resource [self_.0] and give the guest a fresh handle to it. *)
Definition lower_self (self_ : nat) : St S nat :=
    on_data (res_clone self_) ;;;
    on_data (index_insert self_).

  (** [func_canonical_abi_realloc.call(&mut caller, (0, 0, 1, len))?]
      then [memory.store_many(ptr, bytes)?]: one list copied in. *)
Definition lower_bytes (bytes : list Memory.byte) : St S Z :=
    let* ptr := canonical_abi_realloc 0 0 1 (as_i32 (Z.of_nat (length bytes)) * 1) in
    store_bytes ptr bytes ;;;
    ret ptr.

  (** [wapc_init_guest_request] (lines 155-193). *)
Definition wapc_init_guest_request (self_ : nat) (operation payload : list Memory.byte)
      : St S Z :=
    let* handle0 := lower_self self_ in
    let* ptr1 := lower_bytes operation in
    let* ptr2 := lower_bytes payload in
    let* result3_0 := wapc_init_guest_request_export
                        (as_i32 (Z.of_nat handle0)) ptr1
                        (as_i32 (Z.of_nat (length operation))) ptr2
                        (as_i32 (Z.of_nat (length payload))) in
    ret (as_u32 result3_0).

  (** [wapc_on_host_response] (lines 194-227). *)
Definition wapc_on_host_response (self_ : nat) (id code : Z) (bytes : list Memory.byte)
      : St S unit :=
    let* handle0 := lower_self self_ in
    let* ptr1 := lower_bytes bytes in
    wapc_on_host_response_export (as_i32 (Z.of_nat handle0)) (as_i32 id) (as_i32 code)
      ptr1 (as_i32 (Z.of_nat (length bytes))).

  (** [wapc_on_host_error] (lines 228-259). *)
Definition wapc_on_host_error (self_ : nat) (id : Z) (bytes : list Memory.byte)
      : St S unit :=
    let* handle0 := lower_self self_ in
    let* ptr1 := lower_bytes bytes in
    wapc_on_host_error_export (as_i32 (Z.of_nat handle0)) (as_i32 id)
      ptr1 (as_i32 (Z.of_nat (length bytes))).

  (** [drop_wapc] (lines 268-281): the host gives up its reference;
      [data.dtor0.unwrap()] panics when [new] has not run. *)
Definition drop_wapc (val : nat) : St S unit :=
    let* fin := on_data (res_drop val) in
    match fin with
    | Some wasm => call_dtor wasm
    | None => ret tt
    end.
End Host.

(** ** Lemmas: each intrinsic, branch by branch *)
Section Lemmas.
Context {U W G : Type} `{WapcGuestExports U W G}.
Implicit Types (s : store U W G).

Lemma set_guest_data_id s : set_guest_data (guest_data s) s = s.
  Proof. by destruct s. Qed.

Lemma resource_drop_wapc_stale s h :
    Slab.get (index_slab0 (guest_data s)) h = None ->
    resource_drop_wapc (Z.of_nat h) s = (s, Err InvalidHandle).
  Proof.
    intros Hg. unfold resource_drop_wapc, on_data, index_remove. st_simpl.
    rewrite Nat2Z.id. apply Slab.remove_None in Hg. rewrite Hg. simpl.
    by rewrite set_guest_data_id.
  Qed.

Lemma resource_drop_wapc_live s h ix' r rs' fin :
    Slab.remove (index_slab0 (guest_data s)) h = Some (ix', r) ->
    ResourceSlab.drop (resource_slab0 (guest_data s)) r = Ok (rs', fin) ->
    resource_drop_wapc (Z.of_nat h) s =
      let s1 := set_guest_data (mk_guest_data ix' rs' (dtor0 (guest_data s))) s in
      match fin with Some w => call_dtor w s1 | None => (s1, Ok tt) end.
  Proof.
    intros Hr Hd. unfold resource_drop_wapc, on_data, index_remove, res_drop. st_simpl.
    rewrite Nat2Z.id, Hr. simpl. rewrite Hd. by destruct fin.
  Qed.

Lemma resource_clone_wapc_live s k r rs' ix' h' :
    Slab.get (index_slab0 (guest_data s)) k = Some r ->
    ResourceSlab.clone (resource_slab0 (guest_data s)) r = Ok rs' ->
    Slab.insert (index_slab0 (guest_data s)) r = Ok (ix', h') ->
    resource_clone_wapc (Z.of_nat k) s =
      (set_guest_data (mk_guest_data ix' rs' (dtor0 (guest_data s))) s, Ok (Z.of_nat h')).
  Proof.
    intros Hg Hc Hi. unfold resource_clone_wapc, on_data, index_get, res_clone, index_insert.
    st_simpl. rewrite Nat2Z.id, Hg. simpl. rewrite set_guest_data_id, Hc. simpl. by rewrite Hi.
  Qed.

Lemma resource_clone_wapc_stale s k :
    Slab.get (index_slab0 (guest_data s)) k = None ->
    resource_clone_wapc (Z.of_nat k) s = (s, Err InvalidHandle).
  Proof.
    intros Hg. unfold resource_clone_wapc, on_data, index_get. st_simpl.
    rewrite Nat2Z.id, Hg. simpl. by rewrite set_guest_data_id.
  Qed.

Lemma resource_get_wapc_live s h r w :
    Slab.get (index_slab0 (guest_data s)) h = Some r ->
    ResourceSlab.get (resource_slab0 (guest_data s)) r = Ok w ->
    resource_get_wapc (Z.of_nat h) s = (s, Ok w).
  Proof.
    intros Hg Hr. unfold resource_get_wapc, on_data, index_get, res_get. st_simpl.
    rewrite Nat2Z.id, Hg. simpl. rewrite !set_guest_data_id. by rewrite Hr.
  Qed.

Lemma resource_get_wapc_stale s h :
    Slab.get (index_slab0 (guest_data s)) h = None ->
    resource_get_wapc (Z.of_nat h) s = (s, Err InvalidHandle).
  Proof.
    intros Hg. unfold resource_get_wapc, on_data, index_get. st_simpl.
    rewrite Nat2Z.id, Hg. simpl. by rewrite set_guest_data_id.
  Qed.

Lemma lower_self_ok s self_ w n ix' h :
  ResourceSlab.slots (resource_slab0 (guest_data s)) !! self_ =
    Some (Some (ResourceSlab.mk_slot w n)) -> n + 1 < 2 ^ 32 ->
  Slab.insert (index_slab0 (guest_data s)) self_ = Ok (ix', h) ->
  lower_self self_ s =
    (set_guest_data (mk_guest_data ix'
       (ResourceSlab.mk_rslab (<[self_ := Some (ResourceSlab.mk_slot w (n + 1))]>
          (ResourceSlab.slots (resource_slab0 (guest_data s))))) (dtor0 (guest_data s))) s, Ok h).
Proof.
  intros Hl Hn Hi. unfold lower_self, on_data, res_clone, index_insert. st_simpl.
  rewrite (ResourceSlab.clone_live _ _ _ _ Hl Hn). simpl. by rewrite Hi.
Qed.

Lemma call_dtor_set s w :
    dtor0 (guest_data s) = Some tt -> call_dtor w s = canonical_abi_drop_wapc w s.
  Proof. unfold call_dtor. st_simpl. by intros ->. Qed.
End Lemmas.

(** ** Finalization through the intrinsics *)
Section Finalize.
Context {U W G : Type} `{WapcGuestExports U W G}.
Implicit Types (s : store U W G).

  (** The guest's destructor, observed: it records the finalized value
      in the guest's own state and touches nothing else. *)
Variable note : Z -> G -> G.
Hypothesis dtor_records :
    forall w s, canonical_abi_drop_wapc w s = (set_guest (note w (guest s)) s, Ok tt).

  (** The guest drops the handles [hs], one call after the other. *)
Fixpoint drop_all (hs : list nat) : St (store U W G) unit :=
    match hs with
    | [] => ret tt
    | h :: hs' => resource_drop_wapc (Z.of_nat h) ;;; drop_all hs'
    end.

Lemma drop_all_cons h hs s s1 :
    resource_drop_wapc (Z.of_nat h) s = (s1, Ok tt) -> drop_all (h :: hs) s = drop_all hs s1.
  Proof. intros Hd. simpl. by rewrite (bind_ok _ _ _ _ _ Hd). Qed.
  (** C1: let a guest resource [r] hold [w] with as many references as
      the guest has handles to it, [hs], and let the destructor be
      registered.  Whatever order the guest drops the handles in through
      [resource_drop_wapc], every call succeeds, the destructor runs
      exactly once, on [w], and the slot is freed. *)
Theorem handles_finalize_once s r w hs :
    dtor0 (guest_data s) = Some tt ->
    ResourceSlab.slots (resource_slab0 (guest_data s)) !! r =
      Some (Some (ResourceSlab.mk_slot w (Z.of_nat (length hs)))) ->
    hs <> [] -> NoDup hs ->
    (forall h, h ∈ hs -> Slab.get (index_slab0 (guest_data s)) h = Some r) ->
    exists s', drop_all hs s = (s', Ok tt) /\ guest s' = note w (guest s) /\
      ResourceSlab.slots (resource_slab0 (guest_data s')) !! r = Some None.
  Proof.
    revert s. induction hs as [|h hs IH]; intros s Hd Hr Hne Hnd Hh; [done|].
    apply NoDup_cons in Hnd as [Hnin Hnd].
    pose proof (Slab.remove_of_get _ _ _ (Hh h ltac:(set_solver))) as Hrem.
    destruct hs as [|h2 hs'].
    - simpl in Hr.
      erewrite drop_all_cons.
      2: { erewrite resource_drop_wapc_live; [|exact Hrem|apply ResourceSlab.drop_last, Hr].
           simpl. rewrite call_dtor_set by done. apply dtor_records. }
      eexists; split_and!; [reflexivity|done|]. simpl. by eapply ResourceSlab.lookup_update.
    - assert (Hn : 1 < Z.of_nat (length (h :: h2 :: hs'))) by (simpl; lia).
      erewrite drop_all_cons.
      2: { erewrite resource_drop_wapc_live; [|exact Hrem|apply (ResourceSlab.drop_shared _ _ _ _ Hr Hn)].
           reflexivity. }
      match goal with |- context [drop_all _ ?s1] => set (s1' := s1) end.
      assert (Hr1 : ResourceSlab.slots (resource_slab0 (guest_data s1')) !! r =
        Some (Some (ResourceSlab.mk_slot w (Z.of_nat (length (h2 :: hs')))))).
      { simpl. rewrite list_lookup_insert_eq by (eapply lookup_lt_Some; exact Hr).
        do 3 f_equal. simpl. lia. }
      assert (Hh1 : forall h', h' ∈ h2 :: hs' -> Slab.get (index_slab0 (guest_data s1')) h' = Some r).
      { intros h' Hin. simpl. pose proof (Slab.remove_get _ _ _ _ h' Hrem) as E.
        rewrite decide_False in E by set_solver. rewrite E. apply Hh. set_solver. }
      destruct (IH s1' Hd Hr1 ltac:(done) Hnd Hh1) as (s' & Hrun & Hg & Hs').
      exists s'. split_and!; [exact Hrun|by rewrite Hg|exact Hs'].
  Qed.
End Finalize.

(** ** Dead handles *)
Section DeadHandles.
Context {U W G : Type} `{WapcGuestExports U W G}.
Implicit Types (s : store U W G).

  (** C2: a handle the guest's table does not map (never issued, or
      already dropped) is rejected by [resource_get_wapc],
      [resource_clone_wapc] and [resource_drop_wapc] with
      [InvalidHandle]; the store is left as it was: no count changes and
      no destructor runs. *)
Theorem dead_handle_rejected s h :
    Slab.get (index_slab0 (guest_data s)) h = None ->
    resource_get_wapc (Z.of_nat h) s = (s, Err InvalidHandle) /\
    resource_clone_wapc (Z.of_nat h) s = (s, Err InvalidHandle) /\
    resource_drop_wapc (Z.of_nat h) s = (s, Err InvalidHandle).
  Proof.
    intros Hg. split_and!;
      eauto using resource_get_wapc_stale, resource_clone_wapc_stale, resource_drop_wapc_stale.
  Qed.

  (** C3: handles carry no generation.  The guest drops its handle [h]
      to [r1] (which stays alive through another reference) and then
      clones another handle [k] to [r2]: the clone is issued the number
      [h] again, and [resource_get_wapc h] now succeeds and returns
      [r2]'s value.  A guest that kept the dropped handle reaches a
      different resource instead of failing with [InvalidHandle]
      (spec section 8 asks for the failure). *)
Theorem dropped_handle_reaches_other_resource s h k r1 r2 w1 n1 w2 n2 :
    Slab.get (index_slab0 (guest_data s)) h = Some r1 ->
    Slab.get (index_slab0 (guest_data s)) k = Some r2 ->
    h <> k -> r1 <> r2 -> Z.of_nat h < 2 ^ 32 ->
    ResourceSlab.slots (resource_slab0 (guest_data s)) !! r1 =
      Some (Some (ResourceSlab.mk_slot w1 n1)) -> 1 < n1 ->
    ResourceSlab.slots (resource_slab0 (guest_data s)) !! r2 =
      Some (Some (ResourceSlab.mk_slot w2 n2)) -> n2 + 1 < 2 ^ 32 ->
    exists s1 s2,
      resource_drop_wapc (Z.of_nat h) s = (s1, Ok tt) /\
      resource_clone_wapc (Z.of_nat k) s1 = (s2, Ok (Z.of_nat h)) /\
      resource_get_wapc (Z.of_nat h) s2 = (s2, Ok w2).
  Proof.
    intros Hh Hk Hhk Hr12 Hbound Hr1 Hn1 Hr2 Hn2.
    pose proof (Slab.remove_of_get _ _ _ Hh) as Hrem.
    pose proof (ResourceSlab.drop_shared _ _ _ _ Hr1 Hn1) as Hdrop.
    set (ix1 := Slab.mk_slab _ h) in Hrem.
    assert (Hk1 : Slab.get ix1 k = Some r2).
    { rewrite (Slab.remove_get _ _ _ _ k Hrem), decide_False by done. exact Hk. }
    destruct (SlabContract.removed_handle_reissued _ _ _ _ r2 Hrem Hbound) as (ix2 & Hins & Hget2).
    eexists; eexists; split; [erewrite resource_drop_wapc_live by eassumption; reflexivity|].
    assert (Hr2' : ResourceSlab.slots (ResourceSlab.mk_rslab
              (<[r1 := Some (ResourceSlab.mk_slot w1 (n1 - 1))]>
                 (ResourceSlab.slots (resource_slab0 (guest_data s))))) !! r2 =
              Some (Some (ResourceSlab.mk_slot w2 n2))).
    { simpl. by rewrite list_lookup_insert_ne. }
    split; [erewrite resource_clone_wapc_live; [reflexivity|exact Hk1|
              exact (ResourceSlab.clone_live _ _ _ _ Hr2' Hn2)|exact Hins]|].
    apply resource_get_wapc_live with r2; [exact Hget2|].
    unfold ResourceSlab.get. simpl. rewrite list_lookup_insert_eq; [done|].
    rewrite length_insert. by eapply lookup_lt_Some.
  Qed.
End DeadHandles.

(** ** Traps half way through a call *)
Section Traps.
Context {U W G : Type} `{WapcGuestExports U W G}.
Implicit Types (s : store U W G).

(** The guest's allocator traps (and the trap changes nothing). *)
Hypothesis realloc_traps :
  forall a b c d s, canonical_abi_realloc a b c d s = (s, Err TransportFault).

(** C15: [wapc_init_guest_request] clones the resource and issues the
    guest a handle before it allocates; when the allocator traps, the
    call fails with the trap but the extra reference and the new handle
    stay: the count is one higher and the handle, which the guest never
    received, still maps to the resource.  Spec section 7 asks that a
    transport fault leave no partial completion. *)
Theorem init_guest_request_trap_leaks s self_ w n op pl ix' h :
  ResourceSlab.slots (resource_slab0 (guest_data s)) !! self_ =
    Some (Some (ResourceSlab.mk_slot w n)) -> n + 1 < 2 ^ 32 ->
  Slab.insert (index_slab0 (guest_data s)) self_ = Ok (ix', h) ->
  exists s', wapc_init_guest_request self_ op pl s = (s', Err TransportFault) /\
    ResourceSlab.slots (resource_slab0 (guest_data s')) !! self_ =
      Some (Some (ResourceSlab.mk_slot w (n + 1))) /\
    Slab.get (index_slab0 (guest_data s')) h = Some self_.
Proof.
  intros Hl Hn Hi. unfold wapc_init_guest_request.
  rewrite (bind_ok _ _ _ _ _ (lower_self_ok _ _ _ _ _ _ Hl Hn Hi)).
  unfold lower_bytes. rewrite (bind_err _ _ _ _ _ (bind_err _ _ _ _ _ (realloc_traps _ _ _ _ _))).
  eexists; split_and!; [reflexivity| |].
  - simpl. by erewrite ResourceSlab.lookup_update.
  - simpl. rewrite (Slab.insert_get _ _ _ _ h Hi). by rewrite decide_True.
Qed.
End Traps.

(** ** Copying arguments into the guest *)
Section Marshal.
Context {U W G : Type} `{WapcGuestExports U W G}.
Implicit Types (s : store U W G).

(** A guest allocator that hands out fresh memory.  On wasm32 the
    [canonical_abi_realloc(old_ptr, old_len, align, new_len)] export
    reads its [i32] arguments as [usize] ([as_u32]) and returns its
    pointer as an [i32]: a request for [n] bytes grows the memory by
    [n as u32] zeroed bytes and returns the old end as an [i32]. *)
Definition fresh_alloc (n : Z) : St (store U W G) Z :=
  fun s => (set_memory (memory s ++ repeat Byte.x00 (Z.to_nat (as_u32 n))) s,
            Ok (as_i32 (Z.of_nat (length (memory s))))).

Hypothesis realloc_fresh : forall n s, canonical_abi_realloc 0 0 1 n s = fresh_alloc n s.

(** Copying a buffer in works for any buffer the 4 GiB memory can hold:
    its length crosses as [len as i32] and is read back as [u32]. *)
Lemma lower_bytes_fresh s bytes :
  Z.of_nat (length (memory s) + length bytes) < 2 ^ 32 ->
  lower_bytes bytes s =
    (set_memory (memory s ++ bytes) s, Ok (as_i32 (Z.of_nat (length (memory s))))).
Proof.
  intros Hb. unfold lower_bytes. rewrite (bind_ok _ _ _ _ _ (realloc_fresh _ _)).
  rewrite Z.mul_1_r, as_u32_as_i32, Nat2Z.id by (unfold is_u32; lia).
  unfold store_bytes. st_simpl. cbn [memory set_memory].
  rewrite Memory.store_many_ok; rewrite as_u32_as_i32, Nat2Z.id by (unfold is_u32; lia).
  - rewrite take_app_length, drop_app_add, drop_ge, app_nil_r by (rewrite repeat_length; lia).
    by destruct s.
  - rewrite length_app, repeat_length. lia.
Qed.

(** A buffer of [2^32] bytes or more (the host's [usize] is wider than
    [u32]) is truncated by [len as i32]: the allocator grows the memory
    by [len mod 2^32] bytes only, and the copy into it fails its bounds
    check, so that nothing is written. *)
Lemma lower_bytes_oversized s bytes :
  Z.of_nat (length (memory s)) < 2 ^ 32 -> 2 ^ 32 <= Z.of_nat (length bytes) ->
  lower_bytes bytes s =
    (set_memory (memory s ++ repeat Byte.x00 (Z.to_nat (Z.of_nat (length bytes) mod 2 ^ 32))) s,
     Err OutOfBounds).
Proof.
  intros Hm Hb. unfold lower_bytes. rewrite (bind_ok _ _ _ _ _ (realloc_fresh _ _)).
  rewrite Z.mul_1_r, as_u32_as_i32_bits.
  unfold store_bytes. st_simpl. cbn [memory set_memory].
  rewrite Memory.store_many_oob; [done|].
  rewrite as_u32_as_i32, length_app, repeat_length by (unfold is_u32; lia).
  unfold as_u32. pose proof (Z.mod_pos_bound (Z.of_nat (length bytes)) (2 ^ 32)). lia.
Qed.

Lemma slice_middle (m a b : list Memory.byte) :
  Z.of_nat (length m + length a + length b) < 2 ^ 32 ->
  Memory.slice (m ++ a ++ b) (Z.of_nat (length m)) (Z.of_nat (length a)) = Ok a.
Proof.
  intros Hb.
  assert (E1 : as_u32 (Z.of_nat (length m)) = Z.of_nat (length m))
    by (apply as_u32_id; unfold is_u32; lia).
  assert (E2 : as_u32 (Z.of_nat (length a)) = Z.of_nat (length a))
    by (apply as_u32_id; unfold is_u32; lia).
  rewrite Memory.slice_ok, E1, E2, !Nat2Z.id; [|rewrite E1, E2, !length_app; lia
                                               |rewrite !length_app; lia].
  rewrite drop_app_length. by rewrite take_app_length.
Qed.

(** C21: with an allocator that hands out fresh memory,
    [wapc_init_guest_request self_ operation payload] ends by calling the
    guest's ["wapc::init-guest-request"] export on a store where the
    handle it passes maps to [self_] and the two (pointer, length) pairs
    it passes read back, byte for byte, as [operation] and [payload];
    the guest's [i32] answer is returned as [u32].  This holds for any
    buffers the 4 GiB memory can hold: pointers and lengths of [2^31]
    or more cross as negative [i32]s and are read back as [u32]. *)
Theorem init_guest_request_marshals s self_ w n op pl ix' h :
  ResourceSlab.slots (resource_slab0 (guest_data s)) !! self_ =
    Some (Some (ResourceSlab.mk_slot w n)) -> n + 1 < 2 ^ 32 ->
  Slab.insert (index_slab0 (guest_data s)) self_ = Ok (ix', h) ->
  Z.of_nat (length (memory s) + length op + length pl) < 2 ^ 32 ->
  exists s2,
    wapc_init_guest_request self_ op pl s =
      bind (wapc_init_guest_request_export (as_i32 (Z.of_nat h))
              (as_i32 (Z.of_nat (length (memory s)))) (as_i32 (Z.of_nat (length op)))
              (as_i32 (Z.of_nat (length (memory s) + length op))) (as_i32 (Z.of_nat (length pl))))
           (fun r => ret (as_u32 r)) s2 /\
    Memory.slice (memory s2) (as_i32 (Z.of_nat (length (memory s))))
      (as_i32 (Z.of_nat (length op))) = Ok op /\
    Memory.slice (memory s2) (as_i32 (Z.of_nat (length (memory s) + length op)))
      (as_i32 (Z.of_nat (length pl))) = Ok pl /\
    Slab.get (index_slab0 (guest_data s2)) h = Some self_.
Proof.
  intros Hl Hn Hi Hb. unfold wapc_init_guest_request.
  rewrite (bind_ok _ _ _ _ _ (lower_self_ok _ _ _ _ _ _ Hl Hn Hi)).
  erewrite bind_ok; [|apply lower_bytes_fresh; simpl; lia].
  erewrite bind_ok; [|apply lower_bytes_fresh; simpl; rewrite length_app; lia].
  cbn [memory set_memory set_guest_data guest_data index_slab0].
  rewrite length_app, Nat2Z.inj_add.
  eexists; split_and!; [reflexivity| | |]; cbn [memory]; rewrite ?Memory.slice_as_i32.
  - rewrite <- app_assoc. apply slice_middle. lia.
  - pose proof (slice_middle (memory s ++ op) pl [] ltac:(rewrite length_app; simpl; lia)) as E.
    by rewrite app_nil_r, length_app, Nat2Z.inj_add in E.
  - simpl. rewrite (Slab.insert_get _ _ _ _ h Hi). by rewrite decide_True.
Qed.

(** C22: a payload of [2^32] bytes or more never reaches the guest:
    [vec2.len() as i32] keeps its low 32 bits, the allocator hands out
    that many bytes, and [store_many] refuses the copy with
    [OutOfBounds]; the call fails before the guest's export runs, with
    the guest's state unchanged but for the clone and the handle of its
    prologue, which stay behind, and the two allocations. *)
Theorem oversized_payload_rejected s self_ w n op pl ix' h :
  ResourceSlab.slots (resource_slab0 (guest_data s)) !! self_ =
    Some (Some (ResourceSlab.mk_slot w n)) -> n + 1 < 2 ^ 32 ->
  Slab.insert (index_slab0 (guest_data s)) self_ = Ok (ix', h) ->
  Z.of_nat (length (memory s) + length op) < 2 ^ 32 -> 2 ^ 32 <= Z.of_nat (length pl) ->
  wapc_init_guest_request self_ op pl s =
    (mk_store
       (mk_guest_data ix' (ResourceSlab.mk_rslab
          (<[self_ := Some (ResourceSlab.mk_slot w (n + 1))]>
             (ResourceSlab.slots (resource_slab0 (guest_data s))))) (dtor0 (guest_data s)))
       (host s) (tables s)
       (memory s ++ op ++ repeat Byte.x00 (Z.to_nat (Z.of_nat (length pl) mod 2 ^ 32))) (guest s),
     Err OutOfBounds).
Proof.
  intros Hl Hn Hi Hop Hpl. unfold wapc_init_guest_request.
  rewrite (bind_ok _ _ _ _ _ (lower_self_ok _ _ _ _ _ _ Hl Hn Hi)).
  erewrite bind_ok; [|apply lower_bytes_fresh; simpl; lia].
  erewrite bind_err; [|apply lower_bytes_oversized].
  - cbn [memory set_memory set_guest_data guest_data]. by rewrite <- app_assoc.
  - cbn [memory set_memory set_guest_data]. rewrite length_app. lia.
  - exact Hpl.
Qed.
End Marshal.

(** ** The invariant across the intrinsics *)
Section Invariant.
Context {U W G : Type} `{WapcGuestExports U W G}.
Implicit Types (s : store U W G).

(** The guest's destructor keeps the invariant (it may itself call the
    intrinsics). *)
Hypothesis dtor_keeps_inv :
  forall w s, guest_inv (guest_data s) -> guest_inv (guest_data (canonical_abi_drop_wapc w s).1).

Lemma new_keeps_inv s v : guest_inv (guest_data s) -> guest_inv (guest_data (resource_new_wapc v s).1).
Proof.
  intros (Hw & Hr & Hc). unfold resource_new_wapc, on_data, res_insert, index_insert. st_simpl.
  repeat (case_match; simplify_eq/=); unfold guest_inv; simpl; split_and!.
  - by eapply Slab.insert_wf.
  - exact (ResourceSlab.insert_keeps_wf _ v Hr).
  - by eapply (counts_ok_new_handle _ _ v).
  - done.
  - exact (ResourceSlab.insert_keeps_wf _ v Hr).
  - exact (counts_ok_new _ _ v Hc).
Qed.

Lemma clone_keeps_inv s k : guest_inv (guest_data s) -> guest_inv (guest_data (resource_clone_wapc k s).1).
Proof.
  intros Hinv. pose proof Hinv as (Hw & Hr & Hc).
  unfold resource_clone_wapc, on_data, index_get, res_clone, index_insert, ok_or. st_simpl.
  repeat (case_match; simplify_eq/=); try done.
  all: match goal with Hcl : ResourceSlab.clone _ _ = Ok _ |- _ =>
         pose proof (ResourceSlab.clone_wf _ _ _ Hr Hcl);
         destruct (ResourceSlab.clone_ok_inv _ _ _ Hcl) as (w0 & cnt & Hs & ->) end;
    unfold guest_inv; simpl; split_and!; try done.
  - by eapply Slab.insert_wf.
  - by eapply counts_ok_clone.
  - by eapply counts_ok_clone_only.
Qed.

Lemma get_keeps_inv s k : guest_inv (guest_data s) -> guest_inv (guest_data (resource_get_wapc k s).1).
Proof.
  intros Hinv. unfold resource_get_wapc, on_data, index_get, res_get, ok_or. st_simpl.
  by repeat (case_match; simplify_eq/=).
Qed.

Lemma drop_keeps_inv s k : guest_inv (guest_data s) -> guest_inv (guest_data (resource_drop_wapc k s).1).
Proof.
  intros Hinv. pose proof Hinv as (Hw & Hr & Hc).
  unfold resource_drop_wapc, on_data, index_remove, res_drop. st_simpl.
  destruct (Slab.remove _ _) as [[ix' r]|] eqn:Erem; simpl; [|done].
  assert (Hw' : Slab.wf ix') by (by eapply Slab.remove_wf).
  destruct (ResourceSlab.drop _ _) as [[rs' fin]|] eqn:Ed; simpl.
  - assert (Hinv' : guest_inv (mk_guest_data ix' rs' (dtor0 (guest_data s)))).
    { split_and!; [done|by eapply ResourceSlab.drop_wf|by eapply counts_ok_drop]. }
    destruct fin as [w|]; simpl; [|done].
    unfold call_dtor. st_simpl. simpl. destruct (dtor0 (guest_data s)); simpl; [|done].
    by apply dtor_keeps_inv.
  - split_and!; [done|done|by eapply counts_ok_remove].
Qed.

(** C14: from a store whose guest data satisfies [guest_inv] (both
    tables well formed; every resource a guest handle maps to is live,
    with a count at least its number of handles), every outcome of the
    four intrinsics, failures included, satisfies it again. *)
Theorem intrinsics_keep_inv s v k :
  guest_inv (guest_data s) ->
  guest_inv (guest_data (resource_new_wapc v s).1) /\
  guest_inv (guest_data (resource_clone_wapc k s).1) /\
  guest_inv (guest_data (resource_get_wapc k s).1) /\
  guest_inv (guest_data (resource_drop_wapc k s).1).
Proof.
  intros Hinv. split_and!;
    eauto using new_keeps_inv, clone_keeps_inv, get_keeps_inv, drop_keeps_inv.
Qed.
End Invariant.

(** ** A test guest

    A guest whose allocator appends zeroed memory at the end (a bump
    allocator growing the memory), whose destructor records the value
    it finalizes, and whose request entry point answers [7].  It only
    instantiates the theorems at concrete stores. *)
Definition rec_guest : WapcGuestExports unit unit (list Z) := {|
  canonical_abi_realloc := fun _ _ _ => fresh_alloc;
  canonical_abi_drop_wapc := fun w s => (set_guest (guest s ++ [w]) s, Ok tt);
  wapc_init_guest_request_export := fun _ _ _ _ _ s => (s, Ok 7);
  wapc_on_host_error_export := fun _ _ _ _ s => (s, Ok tt);
  wapc_on_host_response_export := fun _ _ _ _ _ s => (s, Ok tt);
|}.

(** Two guest handles, 0 and 1, to resource 0 holding [42] with count 2. *)
Definition two_handles : store unit unit (list Z) :=
  mk_store (mk_guest_data (Slab.mk_slab [Slab.Full 0%nat; Slab.Full 0%nat] 2)
              (ResourceSlab.mk_rslab [Some (ResourceSlab.mk_slot 42 2)]) (Some tt))
    tt WapcHostTables_default [] [].

Lemma handles_finalize_once_witness :
  (forall w s, @canonical_abi_drop_wapc _ _ _ rec_guest w s = (set_guest (guest s ++ [w]) s, Ok tt)) /\
  dtor0 (guest_data two_handles) = Some tt /\
  ResourceSlab.slots (resource_slab0 (guest_data two_handles)) !! 0%nat =
    Some (Some (ResourceSlab.mk_slot 42 (Z.of_nat (length [1%nat; 0%nat])))) /\
  [1%nat; 0%nat] <> [] /\ NoDup [1%nat; 0%nat] /\
  (forall h, h ∈ [1%nat; 0%nat] -> Slab.get (index_slab0 (guest_data two_handles)) h = Some 0%nat) /\
  exists s', @drop_all _ _ _ rec_guest [1%nat; 0%nat] two_handles = (s', Ok tt) /\
    guest s' = guest two_handles ++ [42] /\
    ResourceSlab.slots (resource_slab0 (guest_data s')) !! 0%nat = Some None.
Proof.
  assert (Hd : forall w s, @canonical_abi_drop_wapc _ _ _ rec_guest w s =
                 (set_guest (guest s ++ [w]) s, Ok tt)) by reflexivity.
  assert (Hnd : NoDup [1%nat; 0%nat]) by (repeat constructor; set_solver).
  assert (Hin : forall h, h ∈ [1%nat; 0%nat] ->
            Slab.get (index_slab0 (guest_data two_handles)) h = Some 0%nat) by forall_in_list.
  split_and!; try done.
  apply (handles_finalize_once (H := rec_guest) (fun w g => g ++ [w]) Hd two_handles 0 42
           [1%nat; 0%nat]); [reflexivity|reflexivity|done|exact Hnd|exact Hin].
Defined.

Lemma dead_handle_rejected_witness :
  Slab.get (index_slab0 (guest_data two_handles)) 5 = None /\
  resource_get_wapc (Z.of_nat 5) two_handles = (two_handles, Err InvalidHandle) /\
  resource_clone_wapc (Z.of_nat 5) two_handles = (two_handles, Err InvalidHandle) /\
  @resource_drop_wapc _ _ _ rec_guest (Z.of_nat 5) two_handles = (two_handles, Err InvalidHandle).
Proof.
  split; [reflexivity|]. apply (@dead_handle_rejected _ _ _ rec_guest). reflexivity.
Defined.

(** Handles 0 and 1 to resource 0 ([42], count 2), handle 2 to
    resource 1 ([7], count 1). *)
Definition two_resources : store unit unit (list Z) :=
  mk_store (mk_guest_data (Slab.mk_slab [Slab.Full 0%nat; Slab.Full 0%nat; Slab.Full 1%nat] 3)
              (ResourceSlab.mk_rslab [Some (ResourceSlab.mk_slot 42 2);
                                      Some (ResourceSlab.mk_slot 7 1)]) (Some tt))
    tt WapcHostTables_default [] [].

Lemma dropped_handle_reaches_other_resource_witness :
  exists s1 s2,
    @resource_drop_wapc _ _ _ rec_guest (Z.of_nat 0) two_resources = (s1, Ok tt) /\
    resource_clone_wapc (Z.of_nat 2) s1 = (s2, Ok (Z.of_nat 0)) /\
    resource_get_wapc (Z.of_nat 0) s2 = (s2, Ok 7).
Proof.
  apply (@dropped_handle_reaches_other_resource _ _ _ rec_guest two_resources 0 2 0 1 42 2 7 1);
    first [reflexivity | lia | done].
Defined.

(** A guest whose allocator traps. *)
Definition trapping_guest : WapcGuestExports unit unit (list Z) := {|
  canonical_abi_realloc := fun _ _ _ _ s => (s, Err TransportFault);
  canonical_abi_drop_wapc := fun w s => (s, Ok tt);
  wapc_init_guest_request_export := fun _ _ _ _ _ s => (s, Ok 0);
  wapc_on_host_error_export := fun _ _ _ _ s => (s, Ok tt);
  wapc_on_host_response_export := fun _ _ _ _ _ s => (s, Ok tt);
|}.

Lemma init_guest_request_trap_leaks_witness :
  ResourceSlab.slots (resource_slab0 (guest_data two_resources)) !! 1%nat =
    Some (Some (ResourceSlab.mk_slot 7 1)) /\ 1 + 1 < 2 ^ 32 /\
  Slab.insert (index_slab0 (guest_data two_resources)) 1%nat =
    Ok (Slab.mk_slab [Slab.Full 0%nat; Slab.Full 0%nat; Slab.Full 1%nat; Slab.Full 1%nat] 4, 3%nat) /\
  exists s', @wapc_init_guest_request _ _ _ trapping_guest 1 [Byte.x61] [] two_resources =
      (s', Err TransportFault) /\
    ResourceSlab.slots (resource_slab0 (guest_data s')) !! 1%nat =
      Some (Some (ResourceSlab.mk_slot 7 (1 + 1))) /\
    Slab.get (index_slab0 (guest_data s')) 3 = Some 1%nat.
Proof.
  split_and!; [reflexivity|lia|reflexivity|].
  eapply (@init_guest_request_trap_leaks _ _ _ trapping_guest (fun _ _ _ _ _ => eq_refl)
            two_resources 1 7 1 [Byte.x61] [] _ 3%nat); [reflexivity|lia|reflexivity].
Defined.

Lemma init_guest_request_marshals_witness :
  ResourceSlab.slots (resource_slab0 (guest_data two_resources)) !! 1%nat =
    Some (Some (ResourceSlab.mk_slot 7 1)) /\ 1 + 1 < 2 ^ 32 /\
  Slab.insert (index_slab0 (guest_data two_resources)) 1%nat =
    Ok (Slab.mk_slab [Slab.Full 0%nat; Slab.Full 0%nat; Slab.Full 1%nat; Slab.Full 1%nat] 4, 3%nat) /\
  Z.of_nat (length (memory two_resources) + length [Byte.x61] + length [Byte.x02; Byte.x03]) < 2 ^ 32 /\
  exists s2,
    @wapc_init_guest_request _ _ _ rec_guest 1 [Byte.x61] [Byte.x02; Byte.x03] two_resources =
      bind (@wapc_init_guest_request_export _ _ _ rec_guest (as_i32 (Z.of_nat 3))
              (as_i32 (Z.of_nat (length (memory two_resources))))
              (as_i32 (Z.of_nat (length [Byte.x61])))
              (as_i32 (Z.of_nat (length (memory two_resources) + length [Byte.x61])))
              (as_i32 (Z.of_nat (length [Byte.x02; Byte.x03]))))
           (fun r => ret (as_u32 r)) s2 /\
    Memory.slice (memory s2) (as_i32 (Z.of_nat (length (memory two_resources))))
      (as_i32 (Z.of_nat (length [Byte.x61]))) = Ok [Byte.x61] /\
    Memory.slice (memory s2) (as_i32 (Z.of_nat (length (memory two_resources) + length [Byte.x61])))
      (as_i32 (Z.of_nat (length [Byte.x02; Byte.x03]))) = Ok [Byte.x02; Byte.x03] /\
    Slab.get (index_slab0 (guest_data s2)) 3 = Some 1%nat.
Proof.
  split_and!; [reflexivity|lia|reflexivity|simpl; lia|].
  eapply (@init_guest_request_marshals _ _ _ rec_guest (fun _ _ => eq_refl)
            two_resources 1 7 1 [Byte.x61] [Byte.x02; Byte.x03] _ 3%nat);
    [reflexivity|lia|reflexivity|simpl; lia].
Defined.

(** A 4 GiB payload (never evaluated: only its length is used). *)
Definition four_gib : list Memory.byte := repeat Byte.x00 (Z.to_nat (2 ^ 32)).

Lemma four_gib_length : Z.of_nat (length four_gib) = 2 ^ 32.
Proof. unfold four_gib. rewrite repeat_length, Z2Nat.id; lia. Qed.

Lemma oversized_payload_rejected_witness :
  ResourceSlab.slots (resource_slab0 (guest_data two_resources)) !! 1%nat =
    Some (Some (ResourceSlab.mk_slot 7 1)) /\ 1 + 1 < 2 ^ 32 /\
  Slab.insert (index_slab0 (guest_data two_resources)) 1%nat =
    Ok (Slab.mk_slab [Slab.Full 0%nat; Slab.Full 0%nat; Slab.Full 1%nat; Slab.Full 1%nat] 4, 3%nat) /\
  Z.of_nat (length (memory two_resources) + length [Byte.x61]) < 2 ^ 32 /\
  2 ^ 32 <= Z.of_nat (length four_gib) /\
  @wapc_init_guest_request _ _ _ rec_guest 1 [Byte.x61] four_gib two_resources =
    (mk_store
       (mk_guest_data (Slab.mk_slab [Slab.Full 0%nat; Slab.Full 0%nat; Slab.Full 1%nat; Slab.Full 1%nat] 4)
          (ResourceSlab.mk_rslab
             (<[1%nat := Some (ResourceSlab.mk_slot 7 (1 + 1))]>
                (ResourceSlab.slots (resource_slab0 (guest_data two_resources)))))
          (dtor0 (guest_data two_resources)))
       (host two_resources) (tables two_resources)
       (memory two_resources ++ [Byte.x61] ++
          repeat Byte.x00 (Z.to_nat (Z.of_nat (length four_gib) mod 2 ^ 32))) (guest two_resources),
     Err OutOfBounds).
Proof.
  assert (Hb : 2 ^ 32 <= Z.of_nat (length four_gib)) by (rewrite four_gib_length; lia).
  split_and!; [reflexivity|lia|reflexivity|simpl; lia|exact Hb|].
  apply (@oversized_payload_rejected _ _ _ rec_guest (fun _ _ => eq_refl)
           two_resources 1 7 1 [Byte.x61] four_gib _ 3%nat); [reflexivity|lia|reflexivity|simpl; lia|exact Hb].
Defined.

Lemma two_handles_inv : guest_inv (guest_data two_handles).
Proof.
  split_and!.
  - exists []. cbn beta. split_and!; [apply (Slab.chain_end [Slab.Full 0%nat; Slab.Full 0%nat])|constructor|].
    intros [|[|i]] j Hi; simpl in Hi; simplify_eq; by rewrite lookup_nil in Hi.
  - intros [|[|i]] sl Hi; simpl in Hi; simplify_eq/=. lia.
  - intros r Hpos. unfold handle_count in Hpos. simpl in Hpos.
    destruct (decide (r = 0%nat)) as [->|]; [|simpl in Hpos; lia].
    exists 42, 2. split; [reflexivity|]. unfold handle_count. simpl. lia.
Qed.

Lemma intrinsics_keep_inv_witness :
  (forall w s, guest_inv (guest_data s) ->
     guest_inv (guest_data (@canonical_abi_drop_wapc _ _ _ rec_guest w s).1)) /\
  guest_inv (guest_data two_handles) /\
  guest_inv (guest_data (resource_new_wapc 5 two_handles).1) /\
  guest_inv (guest_data (resource_clone_wapc 1 two_handles).1) /\
  guest_inv (guest_data (resource_get_wapc 1 two_handles).1) /\
  guest_inv (guest_data (@resource_drop_wapc _ _ _ rec_guest 1 two_handles).1).
Proof.
  assert (Hd : forall w s, guest_inv (guest_data s) ->
             guest_inv (guest_data (@canonical_abi_drop_wapc _ _ _ rec_guest w s).1)) by done.
  split_and!; [exact Hd|exact two_handles_inv|..];
    apply (@intrinsics_keep_inv _ _ _ rec_guest Hd two_handles 5 1 two_handles_inv).
Defined.

End WapcGuest.
