(* ===== verification/GuestTable.v ===== *)
(** * GuestTable: the contract of the guest-resource table, and its refinement

    Spec sections 3 and 4 describe, for one side, a table of resources
    named by handles: a new resource comes with a fresh handle; cloning
    a handle adds a handle and a reference; dropping a handle removes it
    and a reference, and the last reference hands the value to the
    finalizer; a dead handle is rejected.  [astep] states that contract
    on an abstract state of two finite maps (handles to resources,
    resources to value and count), with the one limit the runtime adds:
    a count that would pass [u32::MAX] fails with [Overflow].

    [abs] reads the abstract state off [WapcGuestData] (the [to_map]
    views of [IndexSlab] and [ResourceSlab]); the refinement lemmas show
    that the four intrinsics of [GuestExports] ([resource_new_wapc],
    [resource_clone_wapc], [resource_get_wapc], [resource_drop_wapc])
    take only steps of the contract, and that [guest_inv] maps to the
    contract's invariant [ainv]. *)

From S2P Require Import Prelude Slab ResourceSlab Memory Store GuestExports.

Module GuestTable.
Import WapcGuest.
#[local] Arguments Slab.to_map : simpl never.
#[local] Arguments ResourceSlab.to_map : simpl never.

Record astate := mk_astate {
  ahandles : gmap nat nat;
  ares : gmap nat (Z * Z);
}.

Inductive aop := ANew (v : Z) | AClone (h : nat) | AGet (h : nat) | ADrop (h : nat).

(** What a step returns: a new handle, a resource's value, or the value
    the drop hands to the finalizer (if it was the last reference). *)
Inductive aout := OHandle (h : nat) | OValue (v : Z) | OFinal (fin : option Z).

Definition op_handle (o : aop) : option nat :=
  match o with ANew _ => None | AClone h | AGet h | ADrop h => Some h end.

Implicit Types (σ : astate).

Inductive astep : astate -> aop -> result aout -> astate -> Prop :=
  | AStepNew σ v r h :
      ares σ !! r = None -> ahandles σ !! h = None ->
      astep σ (ANew v) (Ok (OHandle h))
        (mk_astate (<[h := r]> (ahandles σ)) (<[r := (v, 1)]> (ares σ)))
  | AStepClone σ h r v n h' :
      ahandles σ !! h = Some r -> ares σ !! r = Some (v, n) -> n + 1 < 2 ^ 32 ->
      ahandles σ !! h' = None ->
      astep σ (AClone h) (Ok (OHandle h'))
        (mk_astate (<[h' := r]> (ahandles σ)) (<[r := (v, n + 1)]> (ares σ)))
  | AStepOverflow σ h r v n :
      ahandles σ !! h = Some r -> ares σ !! r = Some (v, n) -> 2 ^ 32 <= n + 1 ->
      astep σ (AClone h) (Err Overflow) σ
  | AStepGet σ h r v n :
      ahandles σ !! h = Some r -> ares σ !! r = Some (v, n) ->
      astep σ (AGet h) (Ok (OValue v)) σ
  | AStepDropShared σ h r v n :
      ahandles σ !! h = Some r -> ares σ !! r = Some (v, n) -> 1 < n ->
      astep σ (ADrop h) (Ok (OFinal None))
        (mk_astate (delete h (ahandles σ)) (<[r := (v, n - 1)]> (ares σ)))
  | AStepDropLast σ h r v :
      ahandles σ !! h = Some r -> ares σ !! r = Some (v, 1) ->
      astep σ (ADrop h) (Ok (OFinal (Some v)))
        (mk_astate (delete h (ahandles σ)) (delete r (ares σ)))
  | AStepDead σ o h :
      op_handle o = Some h -> ahandles σ !! h = None ->
      astep σ o (Err InvalidHandle) σ.

(** Runs of the contract. *)
Inductive asteps : astate -> list aop -> astate -> Prop :=
  | asteps_nil σ : asteps σ [] σ
  | asteps_cons σ o out σ1 os σ2 : astep σ o out σ1 -> asteps σ1 os σ2 -> asteps σ (o :: os) σ2.

(** The contract's invariant: live counts are [u32] and positive, and
    every handle names a live resource whose count covers all the
    handles to it. *)
Definition ainv σ : Prop :=
  (forall r v n, ares σ !! r = Some (v, n) -> 1 <= n < 2 ^ 32) /\
  (forall h r, ahandles σ !! h = Some r ->
     exists v n, ares σ !! r = Some (v, n) /\ Z.of_nat (count_val (ahandles σ) r) <= n).

(** ** The contract's invariant is inductive *)
Section Ainv.

Lemma ainv_dead σ r : ainv σ -> ares σ !! r = None -> count_val (ahandles σ) r = 0%nat.
Proof.
  intros [_ Hh] Hr. destruct (count_val (ahandles σ) r) as [|c] eqn:E; [done|].
  destruct (count_val_pos_inv (ahandles σ) r ltac:(lia)) as [k Hk].
  destruct (Hh _ _ Hk) as (v & n & Hr' & _). congruence.
Qed.

Lemma ainv_count σ h r v n :
  ainv σ -> ahandles σ !! h = Some r -> ares σ !! r = Some (v, n) ->
  (1 <= count_val (ahandles σ) r)%nat /\ Z.of_nat (count_val (ahandles σ) r) <= n.
Proof.
  intros [_ Hh] Hk Hr. split; [by eapply count_val_pos|].
  destruct (Hh _ _ Hk) as (v' & n' & Hr' & Hle). congruence.
Qed.

(** The counts stay [u32] and positive when one is set to [n]. *)
Lemma counts_range_insert σ r v n :
  (forall r v n, ares σ !! r = Some (v, n) -> 1 <= n < 2 ^ 32) -> 1 <= n < 2 ^ 32 ->
  forall r' v' n', <[r := (v, n)]> (ares σ) !! r' = Some (v', n') -> 1 <= n' < 2 ^ 32.
Proof.
  intros Hres Hn r' v' n'. rewrite lookup_insert_Some.
  intros [[<- [= <- <-]]|[_ ?]]; eauto.
Qed.

Lemma ainv_new σ v r h :
  ainv σ -> ares σ !! r = None -> ahandles σ !! h = None ->
  ainv (mk_astate (<[h := r]> (ahandles σ)) (<[r := (v, 1)]> (ares σ))).
Proof.
  intros Hinv Hr Hfree. pose proof Hinv as [Hres Hh]. split; simpl.
  { apply counts_range_insert; [done|lia]. }
  pose proof (ainv_dead σ r Hinv Hr) as Hz.
  intros h'' r''. rewrite lookup_insert_Some, count_val_insert by done.
  intros [[<- <-]|[_ Hk]].
  - exists v, 1. rewrite lookup_insert_eq, Hz, decide_True by done. split; [done|lia].
  - destruct (Hh _ _ Hk) as (v' & n' & Hr' & Hle).
    assert (r'' <> r) by congruence.
    exists v', n'. rewrite lookup_insert_ne, decide_False by done. split; [done|lia].
Qed.

Lemma ainv_clone σ h r v n h' :
  ainv σ -> ahandles σ !! h = Some r -> ares σ !! r = Some (v, n) -> n + 1 < 2 ^ 32 ->
  ahandles σ !! h' = None ->
  ainv (mk_astate (<[h' := r]> (ahandles σ)) (<[r := (v, n + 1)]> (ares σ))).
Proof.
  intros Hinv Hk Hr Hn Hfree. pose proof Hinv as [Hres Hh]. split; simpl.
  { apply counts_range_insert; [done|]. pose proof (Hres _ _ _ Hr). lia. }
  pose proof (ainv_count σ h r v n Hinv Hk Hr) as [_ Hc].
  intros h'' r''. rewrite lookup_insert_Some, count_val_insert by done.
  intros [[<- <-]|[_ Hk'']]; [|destruct (decide (r'' = r)) as [->|Hne]].
  - exists v, (n + 1). rewrite lookup_insert_eq, decide_True by done. split; [done|lia].
  - exists v, (n + 1). rewrite lookup_insert_eq, decide_True by done. split; [done|lia].
  - destruct (Hh _ _ Hk'') as (v' & n' & Hr' & Hle).
    exists v', n'. rewrite lookup_insert_ne, decide_False by done. split; [done|lia].
Qed.

Lemma ainv_drop_shared σ h r v n :
  ainv σ -> ahandles σ !! h = Some r -> ares σ !! r = Some (v, n) -> 1 < n ->
  ainv (mk_astate (delete h (ahandles σ)) (<[r := (v, n - 1)]> (ares σ))).
Proof.
  intros Hinv Hk Hr Hn. pose proof Hinv as [Hres Hh]. split; simpl.
  { apply counts_range_insert; [done|]. pose proof (Hres _ _ _ Hr). lia. }
  pose proof (ainv_count σ h r v n Hinv Hk Hr) as [_ Hc].
  pose proof (count_val_delete _ _ _ r Hk) as Ed.
  intros h'' r''. rewrite lookup_delete_Some. intros [Hne Hk''].
  pose proof (count_val_delete _ _ _ r'' Hk) as Ed''.
  destruct (decide (r'' = r)) as [->|Hne'].
  - exists v, (n - 1). rewrite lookup_insert_eq. rewrite decide_True in Ed by done.
    split; [done|lia].
  - destruct (Hh _ _ Hk'') as (v' & n' & Hr' & Hle).
    exists v', n'. rewrite lookup_insert_ne by done. rewrite decide_False in Ed'' by done.
    split; [done|lia].
Qed.

Lemma ainv_drop_last σ h r v :
  ainv σ -> ahandles σ !! h = Some r -> ares σ !! r = Some (v, 1) ->
  ainv (mk_astate (delete h (ahandles σ)) (delete r (ares σ))).
Proof.
  intros Hinv Hk Hr. pose proof Hinv as [Hres Hh]. split; simpl.
  { intros r' v' n'. rewrite lookup_delete_Some. intros [_ ?]; eauto. }
  pose proof (ainv_count σ h r v 1 Hinv Hk Hr) as [Hc1 Hc].
  pose proof (count_val_delete _ _ _ r Hk) as Ed. rewrite decide_True in Ed by done.
  intros h'' r''. rewrite lookup_delete_Some. intros [Hne Hk''].
  pose proof (count_val_delete _ _ _ r'' Hk) as Ed''.
  destruct (decide (r'' = r)) as [->|Hne'].
  - exfalso. assert (Hpos : (1 <= count_val (delete h (ahandles σ)) r)%nat).
    { eapply count_val_pos. rewrite lookup_delete_ne by done. exact Hk''. }
    lia.
  - destruct (Hh _ _ Hk'') as (v' & n' & Hr' & Hle).
    exists v', n'. rewrite lookup_delete_ne by done. rewrite decide_False in Ed'' by done.
    split; [done|lia].
Qed.

Lemma astep_ainv σ o out σ' : ainv σ -> astep σ o out σ' -> ainv σ'.
Proof.
  intros Hinv Hs. destruct Hs; eauto using ainv_new, ainv_clone, ainv_drop_shared, ainv_drop_last.
Qed.

(** The last drop leaves no handle to the finalized resource: the
    contract never lets a handle outlive its resource. *)
Lemma finalize_no_dangling σ h r v σ' :
  ainv σ -> ahandles σ !! h = Some r -> astep σ (ADrop h) (Ok (OFinal (Some v))) σ' ->
  ares σ' !! r = None /\ forall h', ahandles σ' !! h' <> Some r.
Proof.
  intros Hinv Hk Hs. pose proof (astep_ainv _ _ _ _ Hinv Hs) as [_ Hh'].
  inversion Hs as [| | | | |σ0 h0 r0 v0 Hk0 Hr0|]; subst.
  assert (r0 = r) as -> by congruence.
  assert (Hgone : delete r (ares σ) !! r = None) by apply lookup_delete_eq.
  split; [done|]. intros h' Hh. destruct (Hh' _ _ Hh) as (? & ? & Hr' & _).
  simpl in Hr'. congruence.
Qed.
(** A drop of the last reference can only finalize, only the
    resource's own value, and only by removing the handle and the
    resource. *)
Lemma drop_step_last σ h r w out σ' :
  ahandles σ !! h = Some r -> ares σ !! r = Some (w, 1) -> astep σ (ADrop h) out σ' ->
  out = Ok (OFinal (Some w)) /\
  σ' = mk_astate (delete h (ahandles σ)) (delete r (ares σ)).
Proof.
  intros Hk Hv Hs. inversion Hs; subst; simpl in *; try congruence.
  - match goal with
    | H1 : ahandles σ !! h = Some ?r0, H2 : ares σ !! ?r0 = Some (_, ?n0), H3 : 1 < ?n0 |- _ =>
        rewrite Hk in H1; injection H1 as <-; rewrite Hv in H2; injection H2 as _ <-; lia
    end.
  - match goal with
    | H1 : ahandles σ !! h = Some ?r0, H2 : ares σ !! ?r0 = Some _ |- _ =>
        rewrite Hk in H1; injection H1 as <-; rewrite Hv in H2; injection H2 as <-; done
    end.
Qed.
End Ainv.

(** ** The abstraction of [WapcGuestData] *)
Definition abs (d : WapcGuestData) : astate :=
  mk_astate (Slab.to_map (index_slab0 d)) (ResourceSlab.to_map (resource_slab0 d)).

(** Room for one more entry in [IndexSlab], so that its [insert] does
    not panic (a table of [2^32] handles is out of reach of a wasm32
    guest). *)
Definition cap (d : WapcGuestData) : Prop :=
  Z.of_nat (length (Slab.entries (index_slab0 d))) < 2 ^ 32.

(** What the intrinsics return, read as contract outputs. *)
Definition handle_out (r : result Z) : result aout :=
  match r with Ok z => Ok (OHandle (Z.to_nat z)) | Err e => Err e end.

Definition value_out (r : result Z) : result aout :=
  match r with Ok z => Ok (OValue z) | Err e => Err e end.

Section Refinement.
Context {U W G : Type} `{WapcGuestExports U W G}.
Implicit Types (s : store U W G) (d : WapcGuestData).

(** An intrinsic [c] implements the step [o]: it changes the guest data
    only, and the abstract states before and after are related by [o]
    with the output [obs] reads off its result. *)
Definition refines_step (o : aop) (obs : result Z -> result aout) (c : St (store U W G) Z) s
    : Prop :=
  let '(s', out) := c s in
  s' = set_guest_data (guest_data s') s /\
  astep (abs (guest_data s)) o (obs out) (abs (guest_data s')).

(** [resource_drop_wapc h] implements [ADrop h]: on a dead handle it
    fails as the contract says; otherwise it moves the guest data to a
    state [d1] (still satisfying [guest_inv]) whose abstraction is the
    contract's next state, and calls the guest's destructor there exactly
    when the contract finalizes, on the value it finalizes. *)
Definition drop_refines_step (h : nat) s : Prop :=
  exists out σ', astep (abs (guest_data s)) (ADrop h) out σ' /\
    match out with
    | Ok (OFinal fin) =>
        exists d1, abs d1 = σ' /\ guest_inv d1 /\ dtor0 d1 = dtor0 (guest_data s) /\
          resource_drop_wapc (Z.of_nat h) s =
            match fin with
            | Some v => call_dtor v (set_guest_data d1 s)
            | None => (set_guest_data d1 s, Ok tt)
            end
    | Ok _ => False
    | Err e => resource_drop_wapc (Z.of_nat h) s = (s, Err e) /\ σ' = abs (guest_data s)
    end.

Lemma set_guest_data_twice d1 d2 s : set_guest_data d1 (set_guest_data d2 s) = set_guest_data d1 s.
Proof. by destruct s. Qed.

Lemma insert_as_alter {A} (m : gmap nat A) i x : partial_alter (fun _ => Some x) i m = <[i := x]> m.
Proof. done. Qed.

(** A live handle names a live slot with a [u32] count. *)
Lemma inv_live d h r :
  guest_inv d -> Slab.get (index_slab0 d) h = Some r ->
  exists w n, ResourceSlab.slots (resource_slab0 d) !! r = Some (Some (ResourceSlab.mk_slot w n)) /\
    1 <= n < 2 ^ 32.
Proof.
  intros (_ & Hwf & Hc) Hg. pose proof (Slab.get_count _ _ _ Hg) as Hpos.
  destruct (Hc r ltac:(unfold handle_count; lia)) as (w & n & Hr & _).
  exists w, n. split; [done|]. apply (Hwf _ _ Hr).
Qed.

Lemma guest_inv_abs d : guest_inv d -> ainv (abs d).
Proof.
  intros Hinv. pose proof Hinv as (_ & Hwf & Hc). split; simpl.
  - intros r v n. rewrite ResourceSlab.view_lookup.
    destruct (ResourceSlab.slots _ !! r) as [[[w m]|]|] eqn:E; simpl; intros; simplify_eq.
    apply (Hwf _ _ E).
  - intros h r. rewrite Slab.to_map_lookup. intros Hg.
    pose proof (Slab.get_count _ _ _ Hg) as Hpos.
    destruct (Hc r ltac:(unfold handle_count; lia)) as (w & n & Hr & Hle).
    exists w, n. rewrite ResourceSlab.view_lookup, Hr. split; [done|].
    unfold handle_count in Hle. by rewrite <- Slab.count_full_view.
Qed.

Lemma dead_step d o h : op_handle o = Some h -> Slab.get (index_slab0 d) h = None ->
  astep (abs d) o (Err InvalidHandle) (abs d).
Proof. intros Ho Hg. apply (AStepDead _ _ h Ho). simpl. by rewrite Slab.to_map_lookup. Qed.

Lemma new_refines s v : guest_inv (guest_data s) -> cap (guest_data s) ->
  refines_step (ANew v) handle_out (resource_new_wapc v) s.
Proof.
  intros (Hwf & _ & _) Hcap.
  destruct (Slab.insert_total _ (length (ResourceSlab.slots (resource_slab0 (guest_data s))))
              Hwf Hcap) as (ix' & h & Hi).
  unfold refines_step, resource_new_wapc, on_data, res_insert, ResourceSlab.insert, index_insert.
  st_simpl. cbn.
  rewrite Hi. cbn. split; [by rewrite set_guest_data_twice|].
  destruct (ResourceSlab.insert_fresh_view (resource_slab0 (guest_data s)) v) as [Ev Efresh]. cbn in Ev.
  unfold abs. cbn. rewrite Nat2Z.id, (Slab.insert_view _ _ _ _ Hi), Ev.
  apply AStepNew; [exact Efresh|]. cbn. rewrite Slab.to_map_lookup. by eapply Slab.insert_fresh.
Qed.

Lemma resource_clone_wapc_overflow s h r w n :
  Slab.get (index_slab0 (guest_data s)) h = Some r ->
  ResourceSlab.slots (resource_slab0 (guest_data s)) !! r = Some (Some (ResourceSlab.mk_slot w n)) ->
  2 ^ 32 <= n + 1 -> resource_clone_wapc (Z.of_nat h) s = (s, Err Overflow).
Proof.
  intros Hg Hr Hn. unfold resource_clone_wapc, on_data, index_get, res_clone. st_simpl.
  rewrite Nat2Z.id, Hg. cbn. unfold ResourceSlab.clone. rewrite Hr. cbn.
  destruct (Z.ltb_spec (n + 1) (2 ^ 32)); [lia|]. by rewrite !set_guest_data_id.
Qed.

Lemma clone_refines s h : guest_inv (guest_data s) -> cap (guest_data s) ->
  refines_step (AClone h) handle_out (resource_clone_wapc (Z.of_nat h)) s.
Proof.
  intros Hinv Hcap. unfold refines_step.
  destruct (Slab.get (index_slab0 (guest_data s)) h) as [r|] eqn:Hg.
  2: { rewrite resource_clone_wapc_stale by done.
       split; [by rewrite set_guest_data_id|]. by apply (dead_step _ _ h). }
  destruct (inv_live _ _ _ Hinv Hg) as (w & n & Hr & Hn).
  assert (Hk : ahandles (abs (guest_data s)) !! h = Some r) by (cbn; by rewrite Slab.to_map_lookup).
  assert (Hv : ares (abs (guest_data s)) !! r = Some (w, n))
    by (cbn; by rewrite ResourceSlab.view_lookup, Hr).
  destruct (Z.lt_ge_cases (n + 1) (2 ^ 32)) as [Hlt|Hge].
  - destruct Hinv as (Hwf & _ & _).
    destruct (Slab.insert_total _ r Hwf Hcap) as (ix' & h' & Hi).
    rewrite (resource_clone_wapc_live _ _ _ _ _ _ Hg (ResourceSlab.clone_live _ _ _ _ Hr Hlt) Hi).
    split; [reflexivity|]. cbn. rewrite Nat2Z.id.
    unfold abs at 2. cbn.
    rewrite (Slab.insert_view _ _ _ _ Hi), ResourceSlab.update_view
      by (eapply lookup_lt_Some; exact Hr).
    cbn. rewrite insert_as_alter. apply (AStepClone (abs (guest_data s)) h r w n h'); [done|done|done|].
    cbn. rewrite Slab.to_map_lookup. by eapply Slab.insert_fresh.
  - rewrite (resource_clone_wapc_overflow _ _ _ _ _ Hg Hr Hge).
    split; [by rewrite set_guest_data_id|]. by eapply AStepOverflow.
Qed.

Lemma get_refines s h : guest_inv (guest_data s) ->
  refines_step (AGet h) value_out (resource_get_wapc (Z.of_nat h)) s.
Proof.
  intros Hinv. unfold refines_step.
  destruct (Slab.get (index_slab0 (guest_data s)) h) as [r|] eqn:Hg.
  2: { rewrite resource_get_wapc_stale by done.
       split; [by rewrite set_guest_data_id|]. by apply (dead_step _ _ h). }
  destruct (inv_live _ _ _ Hinv Hg) as (w & n & Hr & Hn).
  rewrite (resource_get_wapc_live _ _ _ w Hg) by (unfold ResourceSlab.get; by rewrite Hr).
  split; [by rewrite set_guest_data_id|]. apply (AStepGet _ h r w n); cbn.
  - by rewrite Slab.to_map_lookup.
  - by rewrite ResourceSlab.view_lookup, Hr.
Qed.
Lemma delete_as_alter {A} (m : gmap nat A) i : partial_alter (fun _ => None) i m = delete i m.
Proof.
  apply map_eq. intros j. destruct (decide (j = i)) as [->|Hne].
  - by rewrite lookup_partial_alter_eq, lookup_delete_eq.
  - by rewrite lookup_partial_alter_ne, lookup_delete_ne.
Qed.

Lemma drop_inv d h ix' r rs' fin :
  guest_inv d -> Slab.remove (index_slab0 d) h = Some (ix', r) ->
  ResourceSlab.drop (resource_slab0 d) r = Ok (rs', fin) ->
  guest_inv (mk_guest_data ix' rs' (dtor0 d)).
Proof.
  intros (Hwf & Hrs & Hc) Hrem Hd. split_and!; cbn;
    eauto using Slab.remove_wf, ResourceSlab.drop_wf, counts_ok_drop.
Qed.

Lemma drop_refines s h : guest_inv (guest_data s) -> drop_refines_step h s.
Proof.
  intros Hinv. unfold drop_refines_step.
  destruct (Slab.get (index_slab0 (guest_data s)) h) as [r|] eqn:Hg.
  2: { exists (Err InvalidHandle), (abs (guest_data s)).
       split; [by apply (dead_step _ _ h)|]. split; [by apply resource_drop_wapc_stale|done]. }
  destruct (inv_live _ _ _ Hinv Hg) as (w & n & Hr & Hn).
  assert (Hk : ahandles (abs (guest_data s)) !! h = Some r) by (cbn; by rewrite Slab.to_map_lookup).
  assert (Hv : ares (abs (guest_data s)) !! r = Some (w, n))
    by (cbn; by rewrite ResourceSlab.view_lookup, Hr).
  assert (Hlt : (r < length (ResourceSlab.slots (resource_slab0 (guest_data s))))%nat)
    by (eapply lookup_lt_Some; exact Hr).
  destruct (Slab.remove (index_slab0 (guest_data s)) h) as [[ix' r']|] eqn:Hrem;
    [|by apply Slab.remove_None in Hrem; congruence].
  assert (r' = r) as -> by (apply Slab.remove_Some_get in Hrem; congruence).
  destruct (decide (n = 1)) as [->|Hne].
  - pose proof (ResourceSlab.drop_last _ _ _ Hr) as Hd.
    eexists (Ok (OFinal (Some w))), _. split; [by apply (AStepDropLast _ h r w)|].
    eexists. split_and!; [|exact (drop_inv _ _ _ _ _ _ Hinv Hrem Hd)|done|].
    + unfold abs. cbn. rewrite (Slab.remove_view _ _ _ _ Hrem), ResourceSlab.update_view by done.
      cbn. by rewrite delete_as_alter.
    + by rewrite (resource_drop_wapc_live _ _ _ _ _ _ Hrem Hd).
  - pose proof (ResourceSlab.drop_shared _ _ _ _ Hr ltac:(lia)) as Hd.
    eexists (Ok (OFinal None)), _. split; [apply (AStepDropShared _ h r w n); done || lia|].
    eexists. split_and!; [|exact (drop_inv _ _ _ _ _ _ Hinv Hrem Hd)|done|].
    + unfold abs. cbn. rewrite (Slab.remove_view _ _ _ _ Hrem), ResourceSlab.update_view by done.
      cbn. by rewrite insert_as_alter.
    + by rewrite (resource_drop_wapc_live _ _ _ _ _ _ Hrem Hd).
Qed.
End Refinement.

(** ** Runs of intrinsic calls *)
Section Runs.
Context {U W G : Type} `{WapcGuestExports U W G}.
Implicit Types (s : store U W G).

(** One call of an intrinsic by the guest, named by the contract's
    operation; its result is the guest's business, its effect on the
    store is what matters here. *)
Definition run_intrinsic (o : aop) s : store U W G :=
  match o with
  | ANew v => (resource_new_wapc v s).1
  | AClone h => (resource_clone_wapc (Z.of_nat h) s).1
  | AGet h => (resource_get_wapc (Z.of_nat h) s).1
  | ADrop h => (resource_drop_wapc (Z.of_nat h) s).1
  end.

Fixpoint run_intrinsics (os : list aop) s : store U W G :=
  match os with [] => s | o :: os' => run_intrinsics os' (run_intrinsic o s) end.

Definition idx_len s : nat := length (Slab.entries (index_slab0 (guest_data s))).

(** The guest's destructor leaves the host's bookkeeping alone. *)
Hypothesis dtor_keeps_data :
  forall w s, guest_data (canonical_abi_drop_wapc w s).1 = guest_data s.

Lemma call_dtor_keeps_data w s : guest_data (call_dtor w s).1 = guest_data s.
Proof. unfold call_dtor. st_simpl. destruct (dtor0 (guest_data s)); [apply dtor_keeps_data|done]. Qed.

Lemma run_intrinsic_len o s : (idx_len (run_intrinsic o s) <= S (idx_len s))%nat.
Proof.
  unfold idx_len. destruct o; simpl.
  - unfold resource_new_wapc, on_data, res_insert, ResourceSlab.insert, index_insert. st_simpl.
    destruct (Slab.insert _ _) as [[ix h]|] eqn:Ei; simpl; [by eapply Slab.insert_length|lia].
  - unfold resource_clone_wapc, on_data, index_get, res_clone, index_insert, ok_or. st_simpl.
    repeat (case_match; simplify_eq/=); try lia. by eapply Slab.insert_length.
  - unfold resource_get_wapc, on_data, index_get, res_get, ok_or. st_simpl.
    repeat (case_match; simplify_eq/=); lia.
  - unfold resource_drop_wapc, on_data, index_remove, res_drop. st_simpl.
    destruct (Slab.remove _ _) as [[ix r]|] eqn:Er; simpl; [|lia].
    pose proof (Slab.remove_length _ _ _ _ Er).
    destruct (ResourceSlab.drop _ _) as [[rs fin]|]; simpl; [|lia].
    destruct fin; simpl; [rewrite call_dtor_keeps_data|]; simpl; lia.
Qed.

(** One call: a step of the contract, and the invariant again. *)
Lemma run_intrinsic_refines o s :
  guest_inv (guest_data s) -> cap (guest_data s) ->
  (exists out, astep (abs (guest_data s)) o out (abs (guest_data (run_intrinsic o s)))) /\
  guest_inv (guest_data (run_intrinsic o s)).
Proof.
  intros Hinv Hcap. destruct o as [v|h|h|h]; simpl.
  - pose proof (new_refines s v Hinv Hcap) as Hr. unfold refines_step in Hr.
    pose proof (new_keeps_inv s v Hinv) as Hi.
    destruct (resource_new_wapc v s) as [s' out]. destruct Hr as [_ Hs]. eauto.
  - pose proof (clone_refines s h Hinv Hcap) as Hr. unfold refines_step in Hr.
    pose proof (clone_keeps_inv s (Z.of_nat h) Hinv) as Hi.
    destruct (resource_clone_wapc (Z.of_nat h) s) as [s' out]. destruct Hr as [_ Hs]. eauto.
  - pose proof (get_refines s h Hinv) as Hr. unfold refines_step in Hr.
    pose proof (get_keeps_inv s (Z.of_nat h) Hinv) as Hi.
    destruct (resource_get_wapc (Z.of_nat h) s) as [s' out]. destruct Hr as [_ Hs]. eauto.
  - destruct (drop_refines s h Hinv) as (out & σ' & Hs & Hm).
    destruct out as [[| |fin]|e]; [done|done| |].
    + destruct Hm as (d1 & <- & Hinv1 & _ & ->).
      destruct fin as [w|]; simpl; [rewrite call_dtor_keeps_data|]; simpl; eauto.
    + destruct Hm as [-> ->]. simpl. eauto.
Qed.

End Runs.

Section RunsClaim.
Context {U W G : Type} `{WapcGuestExports U W G}.
Implicit Types (s : store U W G).

(** C9: for a guest whose destructor export makes no call back into the
    host's bookkeeping (it leaves [WapcGuestData] as it found it: the
    finalized values own no handles, unlike the re-entrant drops of
    [Cascade]), any sequence [os] of intrinsic calls the guest makes,
    in any order, on any handles, failures included, is matched by a
    run of the handle-table contract from the abstraction of the start
    to the abstraction of the end, and [guest_inv] holds at the end;
    the one bound is that the index table never reaches [2^32] entries
    (each call adds at most one). *)
Theorem intrinsic_runs_refine s os :
  (forall w s', guest_data (canonical_abi_drop_wapc w s').1 = guest_data s') ->
  guest_inv (guest_data s) -> Z.of_nat (idx_len s + length os) < 2 ^ 32 ->
  asteps (abs (guest_data s)) os (abs (guest_data (run_intrinsics os s))) /\
  guest_inv (guest_data (run_intrinsics os s)).
Proof.
  intros Hd. revert s. induction os as [|o os IH]; intros s Hinv Hlen; simpl in *.
  - split; [constructor|done].
  - destruct (run_intrinsic_refines Hd o s Hinv ltac:(unfold cap; unfold idx_len in Hlen; lia))
      as [[out Hs] Hinv1].
    pose proof (run_intrinsic_len Hd o s).
    destruct (IH (run_intrinsic o s) Hinv1 ltac:(lia)) as [Hr Hi].
    split; [econstructor; eauto|done].
Qed.
End RunsClaim.

(** ** The intrinsics against the contract *)
Section Claims.
Context {U W G : Type} `{WapcGuestExports U W G}.
Implicit Types (s : store U W G).

(** C7: from guest data satisfying [guest_inv], with room for one more
    handle, each of the four intrinsics the host registers for the guest
    ([resource_new_wapc], [resource_clone_wapc], [resource_get_wapc],
    [resource_drop_wapc]) takes a step of the handle-table contract
    [astep] on the abstract state [abs]: new and clone issue a handle
    that was not live, get returns the resource's value, drop removes the
    handle and calls the guest's destructor exactly when the contract
    finalizes, on the finalized value; a dead handle fails with
    [InvalidHandle] and a count past [u32::MAX] with [Overflow], both
    without effect.  Only the guest data changes. *)
Theorem intrinsics_refine_table_contract s v h :
  guest_inv (guest_data s) -> cap (guest_data s) ->
  refines_step (ANew v) handle_out (resource_new_wapc v) s /\
  refines_step (AClone h) handle_out (resource_clone_wapc (Z.of_nat h)) s /\
  refines_step (AGet h) value_out (resource_get_wapc (Z.of_nat h)) s /\
  drop_refines_step h s.
Proof.
  intros Hinv Hcap. split_and!; auto using new_refines, clone_refines, get_refines, drop_refines.
Qed.

(** C8: when [resource_drop_wapc h] drops the last reference to [r],
    the guest's destructor is called with [r]'s value on guest data
    that satisfies [guest_inv], in which no guest handle maps to [r] any
    more and [r]'s slot is freed, so that no handle outlives its
    resource even while the destructor runs (spec section 3). *)
Theorem finalize_leaves_no_handle s h r w :
  guest_inv (guest_data s) -> Slab.get (index_slab0 (guest_data s)) h = Some r ->
  ResourceSlab.slots (resource_slab0 (guest_data s)) !! r = Some (Some (ResourceSlab.mk_slot w 1)) ->
  exists d1, resource_drop_wapc (Z.of_nat h) s = call_dtor w (set_guest_data d1 s) /\
    guest_inv d1 /\
    abs d1 = mk_astate (delete h (ahandles (abs (guest_data s))))
               (delete r (ares (abs (guest_data s)))) /\
    ResourceSlab.get (resource_slab0 d1) r = Err InvalidSlot /\
    forall h', Slab.get (index_slab0 d1) h' <> Some r.
Proof.
  intros Hinv Hg Hr.
  assert (Hk : ahandles (abs (guest_data s)) !! h = Some r) by (cbn; by rewrite Slab.to_map_lookup).
  assert (Hv : ares (abs (guest_data s)) !! r = Some (w, 1))
    by (cbn; by rewrite ResourceSlab.view_lookup, Hr).
  destruct (drop_refines s h Hinv) as (out & σ' & Hs & Hm).
  destruct (drop_step_last _ _ _ _ _ _ Hk Hv Hs) as [-> Hσ'].
  destruct Hm as (d1 & Habs & Hinv1 & _ & Hdrop).
  destruct (finalize_no_dangling _ _ _ _ _ (guest_inv_abs _ Hinv) Hk Hs) as [Hgone Hnone].
  rewrite <- Habs in Hgone, Hnone.
  exists d1. split_and!; [done|done|congruence| |].
  - cbn in Hgone. rewrite ResourceSlab.view_lookup in Hgone. unfold ResourceSlab.get.
    destruct (ResourceSlab.slots (resource_slab0 d1) !! r) as [[sl|]|];
      [discriminate Hgone|done|done].
  - intros h'. specialize (Hnone h'). cbn in Hnone.
    by rewrite Slab.to_map_lookup in Hnone.
Qed.
End Claims.

(** ** Witnesses, on the test guest of [GuestExports] *)

(** One guest handle, 0, to resource 0 holding [42] with count 1. *)
Definition one_handle : store unit unit (list Z) :=
  mk_store (mk_guest_data (Slab.mk_slab [Slab.Full 0%nat] 1)
              (ResourceSlab.mk_rslab [Some (ResourceSlab.mk_slot 42 1)]) (Some tt))
    tt WapcHostTables_default [] [].

Lemma one_handle_inv : guest_inv (guest_data one_handle).
Proof.
  split_and!.
  - exists []. cbn beta. split_and!; [apply (Slab.chain_end [Slab.Full 0%nat])|constructor|].
    intros [|i] j Hi; simpl in Hi; simplify_eq; by rewrite lookup_nil in Hi.
  - intros [|i] sl Hi; simpl in Hi; simplify_eq/=. lia.
  - intros r Hpos. unfold handle_count in Hpos. simpl in Hpos.
    destruct (decide (r = 0%nat)) as [->|]; [|simpl in Hpos; lia].
    exists 42, 1. split; [reflexivity|]. unfold handle_count. simpl. lia.
Qed.

Lemma intrinsics_refine_table_contract_witness :
  guest_inv (guest_data two_handles) /\ cap (guest_data two_handles) /\
  (refines_step (ANew 5) handle_out (resource_new_wapc 5) two_handles /\
   refines_step (AClone 1) handle_out (resource_clone_wapc (Z.of_nat 1)) two_handles /\
   refines_step (AGet 1) value_out (resource_get_wapc (Z.of_nat 1)) two_handles /\
   @drop_refines_step _ _ _ rec_guest 1 two_handles).
Proof.
  assert (Hc : cap (guest_data two_handles)) by (unfold cap; simpl; lia).
  refine (conj two_handles_inv (conj Hc _)).
  apply (@intrinsics_refine_table_contract _ _ _ rec_guest two_handles 5 1 two_handles_inv Hc).
Defined.

Lemma finalize_leaves_no_handle_witness :
  guest_inv (guest_data one_handle) /\
  Slab.get (index_slab0 (guest_data one_handle)) 0 = Some 0%nat /\
  ResourceSlab.slots (resource_slab0 (guest_data one_handle)) !! 0%nat =
    Some (Some (ResourceSlab.mk_slot 42 1)) /\
  exists d1, @resource_drop_wapc _ _ _ rec_guest (Z.of_nat 0) one_handle =
               @call_dtor _ _ _ rec_guest 42 (set_guest_data d1 one_handle) /\
    guest_inv d1 /\
    abs d1 = mk_astate (delete 0%nat (ahandles (abs (guest_data one_handle))))
               (delete 0%nat (ares (abs (guest_data one_handle)))) /\
    ResourceSlab.get (resource_slab0 d1) 0 = Err InvalidSlot /\
    forall h', Slab.get (index_slab0 d1) h' <> Some 0%nat.
Proof.
  refine (conj one_handle_inv (conj eq_refl (conj eq_refl _))).
  apply (@finalize_leaves_no_handle _ _ _ rec_guest one_handle 0 0 42 one_handle_inv);
    reflexivity.
Defined.

(** Clone handle 0, drop handle 1, drop handle 0, make a resource,
    read the clone: a run from two handles to one resource. *)
Definition sample_run : list aop := [AClone 0; ADrop 1; ADrop 0; ANew 9; AGet 2].

Lemma intrinsic_runs_refine_witness :
  (forall w s, guest_data (@canonical_abi_drop_wapc _ _ _ rec_guest w s).1 = guest_data s) /\
  guest_inv (guest_data two_handles) /\
  Z.of_nat (idx_len two_handles + length sample_run) < 2 ^ 32 /\
  (asteps (abs (guest_data two_handles)) sample_run
     (abs (guest_data (@run_intrinsics _ _ _ rec_guest sample_run two_handles))) /\
   guest_inv (guest_data (@run_intrinsics _ _ _ rec_guest sample_run two_handles))).
Proof.
  assert (Hd : forall w s, guest_data (@canonical_abi_drop_wapc _ _ _ rec_guest w s).1 = guest_data s)
    by reflexivity.
  assert (Hl : Z.of_nat (idx_len two_handles + length sample_run) < 2 ^ 32)
    by (vm_compute; reflexivity).
  refine (conj Hd (conj two_handles_inv (conj Hl _))).
  apply (@intrinsic_runs_refine _ _ _ rec_guest two_handles sample_run Hd two_handles_inv Hl).
Defined.

End GuestTable.
