(* ===== verification/Teardown.v ===== *)
(** * Teardown: dropping every guest handle empties the table

    The guest's handles to its own resources are [Handle<Wapc>]s, whose
    drop is [HandleType::drop] (src/guest/bindings.rs lines 146-163):
    every handle the guest holds is eventually dropped through
    the host intrinsic [canonical_abi::resource_drop_wapc]
    (src/host/bindings.rs lines 38-52).  This file shows that this
    always gets the table back to empty: from any state of the handle
    table where every reference is a guest handle (the host never holds
    a [wapc_guest::Wapc], whose field is private), dropping all the
    live handles, in any order, is a run of the contract of
    [GuestTable] that ends in the empty table; and the intrinsics
    themselves, in any order, all succeed, call the guest destructor
    exactly once on each live value, and leave no live handle and no
    live resource. *)

From S2P Require Import Prelude Slab ResourceSlab Store GuestExports GuestTable.

Module Teardown.
Import WapcGuest GuestTable.

(** ** The contract *)

(** Every resource's count is the number of handles to it. *)
Definition counts_exact (σ : astate) : Prop :=
  map_Forall (fun r vn => Z.of_nat (count_val (ahandles σ) r) = vn.2) (ares σ).

#[export] Instance counts_exact_dec σ : Decision (counts_exact σ).
Proof. unfold counts_exact. apply _. Defined.

(** The values of the live resources, one per resource. *)
Definition vals (σ : astate) : list Z := (map_to_list (ares σ)).*2.*1.

(** [hs] lists the live handles of [σ], each once. *)
Definition lists_handles (σ : astate) (hs : list nat) : Prop :=
  NoDup hs /\ forall h, h ∈ hs <-> is_Some (ahandles σ !! h).

Definition aempty : astate := mk_astate ∅ ∅.

(** Runs of the contract with their outputs. *)
Inductive aruns : astate -> list aop -> list (result aout) -> astate -> Prop :=
  | aruns_nil σ : aruns σ [] [] σ
  | aruns_cons σ o out σ1 os outs σ2 :
      astep σ o out σ1 -> aruns σ1 os outs σ2 -> aruns σ (o :: os) (out :: outs) σ2.

(** The values a run finalized, in order. *)
Definition finals (outs : list (result aout)) : list Z :=
  omap (fun o => match o with Ok (OFinal (Some v)) => Some v | _ => None end) outs.

Implicit Types (σ : astate).

Lemma count_val_empty r : count_val (∅ : gmap nat nat) r = 0%nat.
Proof. unfold count_val. by rewrite map_filter_empty, map_size_empty. Qed.

(** With exact counts, no handle means no resource. *)
Lemma exact_no_handles σ :
  ainv σ -> counts_exact σ -> ahandles σ = ∅ -> σ = aempty.
Proof.
  intros [Hres _] Hex Hh. destruct σ as [hs res]; simpl in *; subst.
  unfold aempty. f_equal. apply map_empty. intros r.
  destruct (res !! r) as [[v n]|] eqn:E; [|done].
  pose proof (Hres _ _ _ E). specialize (Hex _ _ E). simpl in Hex.
  rewrite count_val_empty in Hex. lia.
Qed.

Lemma lists_handles_nil σ : lists_handles σ [] -> ahandles σ = ∅.
Proof.
  intros [_ Hin]. apply map_empty. intros h.
  destruct (ahandles σ !! h) eqn:E; [|done].
  assert (Hh : h ∈ ([] : list nat)) by (apply Hin; by eexists). set_solver.
Qed.

Lemma lists_handles_cons σ h hs :
  lists_handles σ (h :: hs) ->
  is_Some (ahandles σ !! h) /\ forall m, m = delete h (ahandles σ) ->
  NoDup hs /\ forall h', h' ∈ hs <-> is_Some (m !! h').
Proof.
  intros [Hnd Hin]. apply NoDup_cons in Hnd as [Hnin Hnd].
  split; [apply Hin; set_solver|]. intros m ->. split; [done|].
  intros h'. rewrite lookup_delete_is_Some. split.
  - intros Hh'. split; [set_solver|]. apply Hin. set_solver.
  - intros [Hne Hs]. apply Hin in Hs. set_solver.
Qed.

(** Dropping a live handle, with exact counts: the step exists. *)
Lemma drop_progress σ h r :
  ainv σ -> ahandles σ !! h = Some r -> exists out σ', astep σ (ADrop h) out σ'.
Proof.
  intros Hinv Hk. destruct (proj2 Hinv h r Hk) as (v & n & Hr & _).
  pose proof (proj1 Hinv _ _ _ Hr).
  destruct (decide (n = 1)) as [->|Hne]; eexists _, _.
  - by apply AStepDropLast.
  - apply AStepDropShared; [done|done|lia].
Qed.

Lemma vals_delete (m : gmap nat (Z * Z)) r v n :
  m !! r = Some (v, n) -> (map_to_list m).*2.*1 ≡ₚ v :: (map_to_list (delete r m)).*2.*1.
Proof. intros Hr. by rewrite <- (map_to_list_delete m r _ Hr). Qed.

Lemma vals_insert (m : gmap nat (Z * Z)) r v n n' :
  m !! r = Some (v, n) -> (map_to_list (<[r := (v, n')]> m)).*2.*1 ≡ₚ (map_to_list m).*2.*1.
Proof.
  intros Hr. rewrite (vals_delete _ r v n' (lookup_insert_eq _ _ _)), delete_insert_eq.
  by rewrite (vals_delete m r v n Hr).
Qed.

(** Dropping a handle of [r] keeps the other resources' counts exact. *)
Lemma exact_delete σ h r r' n' :
  ahandles σ !! h = Some r -> r' <> r -> counts_exact σ -> ares σ !! r' = Some n' ->
  Z.of_nat (count_val (delete h (ahandles σ)) r') = n'.2.
Proof.
  intros Hk Hne Hex Hr'. pose proof (count_val_delete _ _ _ r' Hk) as E.
  rewrite decide_False in E by congruence. rewrite <- (Hex _ _ Hr'). lia.
Qed.

(** One drop of a live handle under exact counts: it finalizes the
    resource's value when it was the last handle, keeps the invariant
    and the exact counts, removes exactly that handle, and moves the
    finalized value, and only it, out of the live values. *)
Lemma drop_exact_step σ h r out σ' :
  ainv σ -> counts_exact σ -> ahandles σ !! h = Some r -> astep σ (ADrop h) out σ' ->
  exists fin, out = Ok (OFinal fin) /\ ainv σ' /\ counts_exact σ' /\
    ahandles σ' = delete h (ahandles σ) /\ vals σ ≡ₚ option_list fin ++ vals σ'.
Proof.
  intros Hinv Hex Hk Hs. pose proof (astep_ainv _ _ _ _ Hinv Hs) as Hinv'.
  pose proof (count_val_delete _ _ _ r Hk) as Ec. rewrite decide_True in Ec by done.
  inversion Hs as [| | | |σ0 h0 r0 v n Hk0 Hr Hn|σ0 h0 r0 v Hk0 Hr|σ0 o h0 Ho Hk0];
    subst; simplify_eq; unfold vals; simpl.
  - exists None. split_and!; try done; [|by rewrite (vals_insert _ _ _ _ _ Hr)].
    intros r' vn. simpl. rewrite lookup_insert_Some. intros [[<- <-]|[Hne Hr']].
    + specialize (Hex _ _ Hr). simpl in *. lia.
    + apply (exact_delete σ h r); [done|by intros ->|done..].
  - exists (Some v). split_and!; try done; [|by rewrite (vals_delete _ _ _ _ Hr)].
    intros r' vn. simpl. rewrite lookup_delete_Some. intros [Hne Hr'].
    apply (exact_delete σ h r); [done|by intros ->|done..].
  - simpl in Ho. by simplify_eq.
Qed.

Lemma drops_exist σ hs :
  ainv σ -> counts_exact σ -> lists_handles σ hs -> exists outs, aruns σ (map ADrop hs) outs aempty.
Proof.
  revert σ. induction hs as [|h hs IH]; intros σ Hinv Hex Hl.
  - rewrite (exact_no_handles σ Hinv Hex (lists_handles_nil σ Hl)). eexists. constructor.
  - destruct (lists_handles_cons σ h hs Hl) as [[r Hk] Hl'].
    destruct (drop_progress σ h r Hinv Hk) as (out & σ1 & Hs).
    destruct (drop_exact_step σ h r out σ1 Hinv Hex Hk Hs) as (fin & _ & Hinv1 & Hex1 & Hh1 & _).
    destruct (IH σ1 Hinv1 Hex1 (Hl' _ Hh1)) as [outs Hr]. eexists. by econstructor.
Qed.

Lemma drops_all σ hs outs σ' :
  ainv σ -> counts_exact σ -> lists_handles σ hs -> aruns σ (map ADrop hs) outs σ' ->
  σ' = aempty /\ Forall (fun o => exists fin, o = Ok (OFinal fin)) outs /\ finals outs ≡ₚ vals σ.
Proof.
  revert σ outs. induction hs as [|h hs IH]; intros σ outs Hinv Hex Hl Hr.
  - rewrite (exact_no_handles σ Hinv Hex (lists_handles_nil σ Hl)) in Hr |- *.
    inversion Hr; subst. split_and!; [done|constructor|]. unfold vals; simpl. by rewrite map_to_list_empty.
  - destruct (lists_handles_cons σ h hs Hl) as [[r Hk] Hl'].
    simpl in Hr. inversion_clear Hr as [|? ? out σ1 ? outs1 ? Hs Hr1].
    destruct (drop_exact_step σ h r out σ1 Hinv Hex Hk Hs) as (fin & -> & Hinv1 & Hex1 & Hh1 & Hv).
    destruct (IH σ1 outs1 Hinv1 Hex1 (Hl' _ Hh1) Hr1) as (-> & Hf & Hfin).
    split_and!; [done|by constructor; eauto|]. rewrite Hv, <- Hfin. by destruct fin.
Qed.

(** ** The intrinsics *)
Section Intrinsics.
Context {U W G : Type} `{WapcGuestExports U W G}.
Implicit Types (s : store U W G).

(** The guest's destructor, observed as in [GuestExports]: it records
    the finalized value in the guest's state and touches nothing else. *)
Variable note : Z -> G -> G.
Hypothesis dtor_records :
  forall w s, canonical_abi_drop_wapc w s = (set_guest (note w (guest s)) s, Ok tt).

Definition notes (g : G) (ws : list Z) : G := foldl (fun g w => note w g) g ws.

(** One call of [resource_drop_wapc] on a live handle, with the
    destructor registered and exact counts: it succeeds, keeps the
    invariants, takes the contract's drop step, and runs the destructor
    on the finalized value, if any. *)
Lemma drop_intrinsic_step s h r :
  guest_inv (guest_data s) -> dtor0 (guest_data s) = Some tt ->
  counts_exact (abs (guest_data s)) -> ahandles (abs (guest_data s)) !! h = Some r ->
  exists fin s1, resource_drop_wapc (Z.of_nat h) s = (s1, Ok tt) /\
    guest_inv (guest_data s1) /\ dtor0 (guest_data s1) = Some tt /\
    astep (abs (guest_data s)) (ADrop h) (Ok (OFinal fin)) (abs (guest_data s1)) /\
    guest s1 = notes (guest s) (option_list fin).
Proof.
  intros Hinv Hd Hex Hk. destruct (drop_refines s h Hinv) as (out & σ' & Hs & Hm).
  destruct (drop_exact_step _ h r out σ' (guest_inv_abs _ Hinv) Hex Hk Hs) as (fin & -> & _).
  destruct Hm as (d1 & <- & Hinv1 & Hd1 & ->). rewrite Hd in Hd1.
  destruct fin as [v|]; eexists _, _; split_and!;
    [rewrite call_dtor_set, dtor_records by done|..]; done.
Qed.

(** C10: teardown.  Let every reference of the guest's resource table be
    a guest handle (the counts are exact), the destructor be registered,
    and [hs] list every live handle once, in any order.  Then dropping
    them all through [resource_drop_wapc] always completes: every call
    succeeds, the destructor runs exactly once on each live value (the
    values it ran on, in the order it ran, are a permutation [ws] of the
    live values) and nothing else touches the guest, and at the end no
    handle and no resource is left. *)
Theorem guest_teardown_finalizes_all s hs :
  guest_inv (guest_data s) -> dtor0 (guest_data s) = Some tt ->
  counts_exact (abs (guest_data s)) -> lists_handles (abs (guest_data s)) hs ->
  exists s' ws, drop_all hs s = (s', Ok tt) /\ ws ≡ₚ vals (abs (guest_data s)) /\
    guest s' = notes (guest s) ws /\ abs (guest_data s') = aempty.
Proof.
  revert s. induction hs as [|h hs IH]; intros s Hinv Hd Hex Hl.
  - pose proof (exact_no_handles _ (guest_inv_abs _ Hinv) Hex (lists_handles_nil _ Hl)) as Ha.
    exists s, []. rewrite Ha. unfold vals. simpl. by rewrite map_to_list_empty.
  - destruct (lists_handles_cons _ h hs Hl) as [[r Hk] Hl'].
    destruct (drop_intrinsic_step s h r Hinv Hd Hex Hk) as (fin & s1 & Hrun & Hinv1 & Hd1 & Hs & Hg).
    destruct (drop_exact_step _ h r _ _ (guest_inv_abs _ Hinv) Hex Hk Hs)
      as (? & [= <-] & _ & Hex1 & Hh1 & Hv).
    destruct (IH s1 Hinv1 Hd1 Hex1 (Hl' _ Hh1)) as (s' & ws & Hrun' & Hws & Hg' & Ha).
    exists s', (option_list fin ++ ws). rewrite (drop_all_cons _ _ _ _ Hrun).
    split_and!; [done|by rewrite Hv, Hws|unfold notes in *; by rewrite Hg', Hg, foldl_app|done].
Qed.
End Intrinsics.

(** ** A table with shared and unshared resources *)

(** Handles [0] and [2] to resource [0] holding [42] (two references),
    handle [1] to resource [1] holding [7] (one reference). *)
Definition three_handles : store unit unit (list Z) :=
  mk_store (mk_guest_data (Slab.mk_slab [Slab.Full 0%nat; Slab.Full 1%nat; Slab.Full 0%nat] 3)
              (ResourceSlab.mk_rslab [Some (ResourceSlab.mk_slot 42 2);
                                      Some (ResourceSlab.mk_slot 7 1)]) (Some tt))
    tt WapcHostTables_default [] [].

Lemma three_handles_inv : guest_inv (guest_data three_handles).
Proof.
  split_and!.
  - exists []. cbn beta. split_and!; [apply (Slab.chain_end [_; _; _])|constructor|].
    intros i j Hi. by repeat (destruct i as [|i]; simpl in Hi; simplify_eq).
  - intros i sl Hi. repeat (destruct i as [|i]; simpl in Hi; simplify_eq/=; try lia).
  - intros r Hpos. unfold handle_count in *. simpl in *.
    repeat (destruct r as [|r]; simpl in *; [eexists _, _; split; [reflexivity|]; simpl; lia|]).
    lia.
Qed.

Lemma guest_teardown_finalizes_all_witness :
  (forall w s, @canonical_abi_drop_wapc _ _ _ rec_guest w s = (set_guest (guest s ++ [w]) s, Ok tt)) /\
  guest_inv (guest_data three_handles) /\ dtor0 (guest_data three_handles) = Some tt /\
  counts_exact (abs (guest_data three_handles)) /\
  lists_handles (abs (guest_data three_handles)) [2%nat; 1%nat; 0%nat] /\
  exists s' ws, @drop_all _ _ _ rec_guest [2%nat; 1%nat; 0%nat] three_handles = (s', Ok tt) /\
    ws ≡ₚ vals (abs (guest_data three_handles)) /\
    guest s' = notes (fun w g => g ++ [w]) (guest three_handles) ws /\
    abs (guest_data s') = aempty.
Proof.
  assert (Hd : forall w s, @canonical_abi_drop_wapc _ _ _ rec_guest w s =
                 (set_guest (guest s ++ [w]) s, Ok tt)) by reflexivity.
  assert (Hex : counts_exact (abs (guest_data three_handles)))
    by (apply (bool_decide_unpack _); vm_compute; reflexivity).
  assert (Hl : lists_handles (abs (guest_data three_handles)) [2%nat; 1%nat; 0%nat]).
  { split; [repeat constructor; set_solver|].
    intros h. unfold abs. cbn [ahandles]. rewrite Slab.to_map_lookup. split.
    - intros Hh. apply list_elem_of_In in Hh as [<-|[<-|[<-|[]]]]; by eexists.
    - intros [r Hr]. destruct h as [|[|[|h]]]; [set_solver..|done]. }
  refine (conj Hd (conj three_handles_inv (conj eq_refl (conj Hex (conj Hl _))))).
  exact (guest_teardown_finalizes_all _ Hd three_handles _ three_handles_inv eq_refl Hex Hl).
Defined.

(** The order the destructor runs in follows the order of the drops:
    dropping [2], [1], [0] finalizes [7] (handle [1]'s only reference)
    and then [42] (when its second handle goes). *)
Example teardown_order :
  guest (@drop_all _ _ _ rec_guest [2%nat; 1%nat; 0%nat] three_handles).1 = [7; 42] /\
  guest (@drop_all _ _ _ rec_guest [0%nat; 2%nat; 1%nat] three_handles).1 = [42; 7].
Proof. split; reflexivity. Qed.
End Teardown.
