(* ===== verification/HostImports.v ===== *)
(** * HostImports: the host functions the guest imports from [wapc-host]

    The [wapc_host] module of src/host/bindings.rs (lines 285-456).  The
    host owns the [wapc] resources here: the embedder implements the
    trait [WapcHost] (lines 289-309), and the guest holds handles into
    [WapcHostTables.wapc_table].  [add_to_linker] (lines 321-454)
    registers five closures; each looks the handle up (a stale one traps
    with "invalid handle index"), copies its string and byte arguments
    out of guest memory through a [BorrowChecker] (bounds and UTF-8
    checked), and only then calls the host trait.  The closures are
    modelled one per definition, named after their import names. *)

From S2P Require Import Prelude Slab Memory Store.

Module WapcHostImports.

(** [trait WapcHost] with [type Wapc = W]: the embedder's methods on its
    state [U].  Strings are their UTF-8 bytes. *)
Class WapcHost (U W : Type) := {
  wapc_init_host_request : W -> list Memory.byte -> list Memory.byte -> list Memory.byte ->
                           list Memory.byte -> U -> U * Z;
  wapc_on_guest_response : W -> Z -> list Memory.byte -> U -> U;
  wapc_on_guest_error : W -> Z -> list Memory.byte -> U -> U;
  wapc_console_log : W -> list Memory.byte -> U -> U;
  drop_wapc : W -> U -> U;
}.

Section Linker.
Context {U W G : Type} `{WapcHost U W}.
Local Abbreviation S := (store U W G).

  (** [_tables.wapc_table.get((arg0) as u32).ok_or_else(|| Trap::new("invalid handle index"))?] *)
Definition lookup_handle (arg0 : Z) : St S W :=
    fun s => (s, ok_or (Slab.get (wapc_table (tables s)) (Z.to_nat (as_u32 arg0))) InvalidHandle).

  (** [_bc.slice(ptr, len)?] and [_bc.slice_str(ptr, len)?] on the
      caller's [memory]. *)
Definition read_bytes (ptr len : Z) : St S (list Memory.byte) :=
    fun s => (s, Memory.slice (memory s) ptr len).
Definition read_str (ptr len : Z) : St S (list Memory.byte) :=
    fun s => (s, Memory.slice_str (memory s) ptr len).

  (** The call into the host trait, on [host]. *)
Definition call_host {A} (f : U -> U * A) : St S A :=
    fun s => let '(u', a) := f (host s) in (set_host u' s, Ok a).

  (** ["wapc::init-host-request"] (lines 329-366). *)
Definition init_host_request_import (arg0 arg1 arg2 arg3 arg4 arg5 arg6 arg7 arg8 : Z)
      : St S Z :=
    let* param0 := lookup_handle arg0 in
    let* param1 := read_str arg1 arg2 in
    let* param2 := read_str arg3 arg4 in
    let* param3 := read_str arg5 arg6 in
    let* param4 := read_bytes arg7 arg8 in
    let* result := call_host (wapc_init_host_request param0 param1 param2 param3 param4) in
    ret (as_i32 result).

  (** ["wapc::on-guest-response"] (lines 367-392). *)
Definition on_guest_response_import (arg0 arg1 arg2 arg3 : Z) : St S unit :=
    let* param0 := lookup_handle arg0 in
    let param1 := as_u32 arg1 in
    let* param2 := read_bytes arg2 arg3 in
    call_host (fun u => (wapc_on_guest_response param0 param1 param2 u, tt)).

  (** ["wapc::on-guest-error"] (lines 393-418). *)
Definition on_guest_error_import (arg0 arg1 arg2 arg3 : Z) : St S unit :=
    let* param0 := lookup_handle arg0 in
    let param1 := as_u32 arg1 in
    let* param2 := read_bytes arg2 arg3 in
    call_host (fun u => (wapc_on_guest_error param0 param1 param2 u, tt)).

  (** ["wapc::console-log"] (lines 419-439). *)
Definition console_log_import (arg0 arg1 arg2 : Z) : St S unit :=
    let* param0 := lookup_handle arg0 in
    let* param1 := read_str arg1 arg2 in
    call_host (fun u => (wapc_console_log param0 param1 u, tt)).

  (** ["canonical_abi" "resource_drop_wapc"] (lines 440-452): remove the
      handle ("failed to remove handle" on a stale one) and hand the
      resource to [WapcHost::drop_wapc]. *)
Definition resource_drop_wapc_import (handle : Z) : St S unit :=
    fun s =>
      match Slab.remove (wapc_table (tables s)) (Z.to_nat handle) with
      | Some (t', w) =>
          call_host (fun u => (drop_wapc w u, tt)) (set_tables (mk_host_tables t') s)
      | None => (s, Err InvalidHandle)
      end.
End Linker.

(** ** The closures, branch by branch *)
Section Lemmas.
Context {U W G : Type} `{WapcHost U W}.
Implicit Types (s : store U W G).

Definition live_handle s (arg0 : Z) (w : W) : Prop :=
    Slab.get (wapc_table (tables s)) (Z.to_nat (as_u32 arg0)) = Some w.

Lemma set_host_id s : set_host (host s) s = s.
  Proof. by destruct s. Qed.

  (** A computation that, when it fails, fails before changing the store. *)
Definition frame_on_err {A} (m : St (store U W G) A) : Prop :=
    forall s s' e, m s = (s', Err e) -> s' = s.
End Lemmas.

(** Unfold a closure into its steps and case on each outcome. *)
Ltac closure_cases :=
  unfold lookup_handle, read_str, read_bytes, call_host, ok_or in *; st_simpl;
  repeat (case_match; simplify_eq/=).

Section Claims.
Context {U W G : Type} `{WapcHost U W}.
Implicit Types (s : store U W G).

  (** A call with a live handle and in-bounds, well-formed arguments
    invokes the host trait once, on exactly the guest's bytes. *)
Lemma init_host_request_ok s a0 a1 a2 a3 a4 a5 a6 a7 a8 w b1 b2 b3 b4 :
    live_handle s a0 w ->
    Memory.slice_str (memory s) a1 a2 = Ok b1 ->
    Memory.slice_str (memory s) a3 a4 = Ok b2 ->
    Memory.slice_str (memory s) a5 a6 = Ok b3 ->
    Memory.slice (memory s) a7 a8 = Ok b4 ->
    init_host_request_import a0 a1 a2 a3 a4 a5 a6 a7 a8 s =
      let '(u', code) := wapc_init_host_request w b1 b2 b3 b4 (host s) in
      (set_host u' s, Ok (as_i32 code)).
  Proof.
    unfold live_handle. intros Hh H1 H2 H3 H4.
    unfold init_host_request_import, lookup_handle, read_str, read_bytes, call_host.
    st_simpl. unfold ok_or. rewrite Hh, H1, H2, H3, H4. simpl.
    by destruct (wapc_init_host_request w b1 b2 b3 b4 (host s)).
  Qed.

  (** C26: ["wapc::init-host-request"] fails cleanly: whatever the
      arguments, a failing call leaves the store unchanged (the host
      trait never ran), and a stale handle fails with [InvalidHandle]
      before any guest memory is read. *)
Theorem init_host_request_fails_cleanly s a0 a1 a2 a3 a4 a5 a6 a7 a8 :
    frame_on_err (init_host_request_import (G := G) a0 a1 a2 a3 a4 a5 a6 a7 a8) /\
    (Slab.get (wapc_table (tables s)) (Z.to_nat (as_u32 a0)) = None ->
     init_host_request_import a0 a1 a2 a3 a4 a5 a6 a7 a8 s = (s, Err InvalidHandle)).
  Proof.
    split.
    - intros s0 s' e. unfold init_host_request_import. closure_cases; congruence.
    - intros Hg. unfold init_host_request_import, lookup_handle, ok_or. st_simpl. by rewrite Hg.
  Qed.

  (** C27: ["wapc::console-log"] on a live handle, branch by branch: a
      range that ends past the guest's memory fails with [OutOfBounds]
      (also for an empty range starting past the end), bytes that are
      not well-formed UTF-8 fail with [InvalidUtf8], both without
      reaching the host; otherwise the host's log sink receives exactly
      the guest's bytes. *)
Theorem console_log_checks s a0 a1 a2 w :
    live_handle s a0 w ->
    (Z.of_nat (length (memory s)) < as_u32 a1 + as_u32 a2 ->
       console_log_import a0 a1 a2 s = (s, Err OutOfBounds)) /\
    (forall bs, Memory.slice (memory s) a1 a2 = Ok bs -> Memory.valid_utf8 bs = false ->
       console_log_import a0 a1 a2 s = (s, Err InvalidUtf8)) /\
    (forall bs, Memory.slice_str (memory s) a1 a2 = Ok bs ->
       console_log_import a0 a1 a2 s = (set_host (wapc_console_log w bs (host s)) s, Ok tt)).
  Proof.
    unfold live_handle. intros Hh. unfold console_log_import, lookup_handle, read_str, call_host.
    st_simpl. unfold ok_or. rewrite Hh. simpl. split_and!.
    - intros Hlt. unfold Memory.slice_str. by rewrite Memory.slice_oob.
    - intros bs Hs Hu. unfold Memory.slice_str. rewrite Hs. simpl.
      unfold Memory.from_utf8. by rewrite Hu.
    - intros bs Hs. by rewrite Hs.
  Qed.

  (** The host-resource drop closure on a live handle: it removes the
      handle, hands the resource to [WapcHost::drop_wapc], and touches
      neither the guest's data nor its memory; on a dead handle it fails
      with [InvalidHandle] and changes nothing. *)
Lemma drop_import_live s h w :
    Slab.get (wapc_table (tables s)) h = Some w ->
    exists s', resource_drop_wapc_import (Z.of_nat h) s = (s', Ok tt) /\
      host s' = drop_wapc w (host s) /\ Slab.get (wapc_table (tables s')) h = None /\
      guest_data s' = guest_data s /\ memory s' = memory s.
  Proof.
    intros Hg. pose proof (Slab.remove_of_get _ _ _ Hg) as Hr.
    set (t' := Slab.mk_slab _ h) in Hr.
    exists (set_host (drop_wapc w (host s)) (set_tables (mk_host_tables t') s)).
    split_and!; [|done|by cbn; rewrite (Slab.remove_get _ _ _ _ h Hr), decide_True|done|done].
    unfold resource_drop_wapc_import. cbn beta. by rewrite Nat2Z.id, Hr.
  Qed.

Lemma drop_import_dead s h :
    Slab.get (wapc_table (tables s)) h = None ->
    resource_drop_wapc_import (Z.of_nat h) s = (s, Err InvalidHandle).
  Proof.
    intros Hg. unfold resource_drop_wapc_import. by rewrite Nat2Z.id, (proj2 (Slab.remove_None _ _) Hg).
  Qed.

  (** C28: ["canonical_abi" "resource_drop_wapc"] on a live handle to a
      host resource [w] removes the handle, hands [w] to
      [WapcHost::drop_wapc], and from then on a request naming that
      handle fails with [InvalidHandle]; on a stale handle it fails
      with [InvalidHandle] and changes nothing. *)
Theorem host_handle_drop s h w :
    Z.of_nat h < 2 ^ 32 ->
    Slab.get (wapc_table (tables s)) h = Some w ->
    exists s', resource_drop_wapc_import (Z.of_nat h) s = (s', Ok tt) /\
      host s' = drop_wapc w (host s) /\
      resource_drop_wapc_import (Z.of_nat h) s' = (s', Err InvalidHandle) /\
      forall a1 a2 a3 a4 a5 a6 a7 a8,
        init_host_request_import (Z.of_nat h) a1 a2 a3 a4 a5 a6 a7 a8 s' = (s', Err InvalidHandle).
  Proof.
    intros Hb Hg. destruct (drop_import_live s h w Hg) as (s' & E & Hh & Hg' & _).
    exists s'. split_and!; [exact E|exact Hh|by apply drop_import_dead|].
    intros. unfold init_host_request_import, lookup_handle, ok_or. st_simpl.
    rewrite as_u32_id, Nat2Z.id by (unfold is_u32; lia). by rewrite Hg'.
  Qed.
End Claims.

(** ** A test host

    A host whose log sink and request handler append what they receive
    to the host state; it only instantiates the theorems. *)
#[local] Instance test_host : WapcHost (list (list Memory.byte)) nat := {|
  wapc_init_host_request := fun _ _ _ op _ u => (u ++ [op], 0);
  wapc_on_guest_response := fun _ _ bs u => u ++ [bs];
  wapc_on_guest_error := fun _ _ bs u => u ++ [bs];
  wapc_console_log := fun _ m u => u ++ [m];
  drop_wapc := fun _ u => u;
|}.

(** Guest memory holding "demo", "add" and the payload [2; 3]; handle 0
    names host resource 0. *)
Definition demo_memory : list Memory.byte :=
  [Byte.x64; Byte.x65; Byte.x6d; Byte.x6f; Byte.x61; Byte.x64; Byte.x64; Byte.x02; Byte.x03].

Definition host_store : store (list (list Memory.byte)) nat unit :=
  mk_store WapcGuestData_default [] (mk_host_tables (Slab.mk_slab [Slab.Full 0%nat] 1))
    demo_memory tt.


Lemma init_host_request_fails_cleanly_witness :
  Slab.get (wapc_table (tables host_store)) (Z.to_nat (as_u32 3)) = None /\
  init_host_request_import 3 0 4 0 4 4 3 7 2 host_store = (host_store, Err InvalidHandle).
Proof.
  split; [reflexivity|].
  apply (proj2 (init_host_request_fails_cleanly host_store 3 0 4 0 4 4 3 7 2)). reflexivity.
Defined.

Lemma console_log_checks_witness :
  live_handle host_store 0 0%nat /\
  Z.of_nat (length (memory host_store)) < as_u32 10 + as_u32 0 /\
  console_log_import 0 10 0 host_store = (host_store, Err OutOfBounds) /\
  console_log_import 0 9 0 host_store = (set_host (wapc_console_log 0%nat [] (host host_store)) host_store, Ok tt).
Proof.
  assert (Hl : live_handle host_store 0 0%nat) by reflexivity.
  split_and!; [exact Hl|vm_compute; reflexivity| |].
  - apply (proj1 (console_log_checks host_store 0 10 0 0%nat Hl)). vm_compute. reflexivity.
  - apply (proj2 (proj2 (console_log_checks host_store 0 9 0 0%nat Hl))). reflexivity.
Defined.

Lemma host_handle_drop_witness :
  Z.of_nat 0 < 2 ^ 32 /\ Slab.get (wapc_table (tables host_store)) 0 = Some 0%nat /\
  exists s', resource_drop_wapc_import (Z.of_nat 0) host_store = (s', Ok tt) /\
    host s' = drop_wapc 0%nat (host host_store) /\
    resource_drop_wapc_import (Z.of_nat 0) s' = (s', Err InvalidHandle) /\
    forall a1 a2 a3 a4 a5 a6 a7 a8,
      init_host_request_import (Z.of_nat 0) a1 a2 a3 a4 a5 a6 a7 a8 s' = (s', Err InvalidHandle).
Proof.
  split_and!; [lia|reflexivity|].
  apply host_handle_drop; [lia|reflexivity].
Defined.

End WapcHostImports.
