(* ===== verification/Linking.v ===== *)
(** * Linking: how the guest's imports resolve against the host's linker

    Both halves of src/host/bindings.rs register their closures in a
    [wasmtime::Linker] under a (module, name) key:
    [wapc_guest::WapcGuest::add_to_linker] (lines 34-83) registers the
    four [canonical_abi] intrinsics of guest-owned resources, and
    [wapc_host::add_to_linker] (lines 321-453) the four waPC host
    functions and [canonical_abi::resource_drop_wapc] for host-owned
    resources.  The guest (src/guest/bindings.rs) imports
    [canonical_abi::resource_drop_wapc] both to drop its handles to host
    resources ([impl Drop for wapc_host::Wapc], lines 21-32) and to drop
    its own resources ([HandleType::drop], lines 146-163), and
    [canonical_abi::resource_clone_wapc] both to clone a host handle
    (lines 33-44) and its own ([HandleType::clone], lines 126-144).

    The linker is a finite map from keys to the closure registered
    there, with wasmtime's [allow_shadowing] flag: [func_wrap] refuses
    a key that is already defined unless shadowing is allowed, in which
    case the later definition replaces the earlier one.  Which closure a
    guest import runs is then [resolve]d from the map. *)

From stdpp Require Import strings.
From S2P Require Import Prelude Slab ResourceSlab Memory Store GuestExports HostImports.

Module Linking.
Import WapcGuest WapcHostImports.

(** (module, name) of an import. *)
Definition key := (string * string)%type.

(** The closures the two [add_to_linker] functions register. *)
Inductive import :=
  | GuestResourceDrop | GuestResourceClone | GuestResourceGet | GuestResourceNew
  | HostInitRequest | HostOnGuestResponse | HostOnGuestError | HostConsoleLog
  | HostResourceDrop.

#[export] Instance import_eq_dec : EqDecision import.
Proof. solve_decision. Defined.

Record linker := mk_linker {
  allow_shadowing : bool;
  defs : gmap key import;
}.

Definition resolve (l : linker) (k : key) : option import := defs l !! k.

(** [Linker::func_wrap(module, name, f)]: [Linker::insert] of the key,
    "defined twice" unless shadowing is allowed. *)
Definition func_wrap (l : linker) (k : key) (f : import) : result linker :=
  match defs l !! k with
  | Some _ =>
      if allow_shadowing l then Ok (mk_linker true (<[k := f]> (defs l))) else Err DefinedTwice
  | None => Ok (mk_linker (allow_shadowing l) (<[k := f]> (defs l)))
  end.

(** A sequence of [linker.func_wrap(..)?] calls, in order, ending in
    [Ok(())]. *)
Fixpoint register_all (l : linker) (regs : list (key * import)) : result linker :=
  match regs with
  | [] => Ok l
  | (k, f) :: regs' => result_bind (func_wrap l k f) (fun l' => register_all l' regs')
  end.

Definition drop_key : key := ("canonical_abi", "resource_drop_wapc")%string.
Definition clone_key : key := ("canonical_abi", "resource_clone_wapc")%string.
Definition get_key : key := ("canonical_abi", "resource_get_wapc")%string.
Definition new_key : key := ("canonical_abi", "resource_new_wapc")%string.

(** [wapc_guest::WapcGuest::add_to_linker] (lines 34-83): its four
    [linker.func_wrap] calls, in order. *)
Definition wapc_guest_regs : list (key * import) :=
  [(drop_key, GuestResourceDrop); (clone_key, GuestResourceClone);
   (get_key, GuestResourceGet); (new_key, GuestResourceNew)].

Definition wapc_guest_add_to_linker (l : linker) : result linker :=
  register_all l wapc_guest_regs.

(** [wapc_host::add_to_linker] (lines 321-453): its five
    [linker.func_wrap] calls, in order. *)
Definition wapc_host_regs : list (key * import) :=
  [(("wapc-host", "wapc::init-host-request")%string, HostInitRequest);
   (("wapc-host", "wapc::on-guest-response")%string, HostOnGuestResponse);
   (("wapc-host", "wapc::on-guest-error")%string, HostOnGuestError);
   (("wapc-host", "wapc::console-log")%string, HostConsoleLog);
   (drop_key, HostResourceDrop)].

Definition wapc_host_add_to_linker (l : linker) : result linker :=
  register_all l wapc_host_regs.

(** [WapcGuest::instantiate] (lines 103-104): add the guest's
    intrinsics to the linker, then instantiate the module, each of whose
    [imports] must be defined ("unknown import" otherwise).  The export
    lookups of [WapcGuest::new] that follow are in Instantiate.v. *)
Definition imports_defined (imports : list key) (l : linker) : bool :=
  forallb (fun k => bool_decide (is_Some (resolve l k))) imports.

Definition instantiate (imports : list key) (l : linker) : result linker :=
  result_bind (wapc_guest_add_to_linker l) (fun l' =>
    if imports_defined imports l' then Ok l' else Err UnknownImport).

(** The definition a key has after a sequence of registrations: the
    last one of the key, if any. *)
Fixpoint reg_lookup (k : key) (regs : list (key * import)) : option import :=
  match regs with
  | [] => None
  | (k', f) :: regs' =>
      match reg_lookup k regs' with
      | Some g => Some g
      | None => if decide (k = k') then Some f else None
      end
  end.

(** ** Registration, in general *)
Section Register.
Implicit Types (l : linker) (regs : list (key * import)).

Lemma func_wrap_ok l k f l' :
  func_wrap l k f = Ok l' ->
  allow_shadowing l' = allow_shadowing l /\ defs l' = <[k := f]> (defs l).
Proof. unfold func_wrap. destruct (defs l !! k), (allow_shadowing l) eqn:E; naive_solver. Qed.

Lemma func_wrap_err l k f e :
  func_wrap l k f = Err e -> e = DefinedTwice /\ allow_shadowing l = false /\ is_Some (defs l !! k).
Proof. unfold func_wrap. destruct (defs l !! k), (allow_shadowing l); naive_solver. Qed.

Lemma register_all_err l regs e : register_all l regs = Err e -> e = DefinedTwice.
Proof.
  revert l. induction regs as [|[k f] regs IH]; intros l; simpl; [done|].
  destruct (func_wrap l k f) as [l'|e'] eqn:E; simpl; [apply IH|].
  intros [= <-]. by apply func_wrap_err in E as [-> _].
Qed.

(** After a successful sequence, a key resolves to its last
    registration, or to what it resolved to before. *)
Lemma register_all_ok l regs l' :
  register_all l regs = Ok l' ->
  allow_shadowing l' = allow_shadowing l /\
  forall k, resolve l' k = match reg_lookup k regs with Some f => Some f | None => resolve l k end.
Proof.
  revert l. induction regs as [|[k0 f0] regs IH]; intros l; simpl; [by intros [= <-]|].
  destruct (func_wrap l k0 f0) as [l1|e] eqn:E; simpl; [|done].
  intros Hr. destruct (IH _ Hr) as [Hs Hk]. apply func_wrap_ok in E as [Hs1 Hd1].
  split; [congruence|]. intros k. rewrite Hk. unfold resolve. rewrite Hd1.
  destruct (reg_lookup k regs); [done|]. case_decide as Ek.
  - subst. by rewrite lookup_insert_eq.
  - by rewrite lookup_insert_ne.
Qed.

(** With shadowing allowed, registration never fails. *)
Lemma register_all_shadow l regs :
  allow_shadowing l = true -> exists l', register_all l regs = Ok l'.
Proof.
  revert l. induction regs as [|[k f] regs IH]; intros l Hs; simpl; [eauto|].
  unfold func_wrap. rewrite Hs. destruct (defs l !! k); simpl; apply IH; done.
Qed.

(** Without shadowing, registering a key the linker already defines
    fails. *)
Lemma register_all_dup l regs k :
  allow_shadowing l = false -> is_Some (resolve l k) -> k ∈ regs.*1 ->
  register_all l regs = Err DefinedTwice.
Proof.
  revert l. induction regs as [|[k0 f0] regs IH]; intros l Hs Hk Hin; simpl in *;
    [by apply elem_of_nil in Hin|].
  unfold func_wrap. rewrite Hs. destruct (defs l !! k0) eqn:E; simpl; [done|].
  apply elem_of_cons in Hin as [->|Hin]; [unfold resolve in Hk; rewrite E in Hk; by destruct Hk|].
  apply IH; [done| |done]. unfold resolve in *. simpl.
  destruct (decide (k = k0)) as [->|Hne]; [by rewrite lookup_insert_eq|by rewrite lookup_insert_ne].
Qed.
(** Two sequences with shadowing allowed: the second wins. *)
Lemma register_twice_shadow l regs1 regs2 :
  allow_shadowing l = true ->
  exists l', result_bind (register_all l regs1) (fun l1 => register_all l1 regs2) = Ok l' /\
    forall k, resolve l' k =
      match reg_lookup k regs2 with
      | Some f => Some f
      | None => match reg_lookup k regs1 with Some f => Some f | None => resolve l k end
      end.
Proof.
  intros Hs. destruct (register_all_shadow l regs1 Hs) as [l1 E1].
  destruct (register_all_ok _ _ _ E1) as [Hs1 Hk1].
  destruct (register_all_shadow l1 regs2 ltac:(congruence)) as [l2 E2].
  destruct (register_all_ok _ _ _ E2) as [_ Hk2].
  exists l2. rewrite E1. split; [done|]. intros k. by rewrite Hk2, Hk1.
Qed.
End Register.

(** ** The guest's owned handle to a host resource *)

(** [wapc_host::Wapc] (src/guest/bindings.rs lines 3-5):
    [#[repr(transparent)] pub struct Wapc(i32)], the number the host's
    [wapc_table] issued. *)
Record Wapc := Wapc_ { wapc_0 : Z }.

(** [Wapc::from_raw] (lines 7-9): [Self(raw)]; [unsafe], since nothing
    stops two owners of one number. *)
Definition from_raw (raw : Z) : Wapc := Wapc_ raw.

(** [Wapc::as_raw] (lines 17-19): [self.0], through a borrow. *)
Definition as_raw (w : Wapc) : Z := wapc_0 w.

(** ** The guest's canonical-ABI imports, resolved *)
Section Imports.
Context {U W G : Type} `{WapcGuestExports U W G} `{WapcHost U W}.
Local Abbreviation S := (store U W G).

(** Running the closure a key resolved to.  The closures take a [u32]
    handle, so the guest's [i32] crosses as [as_u32]; a closure of
    another wasm type would be rejected when the module is
    instantiated. *)
Definition dispatch_unit (i : import) (arg : Z) : St S unit :=
  match i with
  | GuestResourceDrop => resource_drop_wapc (as_u32 arg)
  | HostResourceDrop => resource_drop_wapc_import (as_u32 arg)
  | _ => throw UnknownImport
  end.

Definition dispatch_i32 (i : import) (arg : Z) : St S Z :=
  match i with
  | GuestResourceClone => resource_clone_wapc (as_u32 arg)
  | GuestResourceGet => resource_get_wapc (as_u32 arg)
  | GuestResourceNew => resource_new_wapc arg
  | _ => throw UnknownImport
  end.

Definition call_unit (l : linker) (k : key) (arg : Z) : St S unit :=
  match resolve l k with Some i => dispatch_unit i arg | None => throw UnknownImport end.

Definition call_i32 (l : linker) (k : key) (arg : Z) : St S Z :=
  match resolve l k with Some i => dispatch_i32 i arg | None => throw UnknownImport end.

(** [impl Drop for wapc_host::Wapc] (lines 21-32): [close(self.0)],
    the import ("canonical_abi", "resource_drop_wapc"). *)
Definition wapc_drop (l : linker) (self0 : Z) : St S unit := call_unit l drop_key self0.

(** [impl Clone for wapc_host::Wapc] (lines 33-44): [clone(self.0)],
    the import ("canonical_abi", "resource_clone_wapc"). *)
Definition wapc_clone (l : linker) (self0 : Z) : St S Z := call_i32 l clone_key self0.

(** [Wapc::into_raw] (lines 11-15): [let ret = self.0;
    core::mem::forget(self); ret] consumes the owner without running
    its [Drop]: no import is called. *)
Definition into_raw (w : Wapc) : St S Z := ret (wapc_0 w).

(** An owned [Wapc] going out of scope: its [Drop] on [self.0]. *)
Definition drop_owned (l : linker) (w : Wapc) : St S unit := wapc_drop l (wapc_0 w).

(** [HandleType::drop] for the guest's own [Wapc] (lines 146-163): the
    same import as [wapc_drop]. *)
Definition handle_drop (l : linker) (val : Z) : St S unit := call_unit l drop_key val.

(** [HandleType::clone] (lines 126-144), [LocalHandle::new]
    (lines 166-184) and [LocalHandle::get] (lines 186-203). *)
Definition handle_clone (l : linker) (val : Z) : St S Z := call_i32 l clone_key val.
Definition local_new (l : linker) (val : Z) : St S Z := call_i32 l new_key val.
Definition local_get (l : linker) (val : Z) : St S Z := call_i32 l get_key val.

Lemma drop_import_keeps_guest_data h (s : store U W G) :
  guest_data (resource_drop_wapc_import h s).1 = guest_data s.
Proof.
  unfold resource_drop_wapc_import, call_host.
  by destruct (Slab.remove _ _) as [[t' w]|].
Qed.
End Imports.

(** ** Linking both halves *)
Section Claims.
Context {U W G : Type} `{WapcGuestExports U W G} `{WapcHost U W}.
Implicit Types (s : store U W G).

Ltac key_in := apply list_elem_of_In; simpl; tauto.

(** C5: both [add_to_linker] functions register
    ("canonical_abi", "resource_drop_wapc").  On a linker that does not
    allow shadowing (wasmtime's default, and src/ never enables it),
    adding both halves fails with "defined twice", in either order: a
    host cannot link the guest's intrinsics and the waPC host functions
    into one linker.  In particular [WapcGuest::instantiate], which adds
    the guest's intrinsics itself, fails on any linker the waPC host
    functions were added to, whatever the module imports. *)
Theorem linking_both_sides_fails l :
  allow_shadowing l = false ->
  result_bind (wapc_guest_add_to_linker l) wapc_host_add_to_linker = Err DefinedTwice /\
  result_bind (wapc_host_add_to_linker l) wapc_guest_add_to_linker = Err DefinedTwice /\
  forall imports, result_bind (wapc_host_add_to_linker l) (instantiate imports) = Err DefinedTwice.
Proof.
  intros Hs. split_and!.
  - destruct (wapc_guest_add_to_linker l) as [l1|e] eqn:E; simpl;
      [|by apply register_all_err in E as ->].
    apply register_all_ok in E as [Hs1 Hk].
    apply (register_all_dup _ _ drop_key); [congruence|by rewrite Hk|key_in].
  - destruct (wapc_host_add_to_linker l) as [l1|e] eqn:E; simpl;
      [|by apply register_all_err in E as ->].
    apply register_all_ok in E as [Hs1 Hk].
    apply (register_all_dup _ _ drop_key); [congruence|by rewrite Hk|key_in].
  - intros imports. destruct (wapc_host_add_to_linker l) as [l1|e] eqn:E; simpl;
      [|by apply register_all_err in E as ->].
    apply register_all_ok in E as [Hs1 Hk]. unfold instantiate, wapc_guest_add_to_linker.
    rewrite (register_all_dup _ _ drop_key); [done|congruence|by rewrite Hk|key_in].
Qed.

(** C17: with shadowing allowed, the half added last owns
    ("canonical_abi", "resource_drop_wapc"), and the guest's two uses of
    that one import go to the same closure.  Guest half first: the
    guest's [HandleType::drop] of its own resource runs the host-table
    closure on the number, leaving the guest's handle and resource in
    place (its destructor never runs).  Host half first: the guest's
    [Drop] of a host handle runs the guest-resource intrinsic on the
    number. *)
Theorem shadowed_drop_misrouted l0 v s :
  allow_shadowing l0 = true ->
  (exists l, result_bind (wapc_guest_add_to_linker l0) wapc_host_add_to_linker = Ok l /\
     handle_drop l v s = resource_drop_wapc_import (as_u32 v) s /\
     guest_data (handle_drop l v s).1 = guest_data s) /\
  (exists l, result_bind (wapc_host_add_to_linker l0) wapc_guest_add_to_linker = Ok l /\
     wapc_drop l v s = resource_drop_wapc (as_u32 v) s).
Proof.
  intros Hs. split.
  - destruct (register_twice_shadow l0 wapc_guest_regs wapc_host_regs Hs) as (l & E & Hk).
    assert (Hd : handle_drop l v s = resource_drop_wapc_import (as_u32 v) s)
      by (unfold handle_drop, call_unit; by rewrite Hk).
    exists l. split_and!; [exact E|exact Hd|]. rewrite Hd. apply drop_import_keeps_guest_data.
  - destruct (register_twice_shadow l0 wapc_host_regs wapc_guest_regs Hs) as (l & E & Hk).
    exists l. split; [exact E|]. unfold wapc_drop, call_unit. by rewrite Hk.
Qed.
(** C18: [wapc_host::add_to_linker] registers no clone for host
    resources, yet the guest's [Clone] of a host handle imports
    ("canonical_abi", "resource_clone_wapc"), which only the guest half
    defines.  So the host half never changes what that key resolves to,
    and whenever both halves are linked (shadowing allowed, either
    order), cloning a host handle runs the guest-resource clone
    intrinsic on the host handle's number. *)
Theorem host_handle_clone_misrouted l0 v s :
  allow_shadowing l0 = true ->
  (forall l l', wapc_host_add_to_linker l = Ok l' -> resolve l' clone_key = resolve l clone_key) /\
  (exists l, result_bind (wapc_guest_add_to_linker l0) wapc_host_add_to_linker = Ok l /\
     wapc_clone l v s = resource_clone_wapc (as_u32 v) s) /\
  (exists l, result_bind (wapc_host_add_to_linker l0) wapc_guest_add_to_linker = Ok l /\
     wapc_clone l v s = resource_clone_wapc (as_u32 v) s).
Proof.
  intros Hs. split_and!.
  - intros l l' E. apply register_all_ok in E as [_ Hk]. by rewrite Hk.
  - destruct (register_twice_shadow l0 wapc_guest_regs wapc_host_regs Hs) as (l & E & Hk).
    exists l. split; [exact E|]. unfold wapc_clone, call_i32. by rewrite Hk.
  - destruct (register_twice_shadow l0 wapc_host_regs wapc_guest_regs Hs) as (l & E & Hk).
    exists l. split; [exact E|]. unfold wapc_clone, call_i32. by rewrite Hk.
Qed.
(** C19: when [WapcGuest::instantiate] succeeds, the guest's
    [HandleType::drop] and [HandleType::clone] and its
    [LocalHandle::new] and [LocalHandle::get] run the host's intrinsics
    for guest resources, the handle crossing as a [u32]: the guest-only
    linking the generated host code performs is right for the guest's
    own resources. *)
Theorem instantiated_handles_reach_intrinsics imports l l' v s :
  instantiate imports l = Ok l' ->
  handle_drop l' v s = resource_drop_wapc (as_u32 v) s /\
  handle_clone l' v s = resource_clone_wapc (as_u32 v) s /\
  local_new l' v s = resource_new_wapc v s /\
  local_get l' v s = resource_get_wapc (as_u32 v) s.
Proof.
  unfold instantiate. destruct (wapc_guest_add_to_linker l) as [l1|e] eqn:E; simpl; [|done].
  case_match; intros; simplify_eq.
  destruct (register_all_ok _ _ _ E) as [_ Hk].
  unfold handle_drop, handle_clone, local_new, local_get, call_unit, call_i32.
  by rewrite !Hk.
Qed.
End Claims.

(** ** Witnesses *)

(** A host that keeps no state; the guest is the test guest of
    [GuestExports]. *)
#[local] Instance unit_host : WapcHost unit unit := {|
  wapc_init_host_request := fun _ _ _ _ _ u => (u, 0);
  wapc_on_guest_response := fun _ _ _ u => u;
  wapc_on_guest_error := fun _ _ _ u => u;
  wapc_console_log := fun _ _ u => u;
  drop_wapc := fun _ u => u;
|}.

(** The guest holds its own handles 0 and 1 (to its resource [42]) and
    the host handle 0. *)
Definition mixed : store unit unit (list Z) :=
  mk_store (guest_data two_handles) tt (mk_host_tables (Slab.mk_slab [Slab.Full tt] 1)) [] [].

Lemma linking_both_sides_fails_witness :
  allow_shadowing (mk_linker false ∅) = false /\
  result_bind (wapc_guest_add_to_linker (mk_linker false ∅)) wapc_host_add_to_linker =
    Err DefinedTwice /\
  result_bind (wapc_host_add_to_linker (mk_linker false ∅)) wapc_guest_add_to_linker =
    Err DefinedTwice /\
  (forall imports, result_bind (wapc_host_add_to_linker (mk_linker false ∅)) (instantiate imports) =
     Err DefinedTwice).
Proof. split; [reflexivity|]. apply linking_both_sides_fails. reflexivity. Defined.

Lemma shadowed_drop_misrouted_witness :
  allow_shadowing (mk_linker true ∅) = true /\
  (exists l, result_bind (wapc_guest_add_to_linker (mk_linker true ∅)) wapc_host_add_to_linker =
       Ok l /\
     @handle_drop _ _ _ rec_guest _ l 0 mixed = resource_drop_wapc_import (as_u32 0) mixed /\
     guest_data (@handle_drop _ _ _ rec_guest _ l 0 mixed).1 = guest_data mixed) /\
  (exists l, result_bind (wapc_host_add_to_linker (mk_linker true ∅)) wapc_guest_add_to_linker =
       Ok l /\
     @wapc_drop _ _ _ rec_guest _ l 0 mixed = @resource_drop_wapc _ _ _ rec_guest (as_u32 0) mixed).
Proof.
  split; [reflexivity|]. apply (@shadowed_drop_misrouted _ _ _ rec_guest _). reflexivity.
Defined.

Lemma host_handle_clone_misrouted_witness :
  allow_shadowing (mk_linker true ∅) = true /\
  (forall l l', wapc_host_add_to_linker l = Ok l' -> resolve l' clone_key = resolve l clone_key) /\
  (exists l, result_bind (wapc_guest_add_to_linker (mk_linker true ∅)) wapc_host_add_to_linker =
       Ok l /\
     wapc_clone l 0 mixed = resource_clone_wapc (as_u32 0) mixed) /\
  (exists l, result_bind (wapc_host_add_to_linker (mk_linker true ∅)) wapc_guest_add_to_linker =
       Ok l /\
     wapc_clone l 0 mixed = resource_clone_wapc (as_u32 0) mixed).
Proof.
  split; [reflexivity|]. apply host_handle_clone_misrouted. reflexivity.
Defined.

(** The guest's [canonical_abi] imports, and the linker
    [WapcGuest::instantiate] leaves when it succeeds on an empty one. *)
Definition guest_abi_imports : list key := [drop_key; clone_key; new_key; get_key].

Definition guest_only_linker : linker :=
  match instantiate guest_abi_imports (mk_linker false ∅) with Ok l => l | Err _ => mk_linker false ∅ end.

Lemma instantiated_handles_reach_intrinsics_witness :
  instantiate guest_abi_imports (mk_linker false ∅) = Ok guest_only_linker /\
  @handle_drop _ _ _ rec_guest _ guest_only_linker 1 two_handles =
    @resource_drop_wapc _ _ _ rec_guest (as_u32 1) two_handles /\
  handle_clone guest_only_linker 1 two_handles = resource_clone_wapc (as_u32 1) two_handles /\
  local_new guest_only_linker 1 two_handles = resource_new_wapc 1 two_handles /\
  local_get guest_only_linker 1 two_handles = resource_get_wapc (as_u32 1) two_handles.
Proof.
  assert (E : instantiate guest_abi_imports (mk_linker false ∅) = Ok guest_only_linker)
    by reflexivity.
  split; [exact E|]. apply (@instantiated_handles_reach_intrinsics _ _ _ rec_guest _ _ _ _ 1 two_handles E).
Defined.

End Linking.
