(* ===== verification/Instantiate.v ===== *)
(** * Instantiate: [WapcGuest::instantiate] and [WapcGuest::new]

    src/host/bindings.rs lines 98-154.  [instantiate] adds the guest's
    intrinsics to the caller's [&mut Linker] ([add_to_linker]),
    instantiates the module against it, and hands the instance to
    [new], which looks up the six exports the bindings call, each by
    name and wasm type, and records the destructor export in the
    store's [WapcGuestData] ([dtor0]).

    The linker is state here, as it is in the code: [add_all] is the
    sequence of [func_wrap(..)?] calls on a [&mut Linker], so that what
    was registered before a failure stays registered.  The wasmtime
    lookups ([Instance::get_typed_func], [Instance::get_memory]) are
    modelled on an instance's exports as a map from names to extern
    types. *)

From stdpp Require Import strings.
From S2P Require Import Prelude Slab ResourceSlab Memory Store GuestExports Linking.

Module Instantiate.
Import WapcGuest Linking.

(** ** Wasm types of exports *)
Inductive valtype := I32 | I64 | F32 | F64 | V128 | FuncRef | ExternRef.

#[export] Instance valtype_eq_dec : EqDecision valtype.
Proof. solve_decision. Defined.

Record functype := mk_functype { params : list valtype; results : list valtype }.

#[export] Instance functype_eq_dec : EqDecision functype.
Proof. solve_decision. Defined.

(** [wasmtime::ExternType]. *)
Inductive extern := ExtFunc (ft : functype) | ExtGlobal | ExtTable | ExtMemory.

#[export] Instance extern_eq_dec : EqDecision extern.
Proof. solve_decision. Defined.

(** A module: what it imports, and what its instance exports. *)
Record module := mk_module { mod_imports : list key; mod_exports : gmap string extern }.

(** The type parameters of the [get_typed_func] calls of [new]. *)
Definition ty_realloc := mk_functype [I32; I32; I32; I32] [I32].
Definition ty_init_guest_request := mk_functype [I32; I32; I32; I32; I32] [I32].
Definition ty_on_host_error := mk_functype [I32; I32; I32; I32] [].
Definition ty_on_host_response := mk_functype [I32; I32; I32; I32; I32] [].
Definition ty_drop := mk_functype [I32] [].

(** [instance.get_typed_func::<P, R, _>(store, name)?]: the export must
    be a function, of type [P -> R]. *)
Definition get_typed_func (exps : gmap string extern) (name : string) (ty : functype) : result unit :=
  match exps !! name with
  | Some (ExtFunc ft) => if decide (ft = ty) then Ok tt else Err (ExportTypeMismatch name)
  | _ => Err (MissingExport name)
  end.

(** [instance.get_memory(store, name)]. *)
Definition get_memory (exps : gmap string extern) (name : string) : option unit :=
  match exps !! name with Some ExtMemory => Some tt | _ => None end.

Section New.
Context {U W G : Type}.
Local Abbreviation S := (store U W G).

(** [WapcGuest::new] (lines 117-154): the lookups in the order of the
    code, each returning on failure; the destructor's lookup is
    evaluated before [dtor0] is assigned, so a failure leaves the store
    as it was. *)
Definition new (exps : gmap string extern) : St S unit :=
  lift (get_typed_func exps "canonical_abi_realloc" ty_realloc) ;;;
  lift (ok_or (get_memory exps "memory") NotAMemory) ;;;
  lift (get_typed_func exps "wapc::init-guest-request" ty_init_guest_request) ;;;
  lift (get_typed_func exps "wapc::on-host-error" ty_on_host_error) ;;;
  lift (get_typed_func exps "wapc::on-host-response" ty_on_host_response) ;;;
  lift (get_typed_func exps "canonical_abi_drop_wapc" ty_drop) ;;;
  WapcGuest.new.

(** [linker.func_wrap(..)?] in sequence on a [&mut Linker]: a failing
    registration returns, the earlier ones stay. *)
Fixpoint add_all (l : linker) (regs : list (key * import)) : linker * result unit :=
  match regs with
  | [] => (l, Ok tt)
  | (k, f) :: regs' =>
      match func_wrap l k f with
      | Ok l' => add_all l' regs'
      | Err e => (l, Err e)
      end
  end.

(** [WapcGuest::instantiate] (lines 98-107) on the caller's linker and
    store: [Self::add_to_linker(linker, get_state)?], then
    [linker.instantiate(&mut store, module)?] (every import defined),
    then [Self::new(store, &instance, get_state)?]. *)
Definition instantiate (m : module) (l : linker) (s : S) : linker * (S * result unit) :=
  match add_all l wapc_guest_regs with
  | (l1, Err e) => (l1, (s, Err e))
  | (l1, Ok _) =>
      if imports_defined (mod_imports m) l1 then (l1, new (mod_exports m) s)
      else (l1, (s, Err UnknownImport))
  end.
End New.

(** The exports a guest module must have, with their types. *)
Definition abi_exports : list (string * extern) :=
  [("canonical_abi_realloc", ExtFunc ty_realloc); ("memory", ExtMemory);
   ("wapc::init-guest-request", ExtFunc ty_init_guest_request);
   ("wapc::on-host-error", ExtFunc ty_on_host_error);
   ("wapc::on-host-response", ExtFunc ty_on_host_response);
   ("canonical_abi_drop_wapc", ExtFunc ty_drop)].

Definition abi_typed (exps : gmap string extern) : Prop :=
  Forall (fun ne => exps !! ne.1 = Some ne.2) abi_exports.

#[export] Instance abi_typed_dec exps : Decision (abi_typed exps).
Proof. unfold abi_typed. apply _. Defined.

(** ** The export lookups *)

Lemma get_typed_func_ok exps name ty u :
  get_typed_func exps name ty = Ok u -> exps !! name = Some (ExtFunc ty).
Proof. unfold get_typed_func. repeat case_match; naive_solver. Qed.

Lemma get_memory_ok exps name u :
  ok_or (get_memory exps name) NotAMemory = Ok u -> exps !! name = Some ExtMemory.
Proof. unfold get_memory, ok_or. repeat case_match; naive_solver. Qed.

Lemma get_typed_func_typed exps name ty :
  exps !! name = Some (ExtFunc ty) -> get_typed_func exps name ty = Ok tt.
Proof. unfold get_typed_func. intros ->. by rewrite decide_True. Qed.

Section NewLemmas.
Context {U W G : Type}.
Implicit Types (s : store U W G).

(** An instance with every export of the ABI, typed as the bindings
    ask: [new] records the destructor and nothing else. *)
Lemma new_ok exps s : abi_typed exps -> new exps s = WapcGuest.new s.
Proof.
  unfold abi_typed, abi_exports. intros Ht.
  repeat match goal with H : Forall _ (_ :: _) |- _ => inversion_clear H end.
  unfold new. st_simpl.
  rewrite !get_typed_func_typed by done. unfold get_memory, ok_or. simpl in *.
  by repeat match goal with H : exps !! _ = Some _ |- _ => rewrite H; clear H end.
Qed.

(** Any other instance: [new] fails, with the store unchanged. *)
Lemma new_err exps s : ~ abi_typed exps -> exists e, new exps s = (s, Err e).
Proof.
  intros Hn. unfold new. st_simpl.
  repeat (case_match; try by eexists).
  exfalso. apply Hn.
  repeat match goal with
  | H : get_typed_func _ _ _ = Ok _ |- _ => apply get_typed_func_ok in H
  | H : ok_or (get_memory _ _) _ = Ok _ |- _ => apply get_memory_ok in H
  end.
  unfold abi_typed, abi_exports. by repeat constructor.
Qed.
End NewLemmas.

(** ** The linker across [instantiate] *)

(** On success, registering in place and registering on a value agree. *)
Lemma add_all_ok l regs l' : add_all l regs = (l', Ok tt) -> register_all l regs = Ok l'.
Proof.
  revert l. induction regs as [|[k f] regs IH]; intros l; simpl; [by intros [= ->]|].
  destruct (func_wrap l k f) as [l1|e]; simpl; [apply IH|done].
Qed.

(** A registration that fails first leaves the linker unchanged. *)
Lemma add_all_first_defined l k f regs :
  allow_shadowing l = false -> is_Some (resolve l k) ->
  add_all l ((k, f) :: regs) = (l, Err DefinedTwice).
Proof.
  intros Hs [g Hk]. simpl. unfold func_wrap. unfold resolve in Hk. by rewrite Hk, Hs.
Qed.

(** After [add_to_linker] the guest's drop intrinsic is defined and
    shadowing is as it was. *)
Lemma add_to_linker_defines l l1 :
  add_all l wapc_guest_regs = (l1, Ok tt) ->
  allow_shadowing l1 = allow_shadowing l /\ resolve l1 drop_key = Some GuestResourceDrop.
Proof.
  intros E. apply add_all_ok, register_all_ok in E as [Hs Hk]. split; [done|].
  rewrite Hk. reflexivity.
Qed.

Section InstantiateLemmas.
Context {U W G : Type}.
Implicit Types (s : store U W G).

(** What a successful [instantiate] did: registered the intrinsics,
    found every import, and found the exports typed as the ABI says, so
    that [new] recorded the destructor. *)
Lemma instantiate_ok m l s l' s' :
  instantiate m l s = (l', (s', Ok tt)) ->
  add_all l wapc_guest_regs = (l', Ok tt) /\ abi_typed (mod_exports m) /\
  s' = (WapcGuest.new s).1.
Proof.
  unfold instantiate. destruct (add_all l wapc_guest_regs) as [l1 [[]|e]] eqn:E; [|done].
  destruct (imports_defined _ _); [|done]. intros [= <- Hn].
  destruct (decide (abi_typed (mod_exports m))) as [Ht|Ht].
  - rewrite new_ok in Hn by done. by rewrite Hn.
  - destruct (new_err (mod_exports m) s Ht) as [e He]. by rewrite He in Hn.
Qed.
End InstantiateLemmas.

(** ** What instantiation guarantees *)
Section Claims.
Context {U W G : Type}.
Implicit Types (s : store U W G).

(** C20: [WapcGuest::new] accepts exactly the instances whose exports
    carry the names the bindings call with the wasm types they call
    them at ([abi_exports]): on such an instance it records the
    destructor export in [dtor0] and changes nothing else; on any other
    (an export missing, of another kind, or of another function type)
    it fails and leaves the store as it was. *)
Theorem new_checks_exports exps s :
  (abi_typed exps ->
     new exps s = (set_guest_data (mk_guest_data (index_slab0 (guest_data s))
                                    (resource_slab0 (guest_data s)) (Some tt)) s, Ok tt)) /\
  (~ abi_typed exps -> exists e, new exps s = (s, Err e)).
Proof. split; [intros Ht; by rewrite new_ok|apply new_err]. Qed.

(** C6: [WapcGuest::instantiate] spends the linker it is given: once
    its [add_to_linker] has succeeded on a linker without shadowing
    (wasmtime's default), that linker holds the guest's intrinsics
    whatever happens next, and any later [instantiate] on it (a retry
    after an unknown import or a bad export, or a second guest) fails
    with "defined twice", before instantiating, with linker and store
    unchanged.  The same holds when the caller ran [add_to_linker]
    first, which the doc comment of [instantiate] calls unnecessary
    rather than fatal. *)
Theorem instantiate_consumes_linker m m' l s s' l1 :
  allow_shadowing l = false -> add_all l wapc_guest_regs = (l1, Ok tt) ->
  (instantiate m l s).1 = l1 /\ instantiate m' l1 s' = (l1, (s', Err DefinedTwice)).
Proof.
  intros Hs E. split.
  - unfold instantiate. rewrite E. by destruct (imports_defined _ _).
  - destruct (add_to_linker_defines _ _ E) as [Hs1 Hk].
    unfold instantiate, wapc_guest_regs.
    rewrite add_all_first_defined; [done|by rewrite Hs1|by rewrite Hk].
Qed.

(** C11: before [instantiate] has run [new], the host's [drop_wapc] of
    the last reference to a resource frees its slot and then panics on
    [data.dtor0.unwrap()], so the guest's destructor never runs; after
    a successful [instantiate] the same drop frees the slot and calls
    the destructor on the resource's value. *)
Theorem instantiate_arms_destructor `{WapcGuestExports U W G} m l s l' s' val w :
  instantiate m l s = (l', (s', Ok tt)) -> dtor0 (guest_data s) = None ->
  ResourceSlab.slots (resource_slab0 (guest_data s)) !! val =
    Some (Some (ResourceSlab.mk_slot w 1)) ->
  drop_wapc val s =
    (set_guest_data (with_resources (guest_data s)
       (ResourceSlab.mk_rslab (<[val := None]> (ResourceSlab.slots (resource_slab0 (guest_data s))))))
       s, Err Panic) /\
  drop_wapc val s' =
    canonical_abi_drop_wapc w
      (set_guest_data (with_resources (guest_data s')
         (ResourceSlab.mk_rslab (<[val := None]> (ResourceSlab.slots (resource_slab0 (guest_data s'))))))
         s').
Proof.
  intros Hi Hd Hl. apply instantiate_ok in Hi as (_ & _ & ->).
  unfold drop_wapc, on_data, res_drop. st_simpl.
  rewrite (ResourceSlab.drop_last _ _ _ Hl). cbn.
  rewrite (ResourceSlab.drop_last _ _ _ Hl). cbn.
  unfold call_dtor. st_simpl. cbn. by rewrite Hd.
Qed.
End Claims.

(** ** Fixtures *)

(** An instance with the ABI's exports, and one whose [memory] is a
    function. *)
Definition abi_instance : gmap string extern := list_to_map abi_exports.
Definition bad_instance : gmap string extern := <["memory" := ExtFunc ty_drop]> abi_instance.

(** The guest module: the [canonical_abi] imports of its handle stubs,
    the ABI's exports. *)
Definition guest_mod : module := mk_module guest_abi_imports abi_instance.
(** A module that also imports a function no one defines. *)
Definition needy_mod : module := mk_module (("env", "abort")%string :: guest_abi_imports) abi_instance.

(** The linker after the guest's [add_to_linker] on an empty one. *)
Definition intrinsics_linker : linker := (add_all (mk_linker false ∅) wapc_guest_regs).1.

(** A store where a resource [42] with one reference exists before
    [new] has run (as one the module's start function created). *)
Definition fresh_store : store unit unit (list Z) :=
  mk_store (mk_guest_data Slab.empty (ResourceSlab.mk_rslab [Some (ResourceSlab.mk_slot 42 1)]) None)
    tt WapcHostTables_default [] [].

Definition armed_store : store unit unit (list Z) :=
  (instantiate guest_mod (mk_linker false ∅) fresh_store).2.1.

Lemma new_checks_exports_witness :
  abi_typed abi_instance /\
  new abi_instance fresh_store =
    (set_guest_data (mk_guest_data (index_slab0 (guest_data fresh_store))
                       (resource_slab0 (guest_data fresh_store)) (Some tt)) fresh_store, Ok tt) /\
  ~ abi_typed bad_instance /\ exists e, new bad_instance fresh_store = (fresh_store, Err e).
Proof.
  assert (Ht : abi_typed abi_instance) by (apply (bool_decide_unpack _); vm_compute; reflexivity).
  assert (Hb : ~ abi_typed bad_instance) by (apply (bool_decide_unpack _); vm_compute; reflexivity).
  split_and!; [exact Ht|apply (new_checks_exports abi_instance fresh_store), Ht|exact Hb|].
  apply (new_checks_exports bad_instance fresh_store), Hb.
Defined.

Lemma instantiate_consumes_linker_witness :
  allow_shadowing (mk_linker false ∅) = false /\
  add_all (mk_linker false ∅) wapc_guest_regs = (intrinsics_linker, Ok tt) /\
  instantiate needy_mod (mk_linker false ∅) fresh_store =
    (intrinsics_linker, (fresh_store, Err UnknownImport)) /\
  ((instantiate needy_mod (mk_linker false ∅) fresh_store).1 = intrinsics_linker /\
   instantiate guest_mod intrinsics_linker fresh_store =
     (intrinsics_linker, (fresh_store, Err DefinedTwice))).
Proof.
  assert (E : add_all (mk_linker false ∅) wapc_guest_regs = (intrinsics_linker, Ok tt))
    by reflexivity.
  refine (conj eq_refl (conj E (conj _ _))); [vm_compute; reflexivity|].
  exact (instantiate_consumes_linker needy_mod guest_mod (mk_linker false ∅) fresh_store
           fresh_store intrinsics_linker eq_refl E).
Defined.

Lemma instantiate_arms_destructor_witness :
  instantiate guest_mod (mk_linker false ∅) fresh_store =
    (intrinsics_linker, (armed_store, Ok tt)) /\
  dtor0 (guest_data fresh_store) = None /\
  ResourceSlab.slots (resource_slab0 (guest_data fresh_store)) !! 0%nat =
    Some (Some (ResourceSlab.mk_slot 42 1)) /\
  @drop_wapc _ _ _ rec_guest 0 fresh_store =
    (set_guest_data (with_resources (guest_data fresh_store)
       (ResourceSlab.mk_rslab (<[0%nat := None]> (ResourceSlab.slots (resource_slab0 (guest_data fresh_store))))))
       fresh_store, Err Panic) /\
  @drop_wapc _ _ _ rec_guest 0 armed_store =
    @canonical_abi_drop_wapc _ _ _ rec_guest 42
      (set_guest_data (with_resources (guest_data armed_store)
         (ResourceSlab.mk_rslab (<[0%nat := None]> (ResourceSlab.slots (resource_slab0 (guest_data armed_store))))))
         armed_store).
Proof.
  assert (E : instantiate guest_mod (mk_linker false ∅) fresh_store =
                (intrinsics_linker, (armed_store, Ok tt))) by (vm_compute; reflexivity).
  split_and!; [exact E|reflexivity|reflexivity|..];
    apply (@instantiate_arms_destructor _ _ _ rec_guest guest_mod _ fresh_store _ _ 0 42 E);
    reflexivity.
Defined.

End Instantiate.
