(* ===== verification/GuestBindings.v ===== *)
(** * GuestBindings: the guest's side of the bridge

    src/guest/bindings.rs, compiled into the guest module.
    - [mod wapc_host] (lines 1-122): the host resource as the guest sees
      it, a bare [i32] handle ([Wapc(i32)]), and the four methods that
      pass a handle, pointers and lengths of the guest's own strings and
      byte slices to the host imports ([init_host_request],
      [on_guest_response], [on_guest_error], [console_log]).
    - [mod wapc_guest] (lines 123-245): the exports the host calls
      ([wapc::init-guest-request], [wapc::on-host-response],
      [wapc::on-host-error], [canonical_abi_drop_wapc]); each takes
      ownership of the buffers the host wrote ([Vec::from_raw_parts]),
      checks the operation name with [String::from_utf8(..).unwrap()],
      and calls the guest's implementation of the [Wapc] trait; the
      destructor export runs the user's [drop_wapc] and then drops the
      handles the finalized value owned ([drop_each]).

    The imports are resolved to the host closures of [HostImports]; the
    exports, with the guest's allocator, form an instance of
    [WapcGuestExports], so that the host's calls of [GuestExports] run
    into them. *)

From S2P Require Import Prelude Slab ResourceSlab Memory Utf8 Store GuestExports HostImports.
Import WapcHostImports.

Module GuestBindings.

(** A [&str] or [&[u8]] of the guest: where it lives in linear memory,
    and its bytes. *)
Record GuestSlice := mk_slice { gptr : Z; gbytes : list Memory.byte }.

(** [vec.len() as i32]. *)
Definition glen (v : GuestSlice) : Z := as_i32 (Z.of_nat (length (gbytes v))).

(** ** [mod wapc_host]: calls out to the host *)
Section Imports.
Context {U W G : Type} `{WapcHost U W}.
Local Abbreviation S := (store U W G).

(** [Wapc::init_host_request] (lines 46-69). *)
Definition init_host_request (self0 : Z) (binding namespace operation bytes : GuestSlice)
    : St S Z :=
  let* ret0 := init_host_request_import self0 (gptr binding) (glen binding)
                (gptr namespace) (glen namespace) (gptr operation) (glen operation)
                (gptr bytes) (glen bytes) in
  ret (as_u32 ret0).

(** [Wapc::on_guest_response] (lines 71-87). *)
Definition on_guest_response (self0 id : Z) (bytes : GuestSlice) : St S unit :=
  on_guest_response_import self0 (as_i32 id) (gptr bytes) (glen bytes).

(** [Wapc::on_guest_error] (lines 88-104). *)
Definition on_guest_error (self0 id : Z) (bytes : GuestSlice) : St S unit :=
  on_guest_error_import self0 (as_i32 id) (gptr bytes) (glen bytes).

(** [Wapc::console_log] (lines 105-121). *)
Definition console_log (self0 : Z) (message : GuestSlice) : St S unit :=
  console_log_import self0 (gptr message) (glen message).
End Imports.

(** ** [mod wapc_guest]: what the host calls *)

(** The guest's implementation of [trait Wapc] (lines 240-244) and of
    [WapcGuest::drop_wapc] (lines 231-239), on the guest's own state.
    [&self] is the guest resource's value, which [Handle]'s [Deref]
    fetches from the host.
    [drop_wapc(val)] takes the finalized value by move: the user's code
    runs ([impl_drop_wapc]), and the value is then dropped ([drop(val)]
    in the default body), which drops every handle it owns
    ([impl_owned]: their raw [i32]s, in field order). *)
Class WapcImpl (G : Type) := {
  impl_init_guest_request : Z -> list Memory.byte -> list Memory.byte -> G -> G * Z;
  impl_on_host_response : Z -> Z -> Z -> list Memory.byte -> G -> G;
  impl_on_host_error : Z -> Z -> list Memory.byte -> G -> G;
  impl_drop_wapc : Z -> G -> G;
  impl_owned : Z -> G -> list Z;
}.

Section Exports.
Context {U W G : Type} `{WapcImpl G}.
Local Abbreviation S := (store U W G).

(** The guest's import ("canonical_abi", "resource_drop_wapc") as the
    linker resolved it: the [Drop] of the temporary
    [wit_bindgen_rust::Handle::from_raw(arg0)] each export builds calls
    it once the user's method has returned. *)
Variable drop_import : Z -> St S unit.

(** The guest's import ("canonical_abi", "resource_get_wapc"): passing
    [&Handle::from_raw(arg0)] as [&self] goes through [Handle]'s
    [Deref], which calls [LocalHandle::get] (lines 186-203) on the
    handle and hands the user's method the resource's value. *)
Variable get_import : Z -> St S Z.

(** [Vec::from_raw_parts(ptr as *mut _, len as usize, len as usize)]:
    the buffer the host wrote; an access past the memory traps. *)
Definition from_raw_parts (ptr len : Z) : St S (list Memory.byte) :=
  fun s => (s, Memory.slice (memory s) ptr len).

(** [String::from_utf8(..).unwrap()]: a panic on ill-formed bytes. *)
Definition from_utf8_unwrap (bs : list Memory.byte) : St S (list Memory.byte) :=
  match Memory.from_utf8 bs with Ok b => ret b | Err _ => throw Panic end.

Definition call_impl {A} (f : G -> G * A) : St S A :=
  fun s => let '(g', a) := f (guest s) in (set_guest g' s, Ok a).

(** [wapc::init-guest-request] (lines 212-218). *)
Definition export_init_guest_request (arg0 arg1 arg2 arg3 arg4 : Z) : St S Z :=
  let* self0 := get_import arg0 in
  let* op_bytes := from_raw_parts arg1 arg2 in
  let* operation := from_utf8_unwrap op_bytes in
  let* payload := from_raw_parts arg3 arg4 in
  let* result := call_impl (impl_init_guest_request self0 operation payload) in
  drop_import arg0 ;;;
  ret (as_i32 result).

(** [wapc::on-host-response] (lines 219-224). *)
Definition export_on_host_response (arg0 arg1 arg2 arg3 arg4 : Z) : St S unit :=
  let* self0 := get_import arg0 in
  let* bytes := from_raw_parts arg3 arg4 in
  call_impl (fun g => (impl_on_host_response self0 (as_u32 arg1) (as_u32 arg2) bytes g, tt)) ;;;
  drop_import arg0.

(** [wapc::on-host-error] (lines 225-230). *)
Definition export_on_host_error (arg0 arg1 arg2 arg3 : Z) : St S unit :=
  let* self0 := get_import arg0 in
  let* bytes := from_raw_parts arg2 arg3 in
  call_impl (fun g => (impl_on_host_error self0 (as_u32 arg1) bytes g, tt)) ;;;
  drop_import arg0.

(** Dropping owned handles one after the other, each through the drop
    import ([Handle]'s and [wapc_host::Wapc]'s [Drop]). *)
Fixpoint drop_each (hs : list Z) : St S unit :=
  match hs with
  | [] => ret tt
  | h :: hs' => drop_import h ;;; drop_each hs'
  end.

(** [canonical_abi_drop_wapc] (lines 206-211): [drop_wapc] on the unboxed [ty], then
    the handles the value owned are dropped. *)
Definition export_canonical_abi_drop_wapc (ty : Z) : St S unit :=
  let* hs := call_impl (fun g => (impl_drop_wapc ty g, impl_owned ty g)) in
  drop_each hs.

(** The guest module as the host sees it, with its allocator [alloc]
    (the guest's global allocator behind [canonical_abi_realloc], which
    src/ does not contain). *)
Definition guest_module (alloc : Z -> Z -> Z -> Z -> St S Z) : WapcGuestExports U W G := {|
  canonical_abi_realloc := alloc;
  canonical_abi_drop_wapc := export_canonical_abi_drop_wapc;
  wapc_init_guest_request_export := export_init_guest_request;
  wapc_on_host_error_export := export_on_host_error;
  wapc_on_host_response_export := export_on_host_response;
|}.
End Exports.

(** ** Guest to host *)
Section ToHost.
Context {U W G : Type} `{WapcHost U W}.
Implicit Types (s : store U W G).

(** The guest's slice [v] lies in linear memory where it says. *)
Definition placed s (v : GuestSlice) : Prop :=
  Memory.slice (memory s) (gptr v) (glen v) = Ok (gbytes v).

Lemma placed_str s v :
  placed s v -> Memory.valid_utf8 (gbytes v) = true ->
  Memory.slice_str (memory s) (gptr v) (glen v) = Ok (gbytes v).
Proof.
  intros Hp Hu. rewrite (Memory.slice_str_of_slice _ _ _ _ Hp). unfold Memory.from_utf8.
  by rewrite Hu.
Qed.

(** C13: a guest's [Wapc::init_host_request(binding, namespace,
    operation, bytes)] on a live host handle, with its strings and bytes
    where it says they are and the strings well-formed UTF-8, reaches
    the host's [WapcHost::wapc_init_host_request] once, with exactly the
    guest's bytes and the resource the handle names, and returns to the
    guest the host's status, reinterpreted [u32 -> i32 -> u32] (the
    identity on [u32], [Prelude.as_u32_as_i32]). *)
Theorem guest_request_reaches_host s self0 w b n o p :
  live_handle s self0 w ->
  placed s b -> placed s n -> placed s o -> placed s p ->
  Memory.valid_utf8 (gbytes b) = true -> Memory.valid_utf8 (gbytes n) = true ->
  Memory.valid_utf8 (gbytes o) = true ->
  init_host_request self0 b n o p s =
    let '(u', code) := wapc_init_host_request w (gbytes b) (gbytes n) (gbytes o) (gbytes p) (host s) in
    (set_host u' s, Ok (as_u32 (as_i32 code))).
Proof.
  intros Hh Hb Hn Ho Hp Ub Un Uo. unfold init_host_request.
  rewrite (bind_ok _ _ _ (set_host (wapc_init_host_request w (gbytes b) (gbytes n) (gbytes o)
                                     (gbytes p) (host s)).1 s)
             (as_i32 (wapc_init_host_request w (gbytes b) (gbytes n) (gbytes o) (gbytes p) (host s)).2)).
  - by destruct (wapc_init_host_request _ _ _ _ _ _).
  - rewrite (init_host_request_ok s _ _ _ _ _ _ _ _ _ w (gbytes b) (gbytes n) (gbytes o) (gbytes p));
      eauto using placed_str.
    by destruct (wapc_init_host_request _ _ _ _ _ _).
Qed.

(** A response or an error the guest sends on a live handle, with its
    bytes in place, reaches the host's trait with the id and bytes
    unchanged. *)
Lemma guest_calls_deliver s self0 w id bytes :
  live_handle s self0 w -> is_u32 id -> placed s bytes ->
  on_guest_response self0 id bytes s =
    (set_host (wapc_on_guest_response w id (gbytes bytes) (host s)) s, Ok tt) /\
  on_guest_error self0 id bytes s =
    (set_host (wapc_on_guest_error w id (gbytes bytes) (host s)) s, Ok tt).
Proof.
  unfold live_handle, placed. intros Hh Hid Hp.
  unfold on_guest_response, on_guest_error, on_guest_response_import, on_guest_error_import,
    lookup_handle, read_bytes, call_host, ok_or.
  st_simpl. rewrite Hh, Hp. simpl. by rewrite as_u32_as_i32.
Qed.

(** C25: the invocation id a guest passes to [Wapc::on_guest_response]
    reaches [WapcHost::wapc_on_guest_response] unchanged (it crosses
    the boundary as [id as i32] and comes back [as u32]), together with
    exactly the guest's bytes. *)
Theorem guest_response_id_reaches_host s self0 w id bytes :
  live_handle s self0 w -> is_u32 id -> placed s bytes ->
  on_guest_response self0 id bytes s =
    (set_host (wapc_on_guest_response w id (gbytes bytes) (host s)) s, Ok tt).
Proof. intros Hh Hid Hp. exact (proj1 (guest_calls_deliver _ _ _ _ _ Hh Hid Hp)). Qed.
End ToHost.

(** ** Host to guest *)
Section ToGuest.
Context {U W G : Type} `{WapcImpl G}.
Implicit Types (s : store U W G).

(** The guest's allocator hands out fresh memory (as in [GuestExports]). *)
Variable alloc : Z -> Z -> Z -> Z -> St (store U W G) Z.
Hypothesis alloc_fresh : forall n s, alloc 0 0 1 n s = WapcGuest.fresh_alloc n s.

(** The guest's drop import resolves to the host's intrinsic for guest
    resources (the linker holds [WapcGuest::add_to_linker]'s closure);
    [E] is the instance whose destructor that intrinsic would call. *)
Variable drop_import : Z -> St (store U W G) unit.
Variable E : WapcGuestExports U W G.
Hypothesis drop_import_intrinsic :
  forall v s, drop_import v s = @WapcGuest.resource_drop_wapc _ _ _ E (as_u32 v) s.

(** Likewise the get import resolves to the host's [resource_get_wapc]. *)
Variable get_import : Z -> St (store U W G) Z.
Hypothesis get_import_intrinsic :
  forall v s, get_import v s = WapcGuest.resource_get_wapc (as_u32 v) s.

(** The [Deref] of the handle [lower_self] issued reads the value of
    the resource it maps to, and changes nothing. *)
Lemma get_issued_handle s d ix' h self_ w n :
  guest_data s = mk_guest_data ix'
    (ResourceSlab.mk_rslab (<[self_ := Some (ResourceSlab.mk_slot w (n + 1))]>
                            (ResourceSlab.slots (resource_slab0 d)))) (dtor0 d) ->
  Slab.insert (index_slab0 d) self_ = Ok (ix', h) ->
  ResourceSlab.slots (resource_slab0 d) !! self_ = Some (Some (ResourceSlab.mk_slot w n)) ->
  get_import (as_i32 (Z.of_nat h)) s = (s, Ok w).
Proof.
  intros Hd Hi Hl. rewrite get_import_intrinsic.
  rewrite as_u32_as_i32 by (pose proof (Slab.insert_bound _ _ _ _ Hi); unfold is_u32; lia).
  apply WapcGuest.resource_get_wapc_live with self_.
  - rewrite Hd. simpl. rewrite (Slab.insert_get _ _ _ _ h Hi). by rewrite decide_True.
  - unfold ResourceSlab.get. rewrite Hd. simpl.
    by rewrite list_lookup_insert_eq by (eapply lookup_lt_Some; exact Hl).
Qed.

(** The handle [lower_self] issued, dropped again by the guest: the
    index table is back to its abstract state and the count to [n]. *)
Lemma drop_issued_handle s d ix' h self_ w n :
  guest_data s = mk_guest_data ix'
    (ResourceSlab.mk_rslab (<[self_ := Some (ResourceSlab.mk_slot w (n + 1))]>
                            (ResourceSlab.slots (resource_slab0 d)))) (dtor0 d) ->
  Slab.insert (index_slab0 d) self_ = Ok (ix', h) ->
  ResourceSlab.slots (resource_slab0 d) !! self_ = Some (Some (ResourceSlab.mk_slot w n)) ->
  1 <= n ->
  exists ix2,
    drop_import (as_i32 (Z.of_nat h)) s =
      (set_guest_data (mk_guest_data ix2 (resource_slab0 d) (dtor0 d)) s, Ok tt) /\
    Slab.to_map ix2 = Slab.to_map (index_slab0 d).
Proof.
  intros Hd Hi Hl Hn. rewrite drop_import_intrinsic.
  rewrite as_u32_as_i32 by (pose proof (Slab.insert_bound _ _ _ _ Hi); unfold is_u32; lia).
  assert (Hg : Slab.get ix' h = Some self_)
    by (rewrite (Slab.insert_get _ _ _ _ h Hi); by rewrite decide_True).
  pose proof (Slab.remove_of_get _ _ _ Hg) as Hrem.
  assert (Hlt : (self_ < length (ResourceSlab.slots (resource_slab0 d)))%nat)
    by (eapply lookup_lt_Some; exact Hl).
  assert (Hrem' : Slab.remove (index_slab0 (guest_data s)) h =
                   Some (Slab.mk_slab (<[h := Slab.Empty (Slab.next ix')]> (Slab.entries ix')) h, self_))
    by (rewrite Hd; exact Hrem).
  assert (Hdrop' := ResourceSlab.drop_shared (resource_slab0 (guest_data s)) self_ w (n + 1)
                      ltac:(rewrite Hd; simpl; by rewrite list_lookup_insert_eq) ltac:(lia)).
  eexists. split.
  - rewrite (WapcGuest.resource_drop_wapc_live _ _ _ _ _ _ Hrem' Hdrop'), Hd. simpl.
    do 3 f_equal. destruct (resource_slab0 d) as [sl]. simpl in *.
    rewrite Z.add_simpl_r, list_insert_insert, decide_True by done. f_equal. by apply list_insert_id.
  - rewrite (Slab.remove_view _ _ _ _ Hrem), (Slab.insert_view _ _ _ _ Hi), delete_insert_id; [done|].
    rewrite Slab.to_map_lookup. by eapply Slab.insert_fresh.
Qed.

(** C4: the host's [wapc_init_guest_request self_ operation payload],
    run against the guest module, is one balanced round trip: the host
    clones [self_] and issues handle [h], which maps to [self_]; the
    guest's [Handle] reads [self_]'s value [w] back through its [Deref]
    (the get import), and the guest's [Wapc::init_guest_request] runs,
    once, on [w] and exactly [operation] and [payload]; the guest's [Handle] then drops [h], so
    that the resource slab is as before and the handle table is back to
    the same abstract map; the memory has grown by the two buffers; and
    the id the guest returns comes back to the host reinterpreted
    [u32 -> i32 -> u32] (the identity on [u32]). *)
Theorem host_request_reaches_guest s self_ w n op pl ix' h :
  ResourceSlab.slots (resource_slab0 (guest_data s)) !! self_ =
    Some (Some (ResourceSlab.mk_slot w n)) -> 1 <= n -> n + 1 < 2 ^ 32 ->
  Slab.insert (index_slab0 (guest_data s)) self_ = Ok (ix', h) ->
  Z.of_nat (length (memory s) + length op + length pl) < 2 ^ 32 ->
  Memory.valid_utf8 op = true ->
  Slab.get ix' h = Some self_ /\
  exists ix2,
    @WapcGuest.wapc_init_guest_request _ _ _ (guest_module drop_import get_import alloc) self_ op pl s =
      (let '(g', id) := impl_init_guest_request w op pl (guest s) in
       (mk_store (mk_guest_data ix2 (resource_slab0 (guest_data s)) (dtor0 (guest_data s)))
          (host s) (tables s) (memory s ++ op ++ pl) g', Ok (as_u32 (as_i32 id)))) /\
    Slab.to_map ix2 = Slab.to_map (index_slab0 (guest_data s)).
Proof.
  intros Hl Hn0 Hn Hi Hb Hu.
  split; [rewrite (Slab.insert_get _ _ _ _ h Hi); by rewrite decide_True|].
  unfold WapcGuest.wapc_init_guest_request.
  rewrite (bind_ok _ _ _ _ _ (WapcGuest.lower_self_ok _ _ _ _ _ _ Hl Hn Hi)).
  erewrite bind_ok; [|apply (WapcGuest.lower_bytes_fresh (H := guest_module drop_import get_import alloc)
                               alloc_fresh); simpl; lia].
  erewrite bind_ok; [|apply (WapcGuest.lower_bytes_fresh (H := guest_module drop_import get_import alloc)
                               alloc_fresh); simpl; rewrite length_app; lia].
  cbn [wapc_init_guest_request_export guest_module memory set_memory set_guest_data guest_data].
  unfold export_init_guest_request, from_raw_parts, from_utf8_unwrap, call_impl. st_simpl.
  rewrite (get_issued_handle _ (guest_data s) ix' h self_ w n); [|reflexivity|exact Hi|exact Hl].
  st_simpl.
  rewrite !Memory.slice_as_i32.
  cbn [memory set_memory set_guest_data].
  rewrite <- app_assoc, WapcGuest.slice_middle by lia.
  unfold Memory.from_utf8. rewrite Hu. st_simpl.
  pose proof (WapcGuest.slice_middle (memory s ++ op) pl [] ltac:(rewrite length_app; simpl; lia))
    as Es.
  rewrite app_nil_r, <- app_assoc in Es. cbn [memory set_memory].
  rewrite Memory.slice_as_i32, Es. simpl.
  destruct (impl_init_guest_request _ op pl _) as [g' id].
  edestruct drop_issued_handle as (ix2 & Ed & Hv); [|exact Hi|exact Hl|exact Hn0|].
  2: { exists ix2. split; [|exact Hv]. rewrite Ed. reflexivity. }
  reflexivity.
Qed.

(** C23: the host's [wapc_on_host_response self_ id code bytes], run
    against the guest module, calls the guest's [Wapc::on_host_response]
    once, on [self_]'s value [w] (read through the [Handle]'s [Deref]
    from a fresh handle that maps to [self_]), with the same [id] and
    [code] (each crosses as [as_i32] and comes back [as u32]) and
    exactly [bytes]; the guest then drops the handle, which leaves the
    resource slab as before and the handle table at the same abstract
    map. *)
Theorem host_response_reaches_guest s self_ w n id code bytes ix' h :
  ResourceSlab.slots (resource_slab0 (guest_data s)) !! self_ =
    Some (Some (ResourceSlab.mk_slot w n)) -> 1 <= n -> n + 1 < 2 ^ 32 ->
  Slab.insert (index_slab0 (guest_data s)) self_ = Ok (ix', h) ->
  Z.of_nat (length (memory s) + length bytes) < 2 ^ 32 -> is_u32 id -> is_u32 code ->
  Slab.get ix' h = Some self_ /\
  exists ix2,
    @WapcGuest.wapc_on_host_response _ _ _ (guest_module drop_import get_import alloc) self_ id code bytes s =
      (mk_store (mk_guest_data ix2 (resource_slab0 (guest_data s)) (dtor0 (guest_data s)))
         (host s) (tables s) (memory s ++ bytes)
         (impl_on_host_response w id code bytes (guest s)), Ok tt) /\
    Slab.to_map ix2 = Slab.to_map (index_slab0 (guest_data s)).
Proof.
  intros Hl Hn0 Hn Hi Hb Hid Hcode.
  split; [rewrite (Slab.insert_get _ _ _ _ h Hi); by rewrite decide_True|].
  unfold WapcGuest.wapc_on_host_response.
  rewrite (bind_ok _ _ _ _ _ (WapcGuest.lower_self_ok _ _ _ _ _ _ Hl Hn Hi)).
  erewrite bind_ok; [|apply (WapcGuest.lower_bytes_fresh (H := guest_module drop_import get_import alloc)
                               alloc_fresh); simpl; lia].
  cbn [wapc_on_host_response_export guest_module memory set_memory set_guest_data guest_data].
  unfold export_on_host_response, from_raw_parts, call_impl. st_simpl.
  rewrite (get_issued_handle _ (guest_data s) ix' h self_ w n); [|reflexivity|exact Hi|exact Hl].
  st_simpl.
  rewrite Memory.slice_as_i32.
  cbn [memory set_memory].
  pose proof (WapcGuest.slice_middle (memory s) bytes [] ltac:(simpl; lia)) as Es.
  rewrite app_nil_r in Es. rewrite Es. simpl. rewrite !as_u32_as_i32 by done.
  edestruct drop_issued_handle as (ix2 & Ed & Hv); [|exact Hi|exact Hl|exact Hn0|].
  2: { exists ix2. split; [|exact Hv]. rewrite Ed. reflexivity. }
  reflexivity.
Qed.

(** C24: the host's [wapc_on_host_error self_ id bytes], run against the
    guest module, calls the guest's [Wapc::on_host_error] once, on
    [self_]'s value [w] (read through the [Handle]'s [Deref] from a
    fresh handle that maps to [self_]), with the same [id] ([as_i32] there and
    [as u32] back) and exactly [bytes]; the guest then drops the handle,
    which leaves the resource slab as before and the handle table at the
    same abstract map. *)
Theorem host_error_reaches_guest s self_ w n id bytes ix' h :
  ResourceSlab.slots (resource_slab0 (guest_data s)) !! self_ =
    Some (Some (ResourceSlab.mk_slot w n)) -> 1 <= n -> n + 1 < 2 ^ 32 ->
  Slab.insert (index_slab0 (guest_data s)) self_ = Ok (ix', h) ->
  Z.of_nat (length (memory s) + length bytes) < 2 ^ 32 -> is_u32 id ->
  Slab.get ix' h = Some self_ /\
  exists ix2,
    @WapcGuest.wapc_on_host_error _ _ _ (guest_module drop_import get_import alloc) self_ id bytes s =
      (mk_store (mk_guest_data ix2 (resource_slab0 (guest_data s)) (dtor0 (guest_data s)))
         (host s) (tables s) (memory s ++ bytes)
         (impl_on_host_error w id bytes (guest s)), Ok tt) /\
    Slab.to_map ix2 = Slab.to_map (index_slab0 (guest_data s)).
Proof.
  intros Hl Hn0 Hn Hi Hb Hid.
  split; [rewrite (Slab.insert_get _ _ _ _ h Hi); by rewrite decide_True|].
  unfold WapcGuest.wapc_on_host_error.
  rewrite (bind_ok _ _ _ _ _ (WapcGuest.lower_self_ok _ _ _ _ _ _ Hl Hn Hi)).
  erewrite bind_ok; [|apply (WapcGuest.lower_bytes_fresh (H := guest_module drop_import get_import alloc)
                               alloc_fresh); simpl; lia].
  cbn [wapc_on_host_error_export guest_module memory set_memory set_guest_data guest_data].
  unfold export_on_host_error, from_raw_parts, call_impl. st_simpl.
  rewrite (get_issued_handle _ (guest_data s) ix' h self_ w n); [|reflexivity|exact Hi|exact Hl].
  st_simpl.
  rewrite Memory.slice_as_i32.
  cbn [memory set_memory].
  pose proof (WapcGuest.slice_middle (memory s) bytes [] ltac:(simpl; lia)) as Es.
  rewrite app_nil_r in Es. rewrite Es. simpl. rewrite as_u32_as_i32 by done.
  edestruct drop_issued_handle as (ix2 & Ed & Hv); [|exact Hi|exact Hl|exact Hn0|].
  2: { exists ix2. split; [|exact Hv]. rewrite Ed. reflexivity. }
  reflexivity.
Qed.
End ToGuest.

Section Ill_formed.
Context {U W G : Type} `{WapcImpl G}.
Implicit Types (s : store U W G).

(** C16: on a live handle, when the bytes the host passed as the
    operation name are not well-formed UTF-8, the guest's
    [wapc::init-guest-request] panics ([String::from_utf8(..).unwrap()])
    before the guest's implementation runs and without changing the
    store: the [Deref] of the handle only reads the resource, and the
    guest's [Handle] is never dropped, so the reference the host cloned
    for the call stays behind.  The spec (section 4.3) asks for an
    [InvalidUtf8] error instead. *)
Theorem guest_rejects_ill_formed_operation drop_import get_import s a0 a1 a2 a3 a4 v bs :
  get_import a0 s = (s, Ok v) ->
  Memory.slice (memory s) a1 a2 = Ok bs -> Memory.valid_utf8 bs = false ->
  export_init_guest_request drop_import get_import a0 a1 a2 a3 a4 s = (s, Err Panic).
Proof.
  intros Hg Hs Hu. unfold export_init_guest_request, from_raw_parts, from_utf8_unwrap.
  st_simpl. rewrite Hg. simpl. rewrite Hs. unfold Memory.from_utf8. by rewrite Hu.
Qed.

(** The guest's [String::from_utf8(..).unwrap()] (line 216) gives back
    the operation's bytes exactly when they are the UTF-8 encoding of a
    sequence of Unicode scalar values ([Utf8.encode]), and panics
    exactly when they are not; the store is unchanged either way. *)
Lemma from_utf8_unwrap_encodings s bs :
  (from_utf8_unwrap bs s = (s, Ok bs) <->
     exists cs, Forall Utf8.scalar cs /\ Utf8.encode cs = bs) /\
  (from_utf8_unwrap bs s = (s, Err Panic) <->
     ~ exists cs, Forall Utf8.scalar cs /\ Utf8.encode cs = bs).
Proof.
  rewrite <- Utf8.valid_utf8_iff. unfold from_utf8_unwrap, Memory.from_utf8.
  destruct (Memory.valid_utf8 bs); split; split; done.
Qed.
End Ill_formed.

(** ** Fixtures: a logging host, an echo guest and a bump allocator *)
#[local] Instance log_host : WapcHost (list (list Memory.byte)) nat := {|
  wapc_init_host_request := fun _ _ _ op _ u => (u ++ [op], 0);
  wapc_on_guest_response := fun _ _ bs u => u ++ [bs];
  wapc_on_guest_error := fun _ _ bs u => u ++ [bs];
  wapc_console_log := fun _ m u => u ++ [m];
  drop_wapc := fun _ u => u;
|}.

(** The guest records what it is given and answers id 7. *)
#[local] Instance echo_guest : WapcImpl (list (list Memory.byte)) := {|
  impl_init_guest_request := fun _ op pl g => (g ++ [op; pl], 7);
  impl_on_host_response := fun _ _ _ bs g => g ++ [bs];
  impl_on_host_error := fun _ _ bs g => g ++ [bs];
  impl_drop_wapc := fun _ g => g;
  impl_owned := fun _ _ => [];
|}.

Abbreviation TStore := (store (list (list Memory.byte)) nat (list (list Memory.byte))).

Definition bump : Z -> Z -> Z -> Z -> St TStore Z := fun _ _ _ => WapcGuest.fresh_alloc.

(** A guest holding handle 0 to host resource 0, with "demo", "add"
    and [2; 3] in its memory. *)
Definition guest_side : TStore :=
  mk_store WapcGuestData_default [] (mk_host_tables (Slab.mk_slab [Slab.Full 0%nat] 1))
    demo_memory [].

Definition s_demo := mk_slice 0 [Byte.x64; Byte.x65; Byte.x6d; Byte.x6f].
Definition s_add := mk_slice 4 [Byte.x61; Byte.x64; Byte.x64].
Definition s_args := mk_slice 7 [Byte.x02; Byte.x03].

Lemma guest_request_reaches_host_witness :
  live_handle guest_side 0 0%nat /\
  placed guest_side s_demo /\ placed guest_side s_demo /\ placed guest_side s_add /\
  placed guest_side s_args /\
  Memory.valid_utf8 (gbytes s_demo) = true /\ Memory.valid_utf8 (gbytes s_demo) = true /\
  Memory.valid_utf8 (gbytes s_add) = true /\
  init_host_request 0 s_demo s_demo s_add s_args guest_side =
    let '(u', code) := wapc_init_host_request 0%nat (gbytes s_demo) (gbytes s_demo)
                         (gbytes s_add) (gbytes s_args) (host guest_side) in
    (set_host u' guest_side, Ok (as_u32 (as_i32 code))).
Proof.
  split_and!; [reflexivity..|].
  apply guest_request_reaches_host; reflexivity.
Defined.

Lemma guest_response_id_reaches_host_witness :
  live_handle guest_side 0 0%nat /\ is_u32 7 /\ placed guest_side s_args /\
  on_guest_response 0 7 s_args guest_side =
    (set_host (wapc_on_guest_response 0%nat 7 (gbytes s_args) (host guest_side)) guest_side, Ok tt).
Proof.
  split_and!; [reflexivity|unfold is_u32; lia|reflexivity|].
  apply guest_response_id_reaches_host; [reflexivity|unfold is_u32; lia|reflexivity].
Defined.

(** The host holds resource 0 of the guest ([42], count 1) and no
    guest handle yet; guest memory is empty. *)
Definition host_side : TStore :=
  mk_store (mk_guest_data Slab.empty (ResourceSlab.mk_rslab [Some (ResourceSlab.mk_slot 42 1)])
              (Some tt))
    [] WapcHostTables_default [] [].

Definition echo_op := [Byte.x65; Byte.x63; Byte.x68; Byte.x6f].
Definition echo_payload := [Byte.x01; Byte.x02; Byte.x03].

(** The guest's drop import, resolved to the host intrinsic for guest
    resources; that intrinsic would call the destructor of a module
    whose own drop import does nothing (it is not reached: the guest's
    drop never takes the last reference below). *)
Definition noop_drop : Z -> St TStore unit := fun _ => ret tt.
(** The guest's get import, resolved to the host intrinsic. *)
Definition guest_get : Z -> St TStore Z := fun v => WapcGuest.resource_get_wapc (as_u32 v).

Definition inner_module : WapcGuestExports (list (list Memory.byte)) nat (list (list Memory.byte)) :=
  guest_module noop_drop guest_get bump.
Definition guest_drop : Z -> St TStore unit :=
  fun v => @WapcGuest.resource_drop_wapc _ _ _ inner_module (as_u32 v).

Lemma bump_fresh : forall n s, bump 0 0 1 n s = WapcGuest.fresh_alloc n s.
Proof. reflexivity. Qed.

(** The spec's scenario: the host asks the guest to "echo" [1; 2; 3]
    and receives id 7; the guest's handle is dropped again. *)
Lemma host_request_reaches_guest_witness :
  (forall n s, bump 0 0 1 n s = WapcGuest.fresh_alloc n s) /\
  (forall v s, guest_drop v s = @WapcGuest.resource_drop_wapc _ _ _ inner_module (as_u32 v) s) /\
  (forall v s, guest_get v s = WapcGuest.resource_get_wapc (as_u32 v) s) /\
  ResourceSlab.slots (resource_slab0 (guest_data host_side)) !! 0%nat =
    Some (Some (ResourceSlab.mk_slot 42 1)) /\ 1 <= 1 /\ 1 + 1 < 2 ^ 32 /\
  Slab.insert (index_slab0 (guest_data host_side)) 0%nat = Ok (Slab.mk_slab [Slab.Full 0%nat] 1, 0%nat) /\
  Z.of_nat (length (memory host_side) + length echo_op + length echo_payload) < 2 ^ 32 /\
  Memory.valid_utf8 echo_op = true /\
  (Slab.get (Slab.mk_slab [Slab.Full 0%nat] 1) 0 = Some 0%nat /\
   exists ix2,
     @WapcGuest.wapc_init_guest_request _ _ _ (guest_module guest_drop guest_get bump) 0 echo_op echo_payload
       host_side =
       (let '(g', id) := impl_init_guest_request 42 echo_op echo_payload
                           (guest host_side) in
        (mk_store (mk_guest_data ix2 (resource_slab0 (guest_data host_side))
                     (dtor0 (guest_data host_side)))
           (host host_side) (tables host_side) (memory host_side ++ echo_op ++ echo_payload) g',
         Ok (as_u32 (as_i32 id)))) /\
     Slab.to_map ix2 = Slab.to_map (index_slab0 (guest_data host_side))).
Proof.
  assert (Hd : forall v s, guest_drop v s = @WapcGuest.resource_drop_wapc _ _ _ inner_module (as_u32 v) s)
    by reflexivity.
  assert (Hg : forall v s, guest_get v s = WapcGuest.resource_get_wapc (as_u32 v) s) by reflexivity.
  refine (conj bump_fresh (conj Hd (conj Hg (conj eq_refl (conj _ (conj _ (conj eq_refl (conj _
            (conj eq_refl _))))))))); [lia|lia|simpl; lia|].
  apply (host_request_reaches_guest bump bump_fresh guest_drop inner_module Hd guest_get Hg host_side 0 42 1
           echo_op echo_payload (Slab.mk_slab [Slab.Full 0%nat] 1) 0%nat);
    [reflexivity|lia|lia|reflexivity|simpl; lia|reflexivity].
Defined.

Lemma host_response_reaches_guest_witness :
  (forall n s, bump 0 0 1 n s = WapcGuest.fresh_alloc n s) /\
  (forall v s, guest_drop v s = @WapcGuest.resource_drop_wapc _ _ _ inner_module (as_u32 v) s) /\
  (forall v s, guest_get v s = WapcGuest.resource_get_wapc (as_u32 v) s) /\
  ResourceSlab.slots (resource_slab0 (guest_data host_side)) !! 0%nat =
    Some (Some (ResourceSlab.mk_slot 42 1)) /\ 1 <= 1 /\ 1 + 1 < 2 ^ 32 /\
  Slab.insert (index_slab0 (guest_data host_side)) 0%nat = Ok (Slab.mk_slab [Slab.Full 0%nat] 1, 0%nat) /\
  Z.of_nat (length (memory host_side) + length echo_payload) < 2 ^ 32 /\ is_u32 7 /\ is_u32 0 /\
  (Slab.get (Slab.mk_slab [Slab.Full 0%nat] 1) 0 = Some 0%nat /\
   exists ix2,
     @WapcGuest.wapc_on_host_response _ _ _ (guest_module guest_drop guest_get bump) 0 7 0 echo_payload
       host_side =
       (mk_store (mk_guest_data ix2 (resource_slab0 (guest_data host_side))
                    (dtor0 (guest_data host_side)))
          (host host_side) (tables host_side) (memory host_side ++ echo_payload)
          (impl_on_host_response 42 7 0 echo_payload (guest host_side)), Ok tt) /\
     Slab.to_map ix2 = Slab.to_map (index_slab0 (guest_data host_side))).
Proof.
  assert (Hd : forall v s, guest_drop v s = @WapcGuest.resource_drop_wapc _ _ _ inner_module (as_u32 v) s)
    by reflexivity.
  assert (Hg : forall v s, guest_get v s = WapcGuest.resource_get_wapc (as_u32 v) s) by reflexivity.
  assert (H7 : is_u32 7) by (unfold is_u32; lia).
  assert (H0 : is_u32 0) by (unfold is_u32; lia).
  refine (conj bump_fresh (conj Hd (conj Hg (conj eq_refl (conj _ (conj _ (conj eq_refl (conj _
            (conj H7 (conj H0 _)))))))))); [lia|lia|simpl; lia|].
  apply (host_response_reaches_guest bump bump_fresh guest_drop inner_module Hd guest_get Hg host_side 0 42 1
           7 0 echo_payload (Slab.mk_slab [Slab.Full 0%nat] 1) 0%nat);
    [reflexivity|lia|lia|reflexivity|simpl; lia|exact H7|exact H0].
Defined.

Lemma host_error_reaches_guest_witness :
  (forall n s, bump 0 0 1 n s = WapcGuest.fresh_alloc n s) /\
  (forall v s, guest_drop v s = @WapcGuest.resource_drop_wapc _ _ _ inner_module (as_u32 v) s) /\
  (forall v s, guest_get v s = WapcGuest.resource_get_wapc (as_u32 v) s) /\
  ResourceSlab.slots (resource_slab0 (guest_data host_side)) !! 0%nat =
    Some (Some (ResourceSlab.mk_slot 42 1)) /\ 1 <= 1 /\ 1 + 1 < 2 ^ 32 /\
  Slab.insert (index_slab0 (guest_data host_side)) 0%nat = Ok (Slab.mk_slab [Slab.Full 0%nat] 1, 0%nat) /\
  Z.of_nat (length (memory host_side) + length echo_payload) < 2 ^ 32 /\ is_u32 7 /\
  (Slab.get (Slab.mk_slab [Slab.Full 0%nat] 1) 0 = Some 0%nat /\
   exists ix2,
     @WapcGuest.wapc_on_host_error _ _ _ (guest_module guest_drop guest_get bump) 0 7 echo_payload host_side =
       (mk_store (mk_guest_data ix2 (resource_slab0 (guest_data host_side))
                    (dtor0 (guest_data host_side)))
          (host host_side) (tables host_side) (memory host_side ++ echo_payload)
          (impl_on_host_error 42 7 echo_payload (guest host_side)), Ok tt) /\
     Slab.to_map ix2 = Slab.to_map (index_slab0 (guest_data host_side))).
Proof.
  assert (Hd : forall v s, guest_drop v s = @WapcGuest.resource_drop_wapc _ _ _ inner_module (as_u32 v) s)
    by reflexivity.
  assert (Hg : forall v s, guest_get v s = WapcGuest.resource_get_wapc (as_u32 v) s) by reflexivity.
  assert (H7 : is_u32 7) by (unfold is_u32; lia).
  refine (conj bump_fresh (conj Hd (conj Hg (conj eq_refl (conj _ (conj _ (conj eq_refl (conj _
            (conj H7 _))))))))); [lia|lia|simpl; lia|].
  apply (host_error_reaches_guest bump bump_fresh guest_drop inner_module Hd guest_get Hg host_side 0 42 1
           7 echo_payload (Slab.mk_slab [Slab.Full 0%nat] 1) 0%nat);
    [reflexivity|lia|lia|reflexivity|simpl; lia|exact H7].
Defined.

(** An overlong encoding of NUL, [C0 80], is not UTF-8; the host passes
    it with the guest handle 0 to resource 0. *)
Definition bad_op_store : TStore :=
  mk_store (mk_guest_data (Slab.mk_slab [Slab.Full 0%nat] 1)
              (ResourceSlab.mk_rslab [Some (ResourceSlab.mk_slot 42 2)]) (Some tt))
    [] WapcHostTables_default [Byte.xc0; Byte.x80] [].

Lemma guest_rejects_ill_formed_operation_witness :
  guest_get 0 bad_op_store = (bad_op_store, Ok 42) /\
  Memory.slice (memory bad_op_store) 0 2 = Ok [Byte.xc0; Byte.x80] /\
  Memory.valid_utf8 [Byte.xc0; Byte.x80] = false /\
  export_init_guest_request guest_drop guest_get 0 0 2 0 0 bad_op_store = (bad_op_store, Err Panic).
Proof.
  split_and!; [reflexivity|reflexivity|reflexivity|].
  apply (guest_rejects_ill_formed_operation _ _ _ _ _ _ _ _ 42 [Byte.xc0; Byte.x80]); reflexivity.
Defined.

End GuestBindings.
