(* ===== verification/Cascade.v ===== *)
(** * Cascade: destructors that drop handles, re-entering the host

    A guest value can own handles (a [Handle<Wapc>] or a
    [wapc_host::Wapc] field).  When the host's intrinsic
    [canonical_abi::resource_drop_wapc] drops the last reference to a
    resource it calls the guest's destructor export, which drops the
    handles the value owned through the guest's import of that same
    intrinsic (src/guest/bindings.rs lines 21-32, 146-163, 206-211):
    the host intrinsic re-enters itself through the guest, as deep as
    chains of ownership go.

    [host_drop n] is that intrinsic with the guest's drop import
    resolved to itself, [n] calls deep at most: [n] stands for the wasm
    call stack, and running out of it is wasmtime's "call stack
    exhausted" trap.  The theorems show that the depth is bounded by
    the number of live resources: with more fuel than that, the result
    does not depend on the fuel and is never the exhaustion trap (the
    cascade terminates), and a chain of [k] resources does nest [k]
    calls. *)

From S2P Require Import Prelude Slab ResourceSlab Memory Store GuestExports GuestBindings.

Module Cascade.
Import WapcGuest GuestBindings.

(** The number of live resources of a slab. *)
Definition live_slots (l : list (option ResourceSlab.slot)) : nat := length (omap id l).

Lemma live_slots_free l i sl :
  l !! i = Some (Some sl) -> S (live_slots (<[i := None]> l)) = live_slots l.
Proof.
  unfold live_slots. revert i. induction l as [|o l IH]; intros [|i] Hi; simplify_eq/=; [done|].
  destruct o; simpl; by rewrite <- (IH i).
Qed.

Lemma live_slots_set l i sl sl' :
  l !! i = Some (Some sl) -> live_slots (<[i := Some sl']> l) = live_slots l.
Proof.
  unfold live_slots. revert i. induction l as [|o l IH]; intros [|i] Hi; simplify_eq/=; [done|].
  destruct o; simpl; by rewrite (IH i).
Qed.

Section Cascade.
Context {U W G : Type} `{WapcImpl G}.
Local Abbreviation Sto := (store U W G).
Implicit Types (s : Sto).

Definition live (s : Sto) : nat := live_slots (ResourceSlab.slots (resource_slab0 (guest_data s))).

(** The guest's allocator (not used by a drop). *)
Variable alloc : Z -> Z -> Z -> Z -> St Sto Z.

(** The guest's get import (not used by a drop either). *)
Variable get : Z -> St Sto Z.

(** The host intrinsic, with the guest's drop import resolved to the
    host intrinsic again, [fuel] calls deep at most. *)
Fixpoint host_drop (fuel : nat) (h : Z) : St Sto unit :=
  match fuel with
  | O => throw StackExhausted
  | S f => @resource_drop_wapc _ _ _ (guest_module (host_drop f) get alloc) (as_u32 h)
  end.

Local Open Scope nat_scope.

(** ** The owned handles, dropped one after the other *)
Section DropEach.
Variable d : Z -> St Sto unit.

(** The drop import never makes a resource live. *)
Definition monotone : Prop := forall h s, live (d h s).1 <= live s.

Lemma drop_each_mono : monotone -> forall hs s, live (drop_each d hs s).1 <= live s.
Proof.
  intros Hd hs. induction hs as [|h hs IH]; intros s; simpl; st_simpl; [done|].
  specialize (Hd h s). destruct (d h s) as [s1 [[]|e]]; simpl in *; [|done].
  specialize (IH s1). lia.
Qed.

Lemma drop_each_no_exhaust L :
  monotone -> (forall h s, live s <= L -> (d h s).2 <> Err StackExhausted) ->
  forall hs s, live s <= L -> (drop_each d hs s).2 <> Err StackExhausted.
Proof.
  intros Hm Hd hs. induction hs as [|h hs IH]; intros s Hs; simpl; st_simpl; [done|].
  specialize (Hm h s). specialize (Hd h s Hs).
  destruct (d h s) as [s1 [[]|e]]; simpl in *; [apply IH; lia|done].
Qed.
End DropEach.

Lemma drop_each_ext d1 d2 L :
  monotone d1 -> (forall h s, live s <= L -> d1 h s = d2 h s) ->
  forall hs s, live s <= L -> drop_each d1 hs s = drop_each d2 hs s.
Proof.
  intros Hm Hd hs. induction hs as [|h hs IH]; intros s Hs; simpl; st_simpl; [done|].
  rewrite <- (Hd h s Hs). specialize (Hm h s).
  destruct (d1 h s) as [s1 [[]|e]]; simpl in *; [apply IH; lia|done].
Qed.

(** ** One call of the intrinsic

    Either it returns without calling the drop import (a dead handle, a
    shared reference, a missing destructor), or it finalizes a resource
    and then drops the handles the value owned, in a state with one live
    resource fewer.  Which one, and what it does up to the drops, does
    not depend on what the drop import is. *)
Lemma intrinsic_cases idx s :
  (exists r, (forall d, @resource_drop_wapc _ _ _ (guest_module d get alloc) idx s = r) /\
     live r.1 <= live s /\ r.2 <> Err StackExhausted) \/
  (exists s3 hs, S (live s3) <= live s /\
     forall d, @resource_drop_wapc _ _ _ (guest_module d get alloc) idx s = drop_each d hs s3).
Proof.
  unfold resource_drop_wapc, on_data, index_remove, res_drop, call_dtor. st_simpl.
  destruct (Slab.remove _ _) as [[ix r]|]; simpl; [|left; eexists; split_and!; by eauto].
  unfold ResourceSlab.drop. simpl.
  destruct (ResourceSlab.slots (resource_slab0 (guest_data s)) !! r) as [[sl|]|] eqn:E;
    simpl; [|left; eexists; split_and!; by eauto..].
  destruct (ResourceSlab.refcnt sl =? 1)%Z; simpl.
  - destruct (dtor0 (guest_data s)); simpl.
    + right. unfold export_canonical_abi_drop_wapc, call_impl. st_simpl.
      eexists _, _. split; [|intros d; reflexivity].
      unfold live. simpl. by rewrite (live_slots_free _ _ _ E).
    + left. eexists. split_and!; [by eauto| |done].
      unfold live. simpl. rewrite <- (live_slots_free _ _ _ E). lia.
  - left. eexists. split_and!; [by eauto| |done].
    unfold live. simpl. by rewrite (live_slots_set _ _ _ _ E).
Qed.

(** ** The cascade *)

Lemma host_drop_mono n : monotone (host_drop n).
Proof.
  induction n as [|f IH]; intros h s; simpl; [done|].
  destruct (intrinsic_cases (as_u32 h) s) as [(r & Hr & Hl & _)|(s3 & hs & Hl & Hr)];
    rewrite Hr; [done|].
  pose proof (drop_each_mono _ IH hs s3). lia.
Qed.

(** C12: the host's drop intrinsic, re-entered through the destructors
    of values that own handles, terminates: with a call stack deeper
    than the number of live resources, dropping any handle gives a
    result that does not depend on the depth of the stack, and that
    result is never the "call stack exhausted" trap.  Each nested call
    happens after a resource has been finalized, so a chain of nested
    drops is never longer than the number of live resources. *)
Theorem cascade_terminates n m h s :
  live s < n -> live s < m ->
  host_drop n h s = host_drop m h s /\ (host_drop n h s).2 <> Err StackExhausted.
Proof.
  revert m h s. induction n as [|f IH]; intros [|g] h s Hn Hm; [lia..|]. simpl.
  destruct (intrinsic_cases (as_u32 h) s) as [(r & Hr & _ & He)|(s3 & hs & Hl & Hr)];
    rewrite !Hr; [done|].
  split.
  - apply (drop_each_ext _ _ (live s3)); [apply host_drop_mono| |done].
    intros h' s' Hs'. apply (IH g); lia.
  - apply (drop_each_no_exhaust _ (live s3)); [apply host_drop_mono| |done].
    intros h' s' Hs'. apply (IH f); lia.
Qed.

End Cascade.

(** ** A chain of three resources *)

(** A guest whose values record their finalization, and where the
    value [10] owns handle [1] and the value [11] owns handle [2]. *)
#[local] Instance chain_impl : WapcImpl (list Z) := {|
  impl_init_guest_request := fun _ _ _ g => (g, 0%Z);
  impl_on_host_response := fun _ _ _ _ g => g;
  impl_on_host_error := fun _ _ _ g => g;
  impl_drop_wapc := fun w g => g ++ [w];
  impl_owned := fun w _ => if (w =? 10)%Z then [1%Z] else if (w =? 11)%Z then [2%Z] else [];
|}.

Definition no_alloc : Z -> Z -> Z -> Z -> St (store unit unit (list Z)) Z :=
  fun _ _ _ _ => throw AllocationFailed.

Definition chain_get : Z -> St (store unit unit (list Z)) Z :=
  fun v => WapcGuest.resource_get_wapc (as_u32 v).

(** Handles [0], [1], [2] to the resources [10], [11], [12], one
    reference each. *)
Definition chain_store : store unit unit (list Z) :=
  mk_store
    (mk_guest_data (Slab.mk_slab [Slab.Full 0%nat; Slab.Full 1%nat; Slab.Full 2%nat] 3)
       (ResourceSlab.mk_rslab [Some (ResourceSlab.mk_slot 10 1); Some (ResourceSlab.mk_slot 11 1);
                               Some (ResourceSlab.mk_slot 12 1)]) (Some tt))
    tt WapcHostTables_default [] [].

Lemma cascade_terminates_witness :
  (live chain_store < 4)%nat /\ (live chain_store < 5)%nat /\
  host_drop no_alloc chain_get 4 0 chain_store = host_drop no_alloc chain_get 5 0 chain_store /\
  (host_drop no_alloc chain_get 4 0 chain_store).2 <> Err StackExhausted.
Proof.
  assert (Hl : live chain_store = 3%nat) by reflexivity.
  split_and!; [lia|lia|..]; apply (cascade_terminates no_alloc chain_get 4 5 0 chain_store); lia.
Defined.

(** The depth is the length of the chain.  Dropping handle [0]
    finalizes [10], whose value drops handle [1], which finalizes
    [11], whose value drops handle [2], which finalizes [12]: three
    intrinsic calls nested in one another.  With a stack for two the
    innermost drop exhausts it (after [10] and [11] were finalized and
    their slots freed); with a stack for three the three values are
    finalized in order and every slot is free. *)
Example chain_nests_drops :
  (host_drop no_alloc chain_get 2 0 chain_store).2 = Err StackExhausted /\
  guest (host_drop no_alloc chain_get 2 0 chain_store).1 = [10; 11]%Z /\
  (host_drop no_alloc chain_get 3 0 chain_store).2 = Ok tt /\
  guest (host_drop no_alloc chain_get 3 0 chain_store).1 = [10; 11; 12]%Z /\
  ResourceSlab.slots (resource_slab0 (guest_data (host_drop no_alloc chain_get 3 0 chain_store).1)) =
    [None; None; None].
Proof. vm_compute. split_and!; reflexivity. Qed.

End Cascade.
